(** * Shallow embedding of the repository trust engine (validate.cpp)

    The development follows [src/core/validate.cpp]: the hexadecimal codec
    ([bin2hex], [hex2bin]), the hex front ends of the Ed25519 verifier
    ([verify], [verify_gpg_hashed_msg]), the signature threshold check
    ([check_signatures]), the two root dialects ([v1], [v06]) with their
    JSON readers, and the update state machine ([update], [RepoTrust]).

    Conventions.
    - [size_t] and [unsigned int] values are integers of [Z]; every
      operation that can leave the range is followed by its reduction
      ([size_t_wrap], [uint32], [uchar]).
    - Memory buffers are [list byte]; a write [buf[i] = x] is the list
      update [<[i:=x]> buf].
    - A function that can throw returns [result A]: [Ok a] or [Err e]
      with [e] the exception.
    - [std::map<std::string, T>] is [gmap string T]; the document type of
      the JSON library stores objects in such a map as well. *)

From Stdlib Require Import ZArith Bool Sorted.
From Stdlib.Strings Require Import String Ascii Byte.
From stdpp Require Import base option list gmap strings fin_maps.

#[local] Set Warnings "-register-all".
#[local] Open Scope Z_scope.

(** ** Exceptions *)

Inductive exn : Type :=
  | threshold_error
  | role_metadata_error
  | rollback_error
  | role_file_error
  | spec_version_error
  | runtime_error      (* std::runtime_error *)
  | out_of_range       (* std::out_of_range, from std::map::at *)
  | json_exception.    (* nlohmann::json::exception and its subclasses *)

Inductive result (A : Type) : Type :=
  | Ok (a : A)
  | Err (e : exn).
Arguments Ok {A} a.
Arguments Err {A} e.

#[global] Instance exn_eq_dec : EqDecision exn.
Proof. solve_decision. Defined.

#[global] Instance result_ret : MRet result := λ A a, Ok a.
#[global] Instance result_bind : MBind result := λ A B f m,
  match m with Ok a => f a | Err e => Err e end.
#[global] Instance result_fmap : FMap result := λ A B f m,
  match m with Ok a => Ok (f a) | Err e => Err e end.

Definition is_Ok {A} (m : result A) : bool :=
  match m with Ok _ => true | Err _ => false end.

Definition to_option {A} (m : result A) : option A :=
  match m with Ok a => Some a | Err _ => None end.

(** ** Machine integers *)

(** [SIZE_MAX] of the LP64 targets the package manager is built for. *)
Definition SIZE_MAX : Z := 2 ^ 64 - 1.
Definition size_t_wrap (z : Z) : Z := z mod 2 ^ 64.
Definition uint32 (z : Z) : Z := z mod 2 ^ 32.
Definition uchar (z : Z) : Z := z mod 256.

#[global] Instance byte_eq_dec : EqDecision byte := Byte.byte_eq_dec.

Definition Z_of_byte (b : byte) : Z := Z.of_N (Byte.to_N b).
Definition byte_of_Z (z : Z) : byte :=
  match Byte.of_N (Z.to_N (uchar z)) with
  | Some b => b
  | None => x00
  end.

(** The bytes of a [std::string], and the buffer [c_str()] points to. *)
Definition bytes_of_string (s : string) : list byte := list_byte_of_string s.
Definition c_str (s : string) : list byte := bytes_of_string s ++ [x00].

(** ** HexCodec *)

Module HexCodec.

(** The expression [(unsigned char) (87U + n + (((n - 10U) >> 8) & ~38U))]
    of [bin2hex], for a nibble [n]. *)
Definition bin2hex_digit (n : Z) : Z :=
  uchar (uint32 (87 + n + Z.land (Z.shiftr (uint32 (n - 10)) 8) (uint32 (Z.lnot 38)))).

(** The [while (i < bin_len)] loop of [bin2hex]; [bin] holds the bytes
    [bin[i..bin_len)]. *)
Fixpoint bin2hex_loop (hex : list byte) (i : Z) (bin : list byte) : list byte :=
  match bin with
  | [] => hex
  | bi :: bin' =>
      let c := Z.land (Z_of_byte bi) 15 in
      let b := Z.shiftr (Z_of_byte bi) 4 in
      let x := Z.lor (Z.shiftl (bin2hex_digit c) 8) (bin2hex_digit b) in
      let hex := <[Z.to_nat (i * 2) := byte_of_Z x]> hex in
      let x := Z.shiftr x 8 in
      let hex := <[Z.to_nat (i * 2 + 1) := byte_of_Z x]> hex in
      bin2hex_loop hex (i + 1) bin'
  end.

(** [bin2hex(hex, hex_maxlen, bin, bin_len)]: [hex] is the content of the
    destination before the call, the result its content after it. The
    caller provides a destination of at least [hex_maxlen] characters and
    [bin_len] readable bytes; the list updates are then in range. *)
Definition bin2hex (hex : list byte) (hex_maxlen : Z) (bin : list byte) (bin_len : Z)
  : result (list byte) :=
  if (SIZE_MAX / 2 <=? bin_len) || (hex_maxlen <? size_t_wrap (bin_len * 2))
  then Err runtime_error
  else
    let hex := bin2hex_loop hex 0 (take (Z.to_nat bin_len) bin) in
    Ok (if size_t_wrap (bin_len * 2) <? hex_maxlen
        then <[Z.to_nat (bin_len * 2) := x00]> hex
        else hex).

Inductive errno_t : Type := ERANGE | EINVAL.

(** The local variables of [hex2bin] that live across loop iterations,
    together with the destination buffer. *)
Record hex2bin_vars : Type := MkVars {
  v_bin : list byte;
  v_bin_pos : Z;
  v_hex_pos : Z;
  v_ret : Z;
  v_c_acc : Z;
  v_state : Z;
  v_errno : option errno_t
}.

(** [strchr(ignore, c) != NULL]: the terminating NUL of [ignore] is part of
    the string for [strchr]. *)
Definition strchr_found (ignore : list byte) (c : Z) : bool :=
  bool_decide (byte_of_Z c ∈ ignore) || (c =? 0).

Definition c_num (c : Z) : Z := uchar (Z.lxor c 48).
Definition c_num0 (c : Z) : Z := uchar (Z.shiftr (uint32 (c_num c - 10)) 8).
Definition c_alpha (c : Z) : Z := uchar (uint32 (Z.land c (uint32 (Z.lnot 32)) - 55)).
Definition c_alpha0 (c : Z) : Z :=
  uchar (Z.shiftr (Z.lxor (uint32 (c_alpha c - 10)) (uint32 (c_alpha c - 16))) 8).
Definition c_val (c : Z) : Z :=
  Z.lor (Z.land (c_num0 c) (c_num c)) (Z.land (c_alpha0 c) (c_alpha c)).

(** The [while (hex_pos < hex_len)] loop; [rest] holds the characters
    [hex[hex_pos..hex_len)]. Leaving the recursion is [break] (or the loop
    condition turning false when [rest] is empty). *)
Fixpoint hex2bin_loop (bin_maxlen : Z) (ignore : option (list byte))
    (rest : list byte) (v : hex2bin_vars) : hex2bin_vars :=
  match rest with
  | [] => v
  | ch :: rest' =>
      let c := Z_of_byte ch in
      if Z.lor (c_num0 c) (c_alpha0 c) =? 0 then
        match ignore with
        | Some ign =>
            if (v_state v =? 0) && strchr_found ign c
            then hex2bin_loop bin_maxlen ignore rest'
                   (MkVars (v_bin v) (v_bin_pos v) (v_hex_pos v + 1) (v_ret v)
                           (v_c_acc v) (v_state v) (v_errno v))
            else v
        | None => v
        end
      else if bin_maxlen <=? v_bin_pos v then
        MkVars (v_bin v) (v_bin_pos v) (v_hex_pos v) (-1)
               (v_c_acc v) (v_state v) (Some ERANGE)
      else if v_state v =? 0 then
        hex2bin_loop bin_maxlen ignore rest'
          (MkVars (v_bin v) (v_bin_pos v) (v_hex_pos v + 1) (v_ret v)
                  (uchar (c_val c * 16)) (uchar (Z.lnot (v_state v))) (v_errno v))
      else
        hex2bin_loop bin_maxlen ignore rest'
          (MkVars (<[Z.to_nat (v_bin_pos v) := byte_of_Z (Z.lor (v_c_acc v) (c_val c))]> (v_bin v))
                  (v_bin_pos v + 1) (v_hex_pos v + 1) (v_ret v)
                  (v_c_acc v) (uchar (Z.lnot (v_state v))) (v_errno v))
  end.

(** What a call of [hex2bin] leaves behind: the return value, the
    destination buffer, [*bin_len] and [*hex_end] (as an offset into [hex])
    when the pointers were not NULL, and [errno] when it was assigned. *)
Record hex2bin_result : Type := MkResult {
  ret : Z;
  bin_out : list byte;
  bin_len_out : option Z;
  hex_end_out : option Z;
  errno_out : option errno_t
}.

(** [hex2bin(bin, bin_maxlen, hex, hex_len, ignore, bin_len, hex_end)].
    [hex] is the memory [hex] points to: it holds at least [hex_len]
    characters, or ends with the NUL of a C string before (then the loop
    must leave at that NUL, which it does when [ignore] is NULL).
    [bin] is the content of the destination before the call, of at least
    [bin_maxlen] bytes, so that the list updates are in range.
    [want_bin_len] and [want_hex_end] say whether the out-pointers are
    non-NULL. The counters [hex_pos] and [bin_pos] stay below [hex_len]
    and [bin_maxlen] and cannot wrap around. *)
Definition hex2bin (bin : list byte) (bin_maxlen : Z) (hex : list byte) (hex_len : Z)
    (ignore : option (list byte)) (want_bin_len want_hex_end : bool) : hex2bin_result :=
  let v := hex2bin_loop bin_maxlen ignore (take (Z.to_nat hex_len) hex)
             (MkVars bin 0 0 0 0 0 None) in
  let '(hex_pos, ret, errno) :=
    if negb (v_state v =? 0) then (v_hex_pos v - 1, -1, Some EINVAL)
    else (v_hex_pos v, v_ret v, v_errno v) in
  let bin_pos := if negb (ret =? 0) then 0 else v_bin_pos v in
  let '(hex_end, ret, errno) :=
    if want_hex_end then (Some hex_pos, ret, errno)
    else if negb (hex_pos =? hex_len) then (None, -1, Some EINVAL)
    else (None, ret, errno) in
  MkResult ret (v_bin v) (if want_bin_len then Some bin_pos else None) hex_end errno.

(** The lowercase hexadecimal encoding, as a specification. *)
Definition hex_digit (n : Z) : byte :=
  nth (Z.to_nat n) (bytes_of_string "0123456789abcdef") x00.

Fixpoint hex_encoding (bin : list byte) : list byte :=
  match bin with
  | [] => []
  | b :: bin' =>
      hex_digit (Z_of_byte b / 16) :: hex_digit (Z_of_byte b mod 16) :: hex_encoding bin'
  end.

(** A hexadecimal digit character, either case. *)
Definition is_hex_char (ch : byte) : bool :=
  bool_decide (ch ∈ bytes_of_string "0123456789abcdefABCDEF").

(** The test [(c_num0 | c_alpha0) != 0U] of the loop. *)
Definition hex_test (ch : byte) : bool :=
  negb (Z.lor (c_num0 (Z_of_byte ch)) (c_alpha0 (Z_of_byte ch)) =? 0).

(** [scan ignore rest odd] follows the loop on the input alone, as if the
    destination were unbounded: it returns the number of hexadecimal digits
    and the number of characters taken before the loop leaves. [odd] tells
    that a high nibble is pending. *)
Fixpoint scan (ignore : option (list byte)) (rest : list byte) (odd : bool) : nat * nat :=
  match rest with
  | [] => (0, 0)%nat
  | ch :: rest' =>
      if is_hex_char ch then
        let '(d, n) := scan ignore rest' (negb odd) in (S d, S n)
      else if match ignore with
              | Some ign => negb odd && strchr_found ign (Z_of_byte ch)
              | None => false
              end
      then let '(d, n) := scan ignore rest' odd in (d, S n)
      else (0, 0)%nat
  end.

Definition pending (v : hex2bin_vars) : bool := negb (v_state v =? 0).
Definition digits_taken (v : hex2bin_vars) : Z :=
  2 * v_bin_pos v + (if pending v then 1 else 0).

Ltac vars_simpl :=
  repeat match goal with
  | |- context [pending (MkVars _ _ _ _ _ ?st _)] =>
      change (pending (MkVars _ _ _ _ _ st _)) with (negb (st =? 0))
  | H : context [pending (MkVars _ _ _ _ _ ?st _)] |- _ =>
      change (pending (MkVars _ _ _ _ _ st _)) with (negb (st =? 0)) in H
  | |- context [digits_taken (MkVars _ ?bp _ _ _ ?st _)] =>
      change (digits_taken (MkVars _ bp _ _ _ st _))
        with (2 * bp + (if negb (st =? 0) then 1 else 0))
  | H : context [digits_taken (MkVars _ ?bp _ _ _ ?st _)] |- _ =>
      change (digits_taken (MkVars _ bp _ _ _ st _))
        with (2 * bp + (if negb (st =? 0) then 1 else 0)) in H
  end;
  cbn [v_bin v_bin_pos v_hex_pos v_ret v_c_acc v_state v_errno fst snd length] in *.

End HexCodec.

(** ** Signer (Ed25519 verification) *)

(** Modelled from the spec: the size constants of mamba/core/validate.hpp,
    which is not among the sources. Public key 32 bytes (64 hexadecimal
    characters), signature 64 bytes (128 characters), SHA-256 digest 32
    bytes (64 characters). *)
Definition MAMBA_ED25519_KEYSIZE_BYTES : Z := 32.
Definition MAMBA_ED25519_KEYSIZE_HEX : Z := 64.
Definition MAMBA_ED25519_SIGSIZE_BYTES : Z := 64.
Definition MAMBA_ED25519_SIGSIZE_HEX : Z := 128.
Definition MAMBA_SHA256_SIZE_BYTES : Z := 32.
Definition MAMBA_SHA256_SIZE_HEX : Z := 64.

(** The OpenSSL entry points [verify] calls. [EVP_PKEY_new_raw_public_key]
    reads the key bytes and returns [None] for [nullptr];
    [EVP_DigestVerify key signature data] stands for the call on the
    context initialised with [key]. *)
Class Ed25519Lib : Type := {
  EVP_PKEY : Type;
  EVP_PKEY_new_raw_public_key : list byte → option EVP_PKEY;
  EVP_DigestVerifyInit : EVP_PKEY → Z;
  EVP_DigestVerify : EVP_PKEY → list byte → list byte → Z
}.

Module Signer.
Import HexCodec.

Section Verify.
Context `{Ed25519Lib}.

(** [verify(const unsigned char* data, size_t data_len, unsigned char* pk,
    unsigned char* signature)]. *)
Definition verify_raw (data : list byte) (data_len : Z) (pk signature : list byte) : Z :=
  let sig_len := MAMBA_ED25519_SIGSIZE_BYTES in
  match EVP_PKEY_new_raw_public_key (take (Z.to_nat MAMBA_ED25519_KEYSIZE_BYTES) pk) with
  | None => 0
  | Some ed_key =>
      let init_status := EVP_DigestVerifyInit ed_key in
      if negb (init_status =? 1) then init_status
      else
        let verif_status :=
          EVP_DigestVerify ed_key (take (Z.to_nat sig_len) signature)
                           (take (Z.to_nat data_len) data) in
        if negb (verif_status =? 1) then verif_status else 1
  end.

(** [verify(const std::string& data, unsigned char* pk, unsigned char*
    signature)]. *)
Definition verify_data (data : string) (pk signature : list byte) : Z :=
  let data_len := Z.of_nat (String.length data) in
  let raw_data := c_str data in
  verify_raw raw_data data_len pk signature.

(** [verify(const std::string& data, const std::string& pk, const
    std::string& signature)]. The arrays [bin_signature] and [bin_pk] are
    not initialised by the source: the first two arguments are what they
    hold when the function is entered. *)
Definition verify (bin_signature bin_pk : list byte) (data pk signature : string)
  : result Z :=
  let r1 := hex2bin bin_signature MAMBA_ED25519_SIGSIZE_BYTES
              (c_str signature) MAMBA_ED25519_SIGSIZE_HEX None false false in
  let r2 := hex2bin bin_pk MAMBA_ED25519_KEYSIZE_BYTES
              (c_str pk) MAMBA_ED25519_KEYSIZE_HEX None false false in
  if negb (ret r1 =? 0) || negb (ret r2 =? 0) then Err runtime_error
  else Ok (verify_data data (bin_out r2) (bin_out r1)).

(** [verify_gpg_hashed_msg(const std::string& data, unsigned char* pk,
    unsigned char* signature)]; [msg_bin] is the initial content of the
    local array. The value returned by [hex2bin] is dropped. *)
Definition verify_gpg_hashed_msg_raw (msg_bin : list byte) (data : string)
    (pk signature : list byte) : result Z :=
  let r := hex2bin msg_bin MAMBA_SHA256_SIZE_BYTES
             (c_str data) MAMBA_SHA256_SIZE_HEX None false false in
  Ok (verify_raw (bin_out r) MAMBA_SHA256_SIZE_BYTES pk signature).

(** [verify_gpg_hashed_msg(const std::string& data, const std::string& pk,
    const std::string& signature)]. *)
Definition verify_gpg_hashed_msg (msg_bin bin_signature bin_pk : list byte)
    (data pk signature : string) : result Z :=
  let r1 := hex2bin bin_signature MAMBA_ED25519_SIGSIZE_BYTES
              (c_str signature) MAMBA_ED25519_SIGSIZE_HEX None false false in
  let r2 := hex2bin bin_pk MAMBA_ED25519_KEYSIZE_BYTES
              (c_str pk) MAMBA_ED25519_KEYSIZE_HEX None false false in
  verify_gpg_hashed_msg_raw msg_bin data (bin_out r2) (bin_out r1).

End Verify.

(** A string is hex-decodable to [n] characters when its first [n]
    characters exist and are hexadecimal digits. *)
Definition hex_decodable (n : Z) (s : string) : bool :=
  (n <=? Z.of_nat (String.length s))
  && forallb is_hex_char (take (Z.to_nat n) (bytes_of_string s)).

End Signer.

(** ** JSON documents

    The document type of the JSON library. An object is a
    [std::map<std::string, json>], hence a [gmap]. [JNum] stands for the
    integer numbers ([number_integer] and [number_unsigned]); documents
    with floating-point numbers are outside the model. Every failure of
    the library is the exception [json_exception]. *)

Inductive json : Type :=
  | JNull
  | JBool (b : bool)
  | JNum (n : Z)
  | JStr (s : string)
  | JArr (l : list json)
  | JObj (m : gmap string json).

Module Json.

(** [j.at(key)]. *)
Definition at_ (j : json) (key : string) : result json :=
  match j with
  | JObj m => match m !! key with Some v => Ok v | None => Err json_exception end
  | _ => Err json_exception
  end.

(** [j.get<std::string>()]. *)
Definition get_string (j : json) : result string :=
  match j with JStr s => Ok s | _ => Err json_exception end.

(** [j.get<std::size_t>()]: a negative integer is converted by
    [static_cast]. *)
Definition get_size_t (j : json) : result Z :=
  match j with JNum n => Ok (size_t_wrap n) | _ => Err json_exception end.

(** Reads every value of a map with [f]; [e] is thrown when one of the
    reads throws. *)
Definition map_traverse {A B} (e : exn) (f : A → result B) (m : gmap string A)
  : result (gmap string B) :=
  if bool_decide (map_Forall (λ _ a, is_Ok (f a) = true) m)
  then Ok (omap (λ a, to_option (f a)) m)
  else Err e.

(** [j.get<std::vector<T>>()], with [f] the [from_json] of [T]. *)
Definition get_vector {A} (f : json → result A) (j : json) : result (list A) :=
  match j with JArr l => mapM f l | _ => Err json_exception end.

(** [j.get<std::map<std::string, T>>()], with [f] the [from_json] of [T]. *)
Definition get_map {A} (f : json → result A) (j : json) : result (gmap string A) :=
  match j with JObj m => map_traverse json_exception f m | _ => Err json_exception end.

(** [try { ... } catch (const json::exception&) { throw role_metadata_error(); }] *)
Definition catch_json {A} (body : result A) : result A :=
  match body with
  | Err json_exception => Err role_metadata_error
  | r => r
  end.

(** [json j = v] for a vector of strings and for a map. *)
Definition of_strings (l : list string) : json := JArr (JStr <$> l).
Definition of_map {A} (f : A → json) (m : gmap string A) : json := JObj (f <$> m).

End Json.

(** Modelled from the spec: [mamba::starts_with] of mamba/core/util.hpp,
    which is not among the sources; the spec words the tests as
    "[spec_version] must start with ["1."]". *)
Definition starts_with (s prefix : string) : bool := String.prefix prefix s.

(** ** Data model

    The structures of mamba/core/validate.hpp, with the field names the
    source file uses on them. *)

Module Key.
Record t : Type := mk { keytype : string; scheme : string; keyval : string }.

(** Modelled from the spec: [Key::from_ed25519], defined in the header,
    which is not among the sources: "for v0.6, synthesized from a
    public-key hex with keytype="ed25519", scheme="ed25519"". *)
Definition from_ed25519 (keyval : string) : t := mk "ed25519" "ed25519" keyval.

Definition to_json (key : t) : json :=
  JObj (<["keytype" := JStr (keytype key)]>
        (<["scheme" := JStr (scheme key)]>
        (<["keyval" := JStr (keyval key)]> ∅))).

Definition from_json (j : json) : result t :=
  kt ← Json.at_ j "keytype" ≫= Json.get_string;
  sc ← Json.at_ j "scheme" ≫= Json.get_string;
  kv ← Json.at_ j "keyval" ≫= Json.get_string;
  Ok (mk kt sc kv).
End Key.

Module RoleKeys.
Record t : Type := mk { keyids : list string; threshold : Z }.

Definition to_json (role_keys : t) : json :=
  JObj (<["keyids" := Json.of_strings (keyids role_keys)]>
        (<["threshold" := JNum (threshold role_keys)]> ∅)).

Definition from_json (j : json) : result t :=
  ids ← Json.at_ j "keyids" ≫= Json.get_vector Json.get_string;
  th ← Json.at_ j "threshold" ≫= Json.get_size_t;
  Ok (mk ids th).
End RoleKeys.

Module RolePubKeys.
Record t : Type := mk { pubkeys : list string; threshold : Z }.

Definition to_role_keys (r : t) : RoleKeys.t := RoleKeys.mk (pubkeys r) (threshold r).

Definition to_json (role_keys : t) : json :=
  JObj (<["pubkeys" := Json.of_strings (pubkeys role_keys)]>
        (<["threshold" := JNum (threshold role_keys)]> ∅)).

Definition from_json (j : json) : result t :=
  pks ← Json.at_ j "pubkeys" ≫= Json.get_vector Json.get_string;
  th ← Json.at_ j "threshold" ≫= Json.get_size_t;
  Ok (mk pks th).
End RolePubKeys.

Module RoleFullKeys.
Record t : Type := mk { keys : gmap string Key.t; threshold : Z }.
End RoleFullKeys.

Module RoleSignature.
Record t : Type := mk { keyid : string; sig : string }.

Definition to_json (role_sig : t) : json :=
  JObj (<["keyid" := JStr (keyid role_sig)]> (<["sig" := JStr (sig role_sig)]> ∅)).

Definition from_json (j : json) : result t :=
  k ← Json.at_ j "keyid" ≫= Json.get_string;
  s ← Json.at_ j "sig" ≫= Json.get_string;
  Ok (mk k s).

(** [operator<]: signatures are compared by [keyid] alone, with the
    order of [std::string]. *)
Definition lt (rs1 rs2 : t) : Prop := String.compare (keyid rs1) (keyid rs2) = Lt.
End RoleSignature.

(** [std::set<RoleSignature>]: the elements in iteration order, that is
  increasing for [operator<]. *)
Module SigSet.
Definition t : Type := list RoleSignature.t.

(** [insert]: nothing happens when an equivalent element (same [keyid])
    is present. *)
Fixpoint insert (x : RoleSignature.t) (s : t) : t :=
  match s with
  | [] => [x]
  | y :: s' =>
      match String.compare (RoleSignature.keyid x) (RoleSignature.keyid y) with
      | Lt => x :: y :: s'
      | Eq => y :: s'
      | Gt => y :: insert x s'
      end
  end.

(** The range constructor [std::set<RoleSignature>(first, last)]. *)
Definition of_vector (sigs : list RoleSignature.t) : t :=
  fold_left (λ s x, insert x s) sigs [].
End SigSet.

(** Modelled from the spec: the enumeration [Role] and its JSON
    conversion are declared in the header, which is not among the
    sources: "the recognized role set is {root, targets, snapshot,
    timestamp, mirrors}"; any other name converts to [kInvalid]. *)
Inductive Role : Type := kInvalid | kRoot | kSnapshot | kTargets | kTimestamp | kMirrors.

Definition Role_of_json (name : string) : Role :=
  if String.eqb name "root" then kRoot
  else if String.eqb name "snapshot" then kSnapshot
  else if String.eqb name "targets" then kTargets
  else if String.eqb name "timestamp" then kTimestamp
  else if String.eqb name "mirrors" then kMirrors
  else kInvalid.

Definition is_kInvalid (r : Role) : bool :=
  match r with kInvalid => true | _ => false end.

(** Modelled from the spec: the enumeration [SpecVersion] of the header,
    "tagged variant {V06, V1}". *)
Inductive SpecVersion : Type := kV06 | kV1.

(** ** RoleBase *)

Record RoleBase : Type := MkRoleBase {
  m_type : string;
  m_spec_version : string;
  m_version : Z;
  m_ext : string
}.

(** Modelled from the spec: the constructor [RoleBase(type, spec_version)]
    of the header: [version] starts at 1 and [ext] is ["json"]. *)
Definition RoleBase_new (type spec_version : string) : RoleBase :=
  MkRoleBase type spec_version 1 "json".

Definition set_spec_version (version : string) (b : RoleBase) : RoleBase :=
  MkRoleBase (m_type b) version (m_version b) (m_ext b).

Definition set_version (version : Z) (b : RoleBase) : RoleBase :=
  MkRoleBase (m_type b) (m_spec_version b) version (m_ext b).

(** [from_json(const json& j, RoleBase* role)]. *)
Definition RoleBase_from_json (j : json) (role : RoleBase) : result RoleBase :=
  v ← Json.at_ j "version" ≫= Json.get_size_t;
  Ok (set_version v role).

(** [RootRoleBase(spec_version)]. *)
Definition RootRoleBase_new (spec_version : string) : RoleBase :=
  RoleBase_new "root" spec_version.

(** [role_keys.insert({ id, key })] in a loop over [ids], where [key id]
    may throw; an id already present is left alone. *)
Definition collect_keys (key : string → result Key.t) (ids : list string)
  : result (gmap string Key.t) :=
  foldl (λ acc id,
           role_keys ← acc;
           k ← key id;
           Ok (match role_keys !! id with
               | Some _ => role_keys
               | None => <[id := k]> role_keys
               end))
        (Ok ∅) ids.

(** ** RootRole, dialect v1 *)

Module v1.

Record RootRole : Type := MkRootRole {
  base : RoleBase;
  m_keys : gmap string Key.t;
  m_roles : gmap string RoleKeys.t
}.

(** [RootRole()]. *)
Definition RootRole_new : RootRole := MkRootRole (RootRoleBase_new "1.0.17") ∅ ∅.

Definition is_spec_version_compatible (j : json) : bool :=
  match (Json.at_ j "signed" ≫= λ js, Json.at_ js "spec_version" ≫= Json.get_string) with
  | Ok spec_version => starts_with spec_version "1."
  | Err _ => false
  end.

Definition roles (r : RootRole) : gset string := dom (m_roles r).

Definition signatures (j : json) : result SigSet.t :=
  sigs ← Json.at_ j "signatures" ≫= Json.get_vector RoleSignature.from_json;
  Ok (SigSet.of_vector sigs).

(** [m_keys.at(keyid)]. *)
Definition key_at (keys : gmap string Key.t) (keyid : string) : result Key.t :=
  match keys !! keyid with Some k => Ok k | None => Err out_of_range end.

Definition keys (r : RootRole) : result (gmap string RoleFullKeys.t) :=
  Json.map_traverse out_of_range
    (λ rk : RoleKeys.t,
       role_keys ← collect_keys (key_at (m_keys r)) (RoleKeys.keyids rk);
       Ok (RoleFullKeys.mk role_keys (RoleKeys.threshold rk)))
    (m_roles r).

Definition mandatory_roles : gset string :=
  {[ "root"; "snapshot"; "targets"; "timestamp" ]}.

(** The checks of one entry of [m_roles], in the last loop of [from_json]. *)
Definition role_keys_ok (m_keys : gmap string Key.t) (r_keys : RoleKeys.t) : bool :=
  negb (bool_decide (RoleKeys.keyids r_keys = []))
  && negb (RoleKeys.threshold r_keys =? 0)
  && forallb (λ rk, bool_decide (is_Some (m_keys !! rk))) (RoleKeys.keyids r_keys).

(** The [try] block of [from_json], without its [catch]. *)
Definition from_json_try (j j_signed : json) (role : RootRole) : result RootRole :=
  b ← RoleBase_from_json j_signed (base role);
  type ← Json.at_ j_signed "_type" ≫= Json.get_string;
  if negb (String.eqb type (m_type b)) then Err role_metadata_error
  else
    sv ← Json.at_ j_signed "spec_version" ≫= Json.get_string;
    let b := set_spec_version sv b in
    if negb (is_spec_version_compatible j) then Err role_metadata_error
    else
      ks ← Json.at_ j_signed "keys" ≫= Json.get_map Key.from_json;
      rs ← Json.at_ j_signed "roles" ≫= Json.get_map RoleKeys.from_json;
      Ok (MkRootRole b ks rs).

(** [from_json(const json& j, RootRole& role)]: the result is [role] after
    the call. *)
Definition from_json (j : json) (role : RootRole) : result RootRole :=
  j_signed ← Json.at_ j "signed";
  role ← Json.catch_json (from_json_try j j_signed role);
  if negb (bool_decide (map_Forall (λ name _, is_kInvalid (Role_of_json name) = false)
                                    (m_roles role)))
  then Err role_metadata_error
  else
    let current_roles := dom (m_roles role) in
    if negb (bool_decide (mandatory_roles ⊆ current_roles))
    then Err role_metadata_error
    else if negb (bool_decide (map_Forall (λ _ r_keys, role_keys_ok (m_keys role) r_keys = true)
                                          (m_roles role)))
    then Err role_metadata_error
    else Ok role.

End v1.

(** ** RootRole, dialect v0.6 *)

Module v06.

Record RootRole : Type := MkRootRole {
  base : RoleBase;
  m_delegations : gmap string RolePubKeys.t
}.

(** [RootRole()]. *)
Definition RootRole_new : RootRole := MkRootRole (RootRoleBase_new "0.6.0") ∅.

Definition is_spec_version_compatible (j : json) : bool :=
  match (Json.at_ j "signed" ≫= λ js,
         Json.at_ js "metadata_spec_version" ≫= Json.get_string) with
  | Ok spec_version => starts_with spec_version "0.6."
  | Err _ => false
  end.

Definition roles (r : RootRole) : gset string := dom (m_delegations r).

(** [s.second.at("signature")] on a [std::map<std::string, std::string>]. *)
Definition signature_at (fields : gmap string string) : result string :=
  match fields !! "signature" with Some s => Ok s | None => Err out_of_range end.

Definition signatures (j : json) : result SigSet.t :=
  sigs ← Json.at_ j "signatures" ≫= Json.get_map (Json.get_map Json.get_string);
  per_key ← Json.map_traverse out_of_range signature_at sigs;
  Ok (SigSet.of_vector ((λ '(k, s), RoleSignature.mk k s) <$> map_to_list per_key)).

Definition keys (r : RootRole) : result (gmap string RoleFullKeys.t) :=
  Json.map_traverse out_of_range
    (λ d : RolePubKeys.t,
       role_keys ← collect_keys (λ key, Ok (Key.from_ed25519 key)) (RolePubKeys.pubkeys d);
       Ok (RoleFullKeys.mk role_keys (RolePubKeys.threshold d)))
    (m_delegations r).

(** [m_delegations.at(name)] and [allkeys.at(name)]. *)
Definition map_at {A} (m : gmap string A) (name : string) : result A :=
  match m !! name with Some a => Ok a | None => Err out_of_range end.

Definition upgraded_signable (r : RootRole) : result json :=
  d_root ← map_at (m_delegations r) "root";
  d_key_mgr ← map_at (m_delegations r) "key_mgr";
  let roles_json :=
    JObj (<["root" := RoleKeys.to_json (RolePubKeys.to_role_keys d_root)]>
          (<["targets" := RoleKeys.to_json (RolePubKeys.to_role_keys d_key_mgr)]>
          (<["snapshot" := RoleKeys.to_json (RoleKeys.mk [] 1)]>
          (<["timestamp" := RoleKeys.to_json (RoleKeys.mk [] 1)]> ∅)))) in
  allkeys ← keys r;
  k_root ← map_at allkeys "root";
  k_key_mgr ← map_at allkeys "key_mgr";
  let v1_keys := RoleFullKeys.keys k_root ∪ RoleFullKeys.keys k_key_mgr in
  Ok (JObj (<["roles" := roles_json]>
            (<["keys" := Json.of_map Key.to_json v1_keys]>
            (<["_type" := JStr "root"]>
            (<["version" := JNum (m_version (base r))]>
            (<["spec_version" := JStr "1.0.17"]> ∅)))))).

Definition mandatory_roles : gset string := {[ "root"; "key_mgr" ]}.

(** The checks of one entry of [m_delegations] in the loop of [from_json]. *)
Definition delegation_ok (r_keys : RolePubKeys.t) : bool :=
  negb (bool_decide (RolePubKeys.pubkeys r_keys = []))
  && negb (RolePubKeys.threshold r_keys =? 0).

(** The [try] block of [from_json], without its [catch]. *)
Definition from_json_try (j j_signed : json) (role : RootRole) : result RootRole :=
  b ← RoleBase_from_json j_signed (base role);
  type ← Json.at_ j_signed "type" ≫= Json.get_string;
  if negb (String.eqb type (m_type b)) then Err role_metadata_error
  else
    sv ← Json.at_ j_signed "metadata_spec_version" ≫= Json.get_string;
    let b := set_spec_version sv b in
    if negb (is_spec_version_compatible j) then Err role_metadata_error
    else
      ds ← Json.at_ j_signed "delegations" ≫= Json.get_map RolePubKeys.from_json;
      Ok (MkRootRole b ds).

(** [from_json(const json& j, RootRole& role)]. *)
Definition from_json (j : json) (role : RootRole) : result RootRole :=
  j_signed ← Json.at_ j "signed";
  role ← Json.catch_json (from_json_try j j_signed role);
  if negb (bool_decide (map_Forall (λ _ r_keys, delegation_ok r_keys = true)
                                    (m_delegations role)))
  then Err role_metadata_error
  else
    let current_roles := dom (m_delegations role) in
    if negb (bool_decide (mandatory_roles = current_roles))
    then Err role_metadata_error
    else Ok role.

End v06.

(** ** RootRoleBase: the operations shared by the two dialects *)

(** A root role of either dialect: what a [RootRoleBase&] refers to. *)
Inductive RootRole : Type :=
  | V1 (r : v1.RootRole)
  | V06 (r : v06.RootRole).

Definition base (role : RootRole) : RoleBase :=
  match role with V1 r => v1.base r | V06 r => v06.base r end.

Definition type (role : RootRole) : string := m_type (base role).
Definition spec_version (role : RootRole) : string := m_spec_version (base role).
Definition version (role : RootRole) : Z := m_version (base role).
Definition file_ext (role : RootRole) : string := m_ext (base role).

(** The virtual functions [signatures] and [keys]. *)
Definition signatures (role : RootRole) (j : json) : result SigSet.t :=
  match role with V1 _ => v1.signatures j | V06 _ => v06.signatures j end.

Definition keys (role : RootRole) : result (gmap string RoleFullKeys.t) :=
  match role with V1 r => v1.keys r | V06 r => v06.keys r end.

(** *** File names *)

Fixpoint split_char (sep : ascii) (s : string) : list string :=
  match s with
  | EmptyString => [EmptyString]
  | String c s' =>
      match split_char sep s' with
      | [] => [String c EmptyString]
      | w :: ws =>
          if Ascii.eqb c sep then EmptyString :: w :: ws else String c w :: ws
      end
  end.

(** [p.filename().string()]. *)
Definition filename (p : string) : string := List.last (split_char "/" p) EmptyString.

Definition is_digit (c : ascii) : bool := (("0" <=? c) && (c <=? "9"))%char.
Definition is_word_char (c : ascii) : bool :=
  (is_digit c || (("a" <=? c) && (c <=? "z")) || (("A" <=? c) && (c <=? "Z"))
   || (c =? "_"))%char.

Definition all_chars (p : ascii → bool) (s : string) : bool :=
  forallb p (list_ascii_of_string s).

(** The group [[1-9]+\d*]. *)
Definition is_version_number (s : string) : bool :=
  match s with
  | EmptyString => false
  | String c s' => (("1" <=? c) && (c <=? "9"))%char && all_chars is_digit s'
  end.

(** The group [\w+]. *)
Definition is_word (s : string) : bool :=
  negb (String.eqb s EmptyString) && all_chars is_word_char s.

(** The two regular expressions of [read_file] accept the same names,
    [^[1-9]+\d*\.\w+\.(\w+)\.(\w+)$], and differ by the capture of the
    leading number. As [\w] excludes the dot, a name matches when it has
    exactly four dot-separated parts of the right shape. The result is
    (version string, type, extension). *)
Definition match_name (f_name : string) : option (string * string * string) :=
  match split_char "." f_name with
  | [v; label; ty; ext] =>
      if is_version_number v && is_word label && is_word ty && is_word ext
      then Some (v, ty, ext) else None
  | _ => None
  end.

(** [std::stoul] on a string of decimal digits: the value, or [None] when
    it does not fit ([std::out_of_range]). *)
Definition stoul (s : string) : option Z :=
  let v := fold_left (λ acc c, 10 * acc + (Z.of_nat (nat_of_ascii c) - 48))
                     (list_ascii_of_string s) 0 in
  if v <=? SIZE_MAX then Some v else None.

(** *** Signature checks, update, and the trust store *)

Section Trust.
Context `{Ed25519Lib}.
(** [json::dump()], the compact serialisation of the library. *)
Variable dump : json → string.
(** What the two local arrays of [verify] hold when it is entered. *)
Variables bin_signature bin_pk : list byte.
(** The file system: [fs::exists(p)], and [std::ifstream i(p); i >> j]. *)
Variable fs_exists : string → bool.
Variable fs_read : string → result json.

(** The [for] loop of [check_signatures] over the remaining signatures;
    returning without a recursive call is [break]. *)
Fixpoint check_signatures_loop (signed_data : string) (keyring : RoleFullKeys.t)
    (signatures : list RoleSignature.t) (valid_sig : Z) : result Z :=
  match signatures with
  | [] => Ok valid_sig
  | s :: rest =>
      valid_sig ←
        match RoleFullKeys.keys keyring !! RoleSignature.keyid s with
        | Some key =>
            let pk := Key.keyval key in
            r ← Signer.verify bin_signature bin_pk signed_data pk (RoleSignature.sig s);
            Ok (if r =? 1 then size_t_wrap (valid_sig + 1) else valid_sig)
        | None => Ok valid_sig
        end;
      if RoleFullKeys.threshold keyring <=? valid_sig then Ok valid_sig
      else check_signatures_loop signed_data keyring rest valid_sig
  end.

Definition check_signatures (signed_data : string) (signatures : SigSet.t)
    (keyring : RoleFullKeys.t) : result unit :=
  valid_sig ← check_signatures_loop signed_data keyring signatures 0;
  if valid_sig <? RoleFullKeys.threshold keyring then Err threshold_error
  else Ok tt.

(** [this->check_role_signatures(data, role)]. [data["signed"]] is read
    with [at]: every caller has parsed ["signed"] before. *)
Definition check_role_signatures (this : RootRole) (data : json) (role : RootRole)
  : result unit :=
  signed ← Json.at_ data "signed";
  let signed_data := dump signed in
  signatures ← signatures role data;
  k ← keys this;
  root_keys ← v06.map_at k "root";
  check_signatures signed_data signatures root_keys.

(** [v1::RootRole::load_from_json] on a fresh role, that is the
    constructor [v1::RootRole(const json&)]. *)
Definition v1_RootRole (j : json) : result v1.RootRole :=
  role ← v1.from_json j v1.RootRole_new;
  check_role_signatures (V1 role) j (V1 role);;
  Ok role.

(** The constructor [v06::RootRole(const json&)]. *)
Definition v06_RootRole (j : json) : result v06.RootRole :=
  role ← v06.from_json j v06.RootRole_new;
  check_role_signatures (V06 role) j (V06 role);;
  Ok role.

(** [RoleBase::read_file(p, update)]. *)
Definition read_file (this : RootRole) (p : string) (update : bool) : result json :=
  if negb (fs_exists p) then Err role_file_error
  else
    match match_name (filename p) with
    | None => Err role_file_error
    | Some (f_version_str, f_type, f_ext) =>
        if negb (String.eqb f_ext (file_ext this)) then Err role_file_error
        else if negb (String.eqb f_type (type this)) then Err role_file_error
        else if update then
          match stoul f_version_str with
          | None => Err role_file_error
          | Some f_version =>
              if negb (f_version =? size_t_wrap (version this + 1))
              then Err role_file_error
              else fs_read p
          end
        else fs_read p
    end.

(** The constructor [v1::RootRole(const fs::path&)]. *)
Definition v1_RootRole_path (path : string) : result v1.RootRole :=
  j ← read_file (V1 v1.RootRole_new) path false;
  role ← v1.from_json j v1.RootRole_new;
  check_role_signatures (V1 role) j (V1 role);;
  Ok role.

(** The constructor [v06::RootRole(const fs::path&)]. *)
Definition v06_RootRole_path (path : string) : result v06.RootRole :=
  j ← read_file (V06 v06.RootRole_new) path false;
  role ← v06.from_json j v06.RootRole_new;
  check_role_signatures (V06 role) j (V06 role);;
  Ok role.

(** The virtual function [create_update]. *)
Definition create_update (this : RootRole) (j : json) : result RootRole :=
  match this with
  | V1 _ =>
      if v1.is_spec_version_compatible j then V1 <$> v1_RootRole j
      else Err spec_version_error
  | V06 _ =>
      if v06.is_spec_version_compatible j then V06 <$> v06_RootRole j
      else if v1.is_spec_version_compatible j then V1 <$> v1_RootRole j
      else Err spec_version_error
  end.

(** [RootRoleBase::update(json j)]. *)
Definition update (this : RootRole) (j : json) : result RootRole :=
  root_update ← create_update this j;
  check_role_signatures this j root_update;;
  if negb (version root_update =? size_t_wrap (version this + 1)) then
    if size_t_wrap (version this + 1) <? version root_update
    then Err role_metadata_error
    else Err rollback_error
  else Ok root_update.

(** [RootRoleBase::update(fs::path path)]. *)
Definition update_path (this : RootRole) (path : string) : result RootRole :=
  j ← read_file this path true;
  update this j.

(** [RepoTrust]: the trust store. *)
Record RepoTrust : Type := MkRepoTrust {
  m_base_url : string;
  p_root : RootRole
}.

(** The constructor of [RepoTrust]. The final [else] of the source is not
    reached by an enumerator of [SpecVersion]. *)
Definition RepoTrust_new (url : string) (local_trusted_root : string)
    (spec_version : SpecVersion) : result RepoTrust :=
  match spec_version with
  | kV06 => r ← v1_RootRole_path local_trusted_root; Ok (MkRepoTrust url (V1 r))
  | kV1 => r ← v1_RootRole_path local_trusted_root; Ok (MkRepoTrust url (V1 r))
  end.

End Trust.

(** ** Signer (Ed25519 signature) *)

(** The OpenSSL entry points [sign] calls. [EVP_PKEY_new_raw_private_key]
    reads the key bytes and returns [None] for [nullptr];
    [EVP_DigestSign key msg] stands for the call on the context
    initialised with [key]: it gives the status and the bytes the library
    writes at the start of the signature buffer, of which at most
    [*siglen] are stored. *)
Class Ed25519SignLib : Type := {
  EVP_PKEY_private : Type;
  EVP_PKEY_new_raw_private_key : list byte → option EVP_PKEY_private;
  EVP_DigestSignInit : EVP_PKEY_private → Z;
  EVP_DigestSign : EVP_PKEY_private → list byte → Z * list byte
}.

Module Signing.

(** The buffer [buf] after the library has stored [written] at its start,
    limited to [maxlen] bytes. *)
Definition write_at_start (maxlen : Z) (written buf : list byte) : list byte :=
  let w := take (Z.to_nat maxlen) written in
  w ++ drop (length w) buf.

Section Sign.
Context `{Ed25519SignLib}.

(** [sign(const std::string& data, const unsigned char* sk, unsigned char*
    signature)]: the value returned and the content of [signature] after
    the call. *)
Definition sign (data : string) (sk signature : list byte) : Z * list byte :=
  let msg_len := Z.of_nat (String.length data) in
  let sig_len := MAMBA_ED25519_SIGSIZE_BYTES in
  let msg := c_str data in
  match EVP_PKEY_new_raw_private_key (take (Z.to_nat MAMBA_ED25519_KEYSIZE_BYTES) sk) with
  | None => (0, signature)
  | Some ed_key =>
      let init_status := EVP_DigestSignInit ed_key in
      if negb (init_status =? 1) then (init_status, signature)
      else
        let '(sign_status, written) :=
          EVP_DigestSign ed_key (take (Z.to_nat msg_len) msg) in
        let signature := write_at_start sig_len written signature in
        if negb (sign_status =? 1) then (sign_status, signature) else (1, signature)
  end.

End Sign.
End Signing.

Section UpgradedSignature.
Context `{Ed25519SignLib}.
(** [json::dump()] with what it throws: the text of the document, or the
    exception of the JSON library ([type_error], 316) for a document that
    holds a string which is not valid UTF-8. *)
Variable dump : json → result string.
(** What the local arrays [sig_hex] and [sig_bin] hold when the function
    is entered. *)
Variables sig_hex sig_bin : list byte.

(** [v06::RootRole::upgraded_signature(j, pk, sk)]; the function reads no
    member of the role. The argument [j.dump()] is evaluated before [sign]
    is entered; the value returned by [sign] is dropped. *)
Definition v06_upgraded_signature (j : json) (pk : string) (sk : list byte)
  : result RoleSignature.t :=
  data ← dump j;
  let sig_bin := snd (Signing.sign data sk sig_bin) in
  sig_hex ← HexCodec.bin2hex sig_hex MAMBA_ED25519_SIGSIZE_HEX
              sig_bin MAMBA_ED25519_SIGSIZE_BYTES;
  Ok (RoleSignature.mk pk
        (string_of_list_byte (take (Z.to_nat MAMBA_ED25519_SIGSIZE_HEX) sig_hex))).

End UpgradedSignature.

(** ** Serialisation of a role *)

(** [to_json(json& j, const RoleBase* role)]. *)
Definition RoleBase_to_json (role : RoleBase) : json :=
  JObj (<["version" := JNum (m_version role)]> ∅).

(** [v1::to_json(json& j, const RootRole& r)] and its v0.6 counterpart. *)
Definition v1_to_json (r : v1.RootRole) : json := RoleBase_to_json (v1.base r).
Definition v06_to_json (r : v06.RootRole) : json := RoleBase_to_json (v06.base r).

(** ** The major component of a spec version *)

(** Modelled from the spec: [mamba::split(s, ".", 1)[0]] of
    mamba/core/util.hpp, which is not among the sources: the part of [s]
    before its first dot, the "leading integer" of a version. *)
Definition leading_component (s : string) : string :=
  List.hd EmptyString (split_char "." s).

(** The exceptions of [std::stoi]: [std::invalid_argument] and
    [std::out_of_range]. *)
Inductive stoi_error : Type := stoi_invalid_argument | stoi_out_of_range.

Definition INT_MAX : Z := 2 ^ 31 - 1.
Definition INT_MIN : Z := - 2 ^ 31.

(** [isspace] in the "C" locale. *)
Definition is_space (c : ascii) : bool :=
  let n := nat_of_ascii c in
  (n =? 32)%nat || ((9 <=? n)%nat && (n <=? 13)%nat).

Fixpoint skip_spaces (l : list ascii) : list ascii :=
  match l with
  | c :: l' => if is_space c then skip_spaces l' else l
  | [] => []
  end.

Fixpoint leading_digits (l : list ascii) : list ascii :=
  match l with
  | c :: l' => if is_digit c then c :: leading_digits l' else []
  | [] => []
  end.

(** [std::stoi(s)]: leading white space is skipped, a sign is read, then
    the longest run of decimal digits; what follows is ignored. *)
Definition stoi (s : string) : stoi_error + Z :=
  let l := skip_spaces (list_ascii_of_string s) in
  let '(negative, l) :=
    match l with
    | c :: l' =>
        if Ascii.eqb c "-" then (true, l')
        else if Ascii.eqb c "+" then (false, l')
        else (false, l)
    | [] => (false, l)
    end in
  match leading_digits l with
  | [] => inl stoi_invalid_argument
  | ds =>
      let v := fold_left (λ acc c, 10 * acc + (Z.of_nat (nat_of_ascii c) - 48)) ds 0 in
      let v := if negative then - v else v in
      if (INT_MIN <=? v) && (v <=? INT_MAX) then inr v else inl stoi_out_of_range
  end.

(** [RoleBase::is_spec_version_compatible(version)]. *)
Definition RoleBase_is_spec_version_compatible (role : RoleBase) (version : string)
  : stoi_error + bool :=
  match stoi (leading_component (m_spec_version role)) with
  | inl e => inl e
  | inr spec_version_major =>
      match stoi (leading_component version) with
      | inl e => inl e
      | inr new_spec_version_major => inr (new_spec_version_major =? spec_version_major)
      end
  end.

(** [RoleBase::major_spec_version()]. *)
Definition major_spec_version (role : RoleBase) : stoi_error + result SpecVersion :=
  match stoi (leading_component (m_spec_version role)) with
  | inl e => inl e
  | inr spec_version_major =>
      if spec_version_major =? 0 then inr (Ok kV06)
      else if spec_version_major =? 1 then inr (Ok kV1)
      else inr (Err role_metadata_error)
  end.

(** ** Notions used to state the properties *)

Section CheckSignaturesSpec.
Context `{Ed25519Lib}.
Variables bin_signature bin_pk : list byte.
Variable signed_data : string.
Variable keyring : RoleFullKeys.t.

(** What [verify] answers for a signature whose [keyid] is in the
    keyring; [None] for an unknown [keyid]. *)
Definition verdict (s : RoleSignature.t) : option (result Z) :=
  match RoleFullKeys.keys keyring !! RoleSignature.keyid s with
  | Some key =>
      Some (Signer.verify bin_signature bin_pk signed_data (Key.keyval key)
              (RoleSignature.sig s))
  | None => None
  end.

(** The signature is known to the keyring and verifies. *)
Definition is_valid (s : RoleSignature.t) : bool :=
  match verdict s with Some (Ok r) => r =? 1 | _ => false end.

(** The [keyid] is known and the key or the signature is not hexadecimal
    of the right length: [verify] throws. *)
Definition conversion_fails (s : RoleSignature.t) : bool :=
  match verdict s with Some (Err _) => true | _ => false end.

Definition is_known (s : RoleSignature.t) : bool :=
  bool_decide (is_Some (RoleFullKeys.keys keyring !! RoleSignature.keyid s)).

Definition valid_count (sigs : list RoleSignature.t) : Z :=
  Z.of_nat (length (List.filter is_valid sigs)).

End CheckSignaturesSpec.

(** The member [field] of the ["signed"] object of [j] is a string that
    starts with [prefix]. *)
Definition signed_field_starts_with (j : json) (field prefix : string) : Prop :=
  ∃ m ms s, j = JObj m ∧ m !! "signed" = Some (JObj ms) ∧
            ms !! field = Some (JStr s) ∧ String.prefix prefix s = true.

(** What a v1 root document [j] and the role read from it satisfy: the
    conditions of the v1 schema. *)
Definition v1_schema (j : json) (role : v1.RootRole) : Prop :=
  ∃ j_signed,
    Json.at_ j "signed" = Ok j_signed ∧
    (Json.at_ j_signed "_type" ≫= Json.get_string) = Ok "root"%string ∧
    (Json.at_ j_signed "spec_version" ≫= Json.get_string)
      = Ok (m_spec_version (v1.base role)) ∧
    String.prefix "1." (m_spec_version (v1.base role)) = true ∧
    (Json.at_ j_signed "version" ≫= Json.get_size_t) = Ok (m_version (v1.base role)) ∧
    (Json.at_ j_signed "keys" ≫= Json.get_map Key.from_json) = Ok (v1.m_keys role) ∧
    (Json.at_ j_signed "roles" ≫= Json.get_map RoleKeys.from_json) = Ok (v1.m_roles role) ∧
    ({[ "root"; "snapshot"; "targets"; "timestamp" ]} : gset string)
      ⊆ dom (v1.m_roles role) ∧
    ∀ name rk, v1.m_roles role !! name = Some rk →
      Role_of_json name ≠ kInvalid ∧
      RoleKeys.keyids rk ≠ [] ∧
      1 ≤ RoleKeys.threshold rk ∧
      ∀ keyid, keyid ∈ RoleKeys.keyids rk → is_Some (v1.m_keys role !! keyid).

(** The conditions of the v0.6 schema. *)
Definition v06_schema (j : json) (role : v06.RootRole) : Prop :=
  ∃ j_signed,
    Json.at_ j "signed" = Ok j_signed ∧
    (Json.at_ j_signed "type" ≫= Json.get_string) = Ok "root"%string ∧
    (Json.at_ j_signed "metadata_spec_version" ≫= Json.get_string)
      = Ok (m_spec_version (v06.base role)) ∧
    String.prefix "0.6." (m_spec_version (v06.base role)) = true ∧
    (Json.at_ j_signed "version" ≫= Json.get_size_t) = Ok (m_version (v06.base role)) ∧
    (Json.at_ j_signed "delegations" ≫= Json.get_map RolePubKeys.from_json)
      = Ok (v06.m_delegations role) ∧
    dom (v06.m_delegations role) = ({[ "root"; "key_mgr" ]} : gset string) ∧
    ∀ name d, v06.m_delegations role !! name = Some d →
      RolePubKeys.pubkeys d ≠ [] ∧ 1 ≤ RolePubKeys.threshold d.

(** The keyring of the v1-equivalent synthesis of a v0.6 root: the
    document [upgraded_signable()] is read back as the [keys] and [roles]
    of a v1 root, whose ["root"] role is projected through its keys as
    [v1::RootRole::keys()] does. *)
Definition upgraded_root_keyring (r : v06.RootRole) : result RoleFullKeys.t :=
  js ← v06.upgraded_signable r;
  ks ← Json.at_ js "keys" ≫= Json.get_map Key.from_json;
  rs ← Json.at_ js "roles" ≫= Json.get_map RoleKeys.from_json;
  k ← v1.keys (v1.MkRootRole (RootRoleBase_new "1.0.17") ks rs);
  v06.map_at k "root".

(** The keys of a v0.6 delegation: every public key is its own key id. *)
Definition pubkey_map (pubkeys : list string) : gmap string Key.t :=
  foldr (λ key m, <[key := Key.from_ed25519 key]> m) ∅ pubkeys.

(** The keyring of a v0.6 delegation. *)
Definition full_keys (d : RolePubKeys.t) : RoleFullKeys.t :=
  RoleFullKeys.mk (pubkey_map (RolePubKeys.pubkeys d)) (RolePubKeys.threshold d).

(** Only exceptions of the JSON library leave the computation [m]. *)
Definition json_only {A} (m : result A) : Prop := ∀ e, m = Err e → e = json_exception.

(** ** A stand-in verifier and sample documents for the examples

    [sample_lib] accepts a signature when it is the public key written
    twice, whatever the data. *)
Definition sample_lib : Ed25519Lib := {|
  EVP_PKEY := list byte;
  EVP_PKEY_new_raw_public_key := λ pk, Some pk;
  EVP_DigestVerifyInit := λ _, 1;
  EVP_DigestVerify := λ key signature _, if bool_decide (signature = key ++ key) then 1 else 0
|}.

Fixpoint string_rep (n : nat) (c : ascii) : string :=
  match n with O => EmptyString | S n' => String c (string_rep n' c) end.

(** A public key of 64 hexadecimal characters and its signature. *)
Definition sample_pk (c : ascii) : string := string_rep 64 c.
Definition sample_sig (c : ascii) : string := string_rep 128 c.

Definition sample_dump (j : json) : string := EmptyString.

(** A v1 root document of version [n] with one key ["ka"], used by the
    four mandatory roles with threshold 1, signed with this key. *)
Definition sample_v1_signed (n : Z) : json :=
  let role := RoleKeys.to_json (RoleKeys.mk ["ka"%string] 1) in
  JObj (<["_type" := JStr "root"]>
        (<["spec_version" := JStr "1.0.17"]>
        (<["version" := JNum n]>
        (<["keys" := JObj (<["ka" := Key.to_json (Key.from_ed25519 (sample_pk "a"))]> ∅)]>
        (<["roles" := JObj (<["root" := role]> (<["snapshot" := role]>
                           (<["targets" := role]> (<["timestamp" := role]> ∅))))]> ∅))))).

Definition sample_v1_json (n : Z) : json :=
  JObj (<["signed" := sample_v1_signed n]>
        (<["signatures" :=
             JArr [RoleSignature.to_json (RoleSignature.mk "ka" (sample_sig "a"))]]> ∅)).

(** The v1 root read from [sample_v1_json n]. *)
Definition sample_v1_role (n : Z) : v1.RootRole :=
  let role := RoleKeys.mk ["ka"%string] 1 in
  v1.MkRootRole (MkRoleBase "root" "1.0.17" n "json")
    {[ "ka"%string := Key.from_ed25519 (sample_pk "a") ]}
    (<["root"%string := role]> (<["snapshot"%string := role]>
      (<["targets"%string := role]> (<["timestamp"%string := role]> ∅)))).

(** A v0.6 root document of version [n]: the key [sample_pk "a"] for both
    delegations, signed with it. *)
Definition sample_v06_json (n : Z) : json :=
  let d := RolePubKeys.to_json (RolePubKeys.mk [sample_pk "a"] 1) in
  JObj (<["signed" :=
            JObj (<["type" := JStr "root"]>
                  (<["metadata_spec_version" := JStr "0.6.0"]>
                  (<["version" := JNum n]>
                  (<["delegations" := JObj (<["root" := d]> (<["key_mgr" := d]> ∅))]> ∅))))]>
        (<["signatures" :=
             JObj (<[sample_pk "a" := JObj (<["signature" := JStr (sample_sig "a")]> ∅)]> ∅)]> ∅)).

(** A keyring with the key ["ka"] and threshold [n]. *)
Definition sample_keyring (n : Z) : RoleFullKeys.t :=
  RoleFullKeys.mk {[ "ka"%string := Key.from_ed25519 (sample_pk "a") ]} n.

(** ** Notions used to state the properties of the codec on arbitrary text *)

Module HexText.
Import HexCodec.

(** The value of a hexadecimal digit of either case (0 for any other
    character). *)
Definition hex_value (ch : byte) : Z :=
  let c := Z_of_byte ch in
  if (48 <=? c) && (c <=? 57) then c - 48
  else if (97 <=? c) && (c <=? 102) then c - 87
  else if (65 <=? c) && (c <=? 70) then c - 55
  else 0.

(** The bytes a text of hexadecimal digits stands for, two digits a byte,
    the high nibble first. *)
Fixpoint hex_decoding (hex : list byte) : list byte :=
  match hex with
  | h :: l :: rest => byte_of_Z (16 * hex_value h + hex_value l) :: hex_decoding rest
  | _ => []
  end.

(** [A]..[F] to [a]..[f]; other characters are left alone. *)
Definition to_lower (ch : byte) : byte :=
  let c := Z_of_byte ch in
  if (65 <=? c) && (c <=? 70) then byte_of_Z (c + 32) else ch.

(** A character [hex2bin] skips between two bytes: not a hexadecimal
    digit, and found by [strchr] in [ignore]. *)
Definition is_separator (ign : list byte) (ch : byte) : bool :=
  negb (is_hex_char ch) && strchr_found ign (Z_of_byte ch).

(** A text made of groups of digits, each preceded by separators. *)
Definition with_separators (chunks : list (list byte * list byte)) : list byte :=
  flat_map (λ c, fst c ++ snd c) chunks.

Definition digits_of (chunks : list (list byte * list byte)) : list byte :=
  flat_map snd chunks.

(** Every group holds whole bytes, and its separators are separators. *)
Definition well_separated (ign : list byte) (chunks : list (list byte * list byte)) : bool :=
  forallb (λ c, forallb (is_separator ign) (fst c)
                && forallb is_hex_char (snd c)
                && Nat.even (length (snd c))) chunks.

End HexText.

(** A stand-in signing library for the examples, the counterpart of
    [sample_lib]: the signature is the secret key written twice, so that
    a key verifies what it has signed. *)
Definition sample_sign_lib : Ed25519SignLib := {|
  EVP_PKEY_private := list byte;
  EVP_PKEY_new_raw_private_key := λ sk, Some sk;
  EVP_DigestSignInit := λ _, 1;
  EVP_DigestSign := λ key _, (1, key ++ key)
|}.

(** A stand-in for [json::dump()] with its exception: it throws on a
    string that holds the byte [0xFF], which no UTF-8 text contains. *)
Definition sample_dump_utf8 (j : json) : result string :=
  match j with
  | JStr s =>
      if existsb (Ascii.eqb (ascii_of_nat 255)) (list_ascii_of_string s)
      then Err json_exception
      else Ok (sample_dump j)
  | _ => Ok (sample_dump j)
  end.

(** The v0.6 root read from [sample_v06_json n]. *)
Definition sample_v06_role (n : Z) : v06.RootRole :=
  let d := RolePubKeys.mk [sample_pk "a"] 1 in
  v06.MkRootRole (MkRoleBase "root" "0.6.0" n "json")
    (<["root"%string := d]> (<["key_mgr"%string := d]> ∅)).

(** ** Notions used to state what an accepted signature is *)

Section Accepted.
Context `{Ed25519Lib}.

(** The library accepts the signature text [sig] of [data] under the key
    text [key]: the texts start with 128 and 64 hexadecimal digits, the
    key bytes are read as a public key, and the verification of the
    signature bytes over the bytes of [data] answers 1. *)
Definition library_accepts (data key sig : string) : bool :=
  Signer.hex_decodable 128 sig && Signer.hex_decodable 64 key &&
  match EVP_PKEY_new_raw_public_key
          (HexText.hex_decoding (take 64 (bytes_of_string key))) with
  | Some ed_key =>
      (EVP_DigestVerifyInit ed_key =? 1)
      && (EVP_DigestVerify ed_key
            (HexText.hex_decoding (take 128 (bytes_of_string sig)))
            (bytes_of_string data) =? 1)
  | None => false
  end.

(** The signature [s] is by a key of [keyring] and the library accepts
    it. *)
Definition accepted_by (keyring : RoleFullKeys.t) (data : string) (s : RoleSignature.t)
  : bool :=
  match RoleFullKeys.keys keyring !! RoleSignature.keyid s with
  | Some key => library_accepts data (Key.keyval key) (RoleSignature.sig s)
  | None => false
  end.

End Accepted.

(** [s] is the first signature of [v] with its [keyid]. *)
Definition first_with_keyid (v : list RoleSignature.t) (s : RoleSignature.t) : Prop :=
  ∃ pre post, v = pre ++ s :: post ∧
              RoleSignature.keyid s ∉ (RoleSignature.keyid <$> pre).

(** The JSON object a [std::map<std::string, std::map<std::string,
    std::string>>] is written as: the shape of the member ["signatures"]
    of a v0.6 document, an object of objects of strings. *)
Definition v06_signatures_json (entries : gmap string (gmap string string)) : json :=
  Json.of_map (Json.of_map JStr) entries.

(** The parts of a file name put together again with [sep]. *)
Fixpoint join_char (sep : ascii) (parts : list string) : string :=
  match parts with
  | [] => EmptyString
  | [w] => w
  | w :: ws => w +:+ String sep (join_char sep ws)
  end.

(** * Properties of the hexadecimal codec *)

Module HexCodecFacts.
Import HexCodec.

(** ** One character at a time *)

Lemma hex_test_is_hex_char ch : hex_test ch = is_hex_char ch.
Proof. destruct ch; vm_compute; reflexivity. Qed.

Lemma bin2hex_digits (b : byte) :
  let x := Z.lor (Z.shiftl (bin2hex_digit (Z.land (Z_of_byte b) 15)) 8)
                 (bin2hex_digit (Z.shiftr (Z_of_byte b) 4)) in
  byte_of_Z x = hex_digit (Z_of_byte b / 16) ∧
  byte_of_Z (Z.shiftr x 8) = hex_digit (Z_of_byte b mod 16).
Proof. destruct b; vm_compute; split; reflexivity. Qed.

Lemma hex_digit_decode (b : byte) :
  let h := hex_digit (Z_of_byte b / 16) in
  let l := hex_digit (Z_of_byte b mod 16) in
  hex_test h = true ∧ hex_test l = true ∧
  byte_of_Z (Z.lor (uchar (c_val (Z_of_byte h) * 16)) (c_val (Z_of_byte l))) = b.
Proof. destruct b; vm_compute; repeat split; reflexivity. Qed.

Lemma hex_digit_lowercase (b : byte) :
  hex_digit (Z_of_byte b / 16) ∈ bytes_of_string "0123456789abcdef" ∧
  hex_digit (Z_of_byte b mod 16) ∈ bytes_of_string "0123456789abcdef".
Proof. destruct b; split; apply (bool_decide_unpack _); vm_compute; exact I. Qed.

Lemma length_hex_encoding bin : length (hex_encoding bin) = (2 * length bin)%nat.
Proof. induction bin as [|b bin IH]; simpl; lia. Qed.

(** The three ways one iteration of the loop goes on a hexadecimal digit. *)
Lemma hex2bin_loop_high maxlen ign ch rest bin bp hp r acc e :
  hex_test ch = true → bp < maxlen →
  hex2bin_loop maxlen ign (ch :: rest) (MkVars bin bp hp r acc 0 e) =
  hex2bin_loop maxlen ign rest
    (MkVars bin bp (hp + 1) r (uchar (c_val (Z_of_byte ch) * 16)) 255 e).
Proof.
  unfold hex_test. intros Hh Hlt. cbn [hex2bin_loop].
  apply negb_true_iff in Hh. rewrite Hh. cbn [v_bin_pos v_state v_bin v_hex_pos v_ret v_c_acc v_errno].
  destruct (Z.leb_spec maxlen bp); [lia|]. reflexivity.
Qed.

Lemma hex2bin_loop_low maxlen ign ch rest bin bp hp r acc e :
  hex_test ch = true → bp < maxlen →
  hex2bin_loop maxlen ign (ch :: rest) (MkVars bin bp hp r acc 255 e) =
  hex2bin_loop maxlen ign rest
    (MkVars (<[Z.to_nat bp := byte_of_Z (Z.lor acc (c_val (Z_of_byte ch)))]> bin)
            (bp + 1) (hp + 1) r acc 0 e).
Proof.
  unfold hex_test. intros Hh Hlt. cbn [hex2bin_loop].
  apply negb_true_iff in Hh. rewrite Hh. cbn [v_bin_pos v_state v_bin v_hex_pos v_ret v_c_acc v_errno].
  destruct (Z.leb_spec maxlen bp); [lia|]. reflexivity.
Qed.

Lemma hex2bin_loop_full maxlen ign ch rest bin bp hp r acc st e :
  hex_test ch = true → maxlen ≤ bp →
  hex2bin_loop maxlen ign (ch :: rest) (MkVars bin bp hp r acc st e) =
  MkVars bin bp hp (-1) acc st (Some ERANGE).
Proof.
  unfold hex_test. intros Hh Hlt. cbn [hex2bin_loop].
  apply negb_true_iff in Hh. rewrite Hh. cbn [v_bin_pos v_state v_bin v_hex_pos v_ret v_c_acc v_errno].
  destruct (Z.leb_spec maxlen bp); [|lia]. reflexivity.
Qed.

(** ** [bin2hex] writes the encoding *)

Lemma bin2hex_loop_spec bin : ∀ (pre suf : list byte) (i : Z),
  0 ≤ i → length pre = Z.to_nat (i * 2) →
  (2 * length bin ≤ length suf)%nat →
  bin2hex_loop (pre ++ suf) i bin =
    pre ++ hex_encoding bin ++ drop (2 * length bin) suf.
Proof.
  induction bin as [|b bin IH]; intros pre suf i Hi Hpre Hsuf.
  - simpl. by rewrite drop_0.
  - destruct suf as [|s0 [|s1 suf]]; simpl in Hsuf; try lia.
    cbn [bin2hex_loop hex_encoding].
    destruct (bin2hex_digits b) as [-> ->].
    replace (Z.to_nat (i * 2 + 1)) with (length pre + 1)%nat by lia.
    replace (Z.to_nat (i * 2)) with (length pre + 0)%nat by lia.
    rewrite !insert_app_r.
    change (pre ++ <[1%nat:=?y]> (<[0%nat:=?x]> (s0 :: s1 :: suf)))
      with (pre ++ [x; y] ++ suf).
    rewrite app_assoc, IH.
    + rewrite <- app_assoc.
      replace (2 * length (b :: bin))%nat with (S (S (2 * length bin)))
        by (simpl; lia).
      reflexivity.
    + lia.
    + rewrite length_app. simpl. lia.
    + lia.
Qed.

Lemma bin2hex_ok (hex bin : list byte) (hex_maxlen : Z) :
  Z.of_nat (length bin) < SIZE_MAX / 2 →
  2 * Z.of_nat (length bin) ≤ hex_maxlen →
  hex_maxlen ≤ Z.of_nat (length hex) →
  bin2hex hex hex_maxlen bin (Z.of_nat (length bin)) =
    Ok (hex_encoding bin ++
        (if 2 * Z.of_nat (length bin) <? hex_maxlen
         then x00 :: drop (2 * length bin + 1) hex
         else drop (2 * length bin) hex)).
Proof.
  intros Hmax Hcap Hbuf. unfold bin2hex, size_t_wrap.
  assert (SIZE_MAX / 2 = 2 ^ 63 - 1) as HS by (vm_compute; reflexivity).
  rewrite Z.mod_small by lia.
  destruct (Z.leb_spec (SIZE_MAX / 2) (Z.of_nat (length bin))); [lia|].
  destruct (Z.ltb_spec hex_maxlen (Z.of_nat (length bin) * 2)); [lia|].
  cbn [orb]. f_equal.
  rewrite Nat2Z.id, firstn_all.
  change (bin2hex_loop hex 0 bin) with (bin2hex_loop ([] ++ hex) 0 bin).
  rewrite (bin2hex_loop_spec bin [] hex 0); [|lia|reflexivity|lia].
  cbn [app].
  replace (Z.of_nat (length bin) * 2) with (2 * Z.of_nat (length bin)) by lia.
  destruct (Z.ltb_spec (2 * Z.of_nat (length bin)) hex_maxlen); [|reflexivity].
  replace (Z.to_nat (2 * Z.of_nat (length bin))) with
    (length (hex_encoding bin) + 0)%nat by (rewrite length_hex_encoding; lia).
  rewrite insert_app_r. f_equal.
  destruct (lookup_lt_is_Some_2 hex (2 * length bin)) as [d Hd]; [lia|].
  rewrite (drop_S _ _ _ Hd).
  replace (2 * length bin + 1)%nat with (S (2 * length bin)) by lia.
  reflexivity.
Qed.

(** ** [hex2bin] reads an encoding back *)

Lemma hex2bin_loop_encoding maxlen ign b : ∀ (pre suf rest : list byte) hp r acc e,
  (length b ≤ length suf)%nat →
  Z.of_nat (length pre + length b) ≤ maxlen →
  ∃ acc',
    hex2bin_loop maxlen ign (hex_encoding b ++ rest)
      (MkVars (pre ++ suf) (Z.of_nat (length pre)) hp r acc 0 e) =
    hex2bin_loop maxlen ign rest
      (MkVars (pre ++ b ++ drop (length b) suf)
              (Z.of_nat (length pre + length b))
              (hp + 2 * Z.of_nat (length b)) r acc' 0 e).
Proof.
  induction b as [|b0 b IH]; intros pre suf rest hp r acc e Hsuf Hmax.
  - exists acc. simpl. rewrite drop_0, Nat.add_0_r, Z.add_0_r. reflexivity.
  - destruct suf as [|s0 suf]; simpl in Hsuf; [lia|].
    destruct (hex_digit_decode b0) as (Hh & Hl & Hb).
    cbn [hex_encoding app].
    rewrite hex2bin_loop_high by (simpl in Hmax; lia || done).
    rewrite hex2bin_loop_low by (simpl in Hmax; lia || done).
    rewrite Hb, Nat2Z.id.
    replace (<[length pre:=b0]> (pre ++ s0 :: suf)) with ((pre ++ [b0]) ++ suf).
    2:{ rewrite <- app_assoc. symmetry.
        rewrite <- (Nat.add_0_r (length pre)). apply (insert_app_r pre (s0 :: suf)). }
    replace (Z.of_nat (length pre) + 1) with (Z.of_nat (length (pre ++ [b0])))
      by (rewrite length_app; simpl; lia).
    destruct (IH (pre ++ [b0]) suf rest (hp + 1 + 1) r
                 (uchar (c_val (Z_of_byte (hex_digit (Z_of_byte b0 `div` 16))) * 16)) e)
      as [acc' ->].
    + lia.
    + rewrite length_app. simpl in *. lia.
    + exists acc'. rewrite <- app_assoc.
      rewrite length_app. cbn [length app drop].
      do 2 f_equal; lia.
Qed.

(** ** What [hex2bin] accepts *)

Lemma scan_le ign rest : ∀ odd, (snd (scan ign rest odd) ≤ length rest)%nat.
Proof.
  induction rest as [|ch rest IH]; intros odd; simpl; [lia|].
  destruct (is_hex_char ch).
  - specialize (IH (negb odd)). destruct (scan ign rest (negb odd)). simpl in *. lia.
  - destruct (match ign with Some _ => _ | None => _ end).
    + specialize (IH odd). destruct (scan ign rest odd). simpl in *. lia.
    + simpl. lia.
Qed.

Lemma scan_all_hex ign rest : ∀ odd,
  forallb is_hex_char rest = true →
  scan ign rest odd = (length rest, length rest).
Proof.
  induction rest as [|ch rest IH]; intros odd Hall; simpl in *; [done|].
  apply andb_true_iff in Hall as [-> Hall]. by rewrite IH.
Qed.

(** The loop, related to [scan]: either every digit fits, and the loop
    leaves where [scan] does, or the loop leaves with [ERANGE] earlier. *)
Lemma hex2bin_loop_scan maxlen ign rest : ∀ v,
  (v_state v = 0 ∨ v_state v = 255) →
  0 ≤ v_bin_pos v →
  digits_taken v ≤ 2 * maxlen →
  let d := Z.of_nat (fst (scan ign rest (pending v))) in
  let n := Z.of_nat (snd (scan ign rest (pending v))) in
  let v' := hex2bin_loop maxlen ign rest v in
  (digits_taken v + d ≤ 2 * maxlen →
     v_ret v' = v_ret v ∧ v_errno v' = v_errno v ∧
     v_hex_pos v' = v_hex_pos v + n ∧
     (v_state v' = 0 ∨ v_state v' = 255) ∧
     digits_taken v' = digits_taken v + d) ∧
  (2 * maxlen < digits_taken v + d →
     v_ret v' = -1 ∧ v_errno v' = Some ERANGE ∧ v_state v' = 0 ∧
     v_hex_pos v ≤ v_hex_pos v' < v_hex_pos v + Z.of_nat (length rest)).
Proof.
  induction rest as [|ch rest IH]; intros v Hst Hbp HK.
  - simpl. split; intros; [|lia]. repeat split; auto; lia.
  - destruct v as [bin bp hp r acc st e].
    cbn [scan]. rewrite <- hex_test_is_hex_char.
    vars_simpl.
    destruct (hex_test ch) eqn:Hh.
    + (* a hexadecimal digit *)
      destruct Hst as [-> | ->]; cbn [Z.eqb negb] in *.
      * destruct (Z_lt_le_dec bp maxlen) as [Hlt|Hge].
        -- rewrite hex2bin_loop_high by done.
           specialize (IH (MkVars bin bp (hp + 1) r
                             (uchar (c_val (Z_of_byte ch) * 16)) 255 e)).
           vars_simpl. cbn [Z.eqb negb] in IH.
           destruct (scan ign rest true) as [d n]. vars_simpl.
           destruct IH as [IHa IHb]; [auto|lia|lia|].
           split; intros H.
           ++ destruct IHa as (? & ? & ? & ? & ?); [lia|]. repeat split; auto; lia.
           ++ destruct IHb as (? & ? & ? & ?); [lia|]. repeat split; auto; lia.
        -- rewrite hex2bin_loop_full by done.
           destruct (scan ign rest true) as [d n]. vars_simpl.
           split; intros H; [lia|]. repeat split; auto; lia.
      * rewrite hex2bin_loop_low by (done || lia).
        specialize (IH (MkVars (<[Z.to_nat bp:=byte_of_Z (Z.lor acc (c_val (Z_of_byte ch)))]> bin)
                               (bp + 1) (hp + 1) r acc 0 e)).
        vars_simpl. cbn [Z.eqb negb] in IH.
        destruct (scan ign rest false) as [d n]. vars_simpl.
        destruct IH as [IHa IHb]; [auto|lia|lia|].
        split; intros H.
        -- destruct IHa as (? & ? & ? & ? & ?); [lia|]. repeat split; auto; lia.
        -- destruct IHb as (? & ? & ? & ?); [lia|]. repeat split; auto; lia.
    + (* another character: skipped, or the loop leaves *)
      unfold hex_test in Hh. apply negb_false_iff in Hh.
      cbn [hex2bin_loop]. rewrite Hh. cbn [v_state].
      destruct ign as [ign|].
      * rewrite negb_involutive.
        destruct ((st =? 0) && strchr_found ign (Z_of_byte ch)) eqn:Hskip.
        -- apply andb_true_iff in Hskip as [Hst0 Hfound].
           specialize (IH (MkVars bin bp (hp + 1) r acc st e)).
           vars_simpl. rewrite Hst0 in *. cbn [negb] in *.
           destruct (scan (Some ign) rest false) as [d n]. vars_simpl.
           destruct IH as [IHa IHb]; [auto|lia|lia|].
           split; intros H.
           ++ destruct IHa as (? & ? & ? & ? & ?); [lia|]. repeat split; auto; lia.
           ++ destruct IHb as (? & ? & ? & ?); [lia|]. repeat split; auto; lia.
        -- vars_simpl. split; intros H; [|lia]. repeat split; auto; lia.
      * vars_simpl. split; intros H; [|lia]. repeat split; auto; lia.
Qed.

Lemma hex2bin_scan_ret bin bin_maxlen hex hex_len ignore want_bin_len want_hex_end :
  0 ≤ bin_maxlen → 0 ≤ hex_len →
  let text := take (Z.to_nat hex_len) hex in
  let digits := fst (scan ignore text false) in
  let chars := snd (scan ignore text false) in
  let r := hex2bin bin bin_maxlen hex hex_len ignore want_bin_len want_hex_end in
  if (2 * bin_maxlen <? Z.of_nat digits) || Nat.odd digits
     || (negb want_hex_end && (Z.of_nat chars <? hex_len))
  then ret r = -1 ∧
       errno_out r = Some (if want_hex_end && (2 * bin_maxlen <? Z.of_nat digits)
                           then ERANGE else EINVAL)
  else ret r = 0 ∧ errno_out r = None ∧
       bin_len_out r = (if want_bin_len then Some (Z.of_nat digits / 2) else None).
Proof.
  intros Hmax Hlen. unfold hex2bin.
  set (text := take (Z.to_nat hex_len) hex).
  assert (Z.of_nat (length text) ≤ hex_len) as Htext
    by (unfold text; rewrite length_take; lia).
  pose proof (hex2bin_loop_scan bin_maxlen ignore text (MkVars bin 0 0 0 0 0 None)) as H.
  pose proof (scan_le ignore text false) as Hle.
  vars_simpl. cbn [Z.eqb negb] in H.
  destruct (scan ignore text false) as [d n]. vars_simpl.
  destruct H as [Ha Hb]; [auto|lia|lia|].
  set (v' := hex2bin_loop _ _ _ _) in *. clearbody v'.
  destruct (Z.ltb_spec (2 * bin_maxlen) (Z.of_nat d)) as [Hr|Hr].
  - (* the destination is too small *)
    destruct Hb as (Hret & Herr & Hst & Hpos); [lia|].
    rewrite Hst, Hret, Herr. cbn [Z.eqb negb orb andb].
    destruct want_hex_end; cbn [ret errno_out andb]; [done|].
    destruct (Z.eqb_spec (v_hex_pos v') hex_len); [lia|]. done.
  - destruct Ha as (Hret & Herr & Hpos & Hst & Hdig); [lia|].
    unfold digits_taken, pending in Hdig.
    cbn [orb]. rewrite andb_false_r.
    destruct (Nat.odd d) eqn:Hodd.
    + (* a nibble is left over *)
      apply Nat.odd_spec in Hodd as [k Hk].
      destruct Hst as [Hst|Hst]; rewrite Hst in *; cbn [Z.eqb negb] in *; [lia|].
      cbn [orb]. destruct want_hex_end; cbn [ret errno_out]; [done|].
      destruct (_ =? _); done.
    + assert (Nat.Even d) as [k Hk].
      { apply Nat.even_spec. rewrite <- Nat.negb_odd, Hodd. done. }
      destruct Hst as [Hst|Hst]; rewrite Hst in *; cbn [Z.eqb negb] in *; [|lia].
      rewrite Hret, Herr, Hpos. cbn [Z.eqb negb orb].
      assert (v_bin_pos v' = Z.of_nat d / 2) as ->.
      { subst d. rewrite Nat2Z.inj_mul, Z.mul_comm, Z.div_mul in * by lia. lia. }
      destruct want_hex_end; cbn [negb andb ret errno_out bin_len_out].
      * done.
      * destruct (Z.ltb_spec (Z.of_nat n) hex_len).
        -- destruct (Z.eqb_spec (0 + Z.of_nat n) hex_len); [lia|]. done.
        -- destruct (Z.eqb_spec (0 + Z.of_nat n) hex_len); [|lia]. done.
Qed.

(** C8. Hex round trip: for a byte sequence [b] shorter than [SIZE_MAX/2]
    and a destination of capacity at least [2 * |b|], [bin2hex] writes the
    lowercase hexadecimal encoding of [b], of length exactly [2 * |b|]
    (followed by a NUL when the capacity is larger); [hex2bin] applied to
    these [2 * |b|] characters, with a destination of at least [|b|]
    bytes, returns 0 and leaves exactly [b] in the destination, whatever
    the [ignore] set and the out-pointers are. *)
Theorem hex_round_trip (b hex bin : list byte) (hex_maxlen bin_maxlen : Z)
    (ignore : option (list byte)) (want_bin_len want_hex_end : bool) :
  Z.of_nat (length b) < SIZE_MAX / 2 →
  2 * Z.of_nat (length b) ≤ hex_maxlen →
  hex_maxlen ≤ Z.of_nat (length hex) →
  Z.of_nat (length b) ≤ bin_maxlen →
  bin_maxlen ≤ Z.of_nat (length bin) →
  ∃ hex',
    bin2hex hex hex_maxlen b (Z.of_nat (length b)) = Ok hex' ∧
    take (2 * length b) hex' = hex_encoding b ∧
    length (hex_encoding b) = (2 * length b)%nat ∧
    Forall (λ ch, ch ∈ bytes_of_string "0123456789abcdef") (hex_encoding b) ∧
    (2 * Z.of_nat (length b) < hex_maxlen → hex' !! (2 * length b)%nat = Some x00) ∧
    let r := hex2bin bin bin_maxlen hex' (2 * Z.of_nat (length b)) ignore
               want_bin_len want_hex_end in
    ret r = 0 ∧
    take (length b) (bin_out r) = b ∧
    bin_len_out r = (if want_bin_len then Some (Z.of_nat (length b)) else None) ∧
    hex_end_out r = (if want_hex_end then Some (2 * Z.of_nat (length b)) else None) ∧
    errno_out r = None.
Proof.
  intros Hmax Hcap Hhex Hbmax Hbin.
  eexists. split; [by apply bin2hex_ok|].
  pose proof (length_hex_encoding b) as Hlen.
  split; [|split; [|split; [|split]]].
  - rewrite <- Hlen. apply take_app_length.
  - exact Hlen.
  - clear. induction b as [|b0 b IH]; simpl; [constructor|].
    destruct (hex_digit_lowercase b0). constructor; [done|]. constructor; done.
  - intros Hlt. rewrite <- Hlen, lookup_app_r, Nat.sub_diag by lia.
    destruct (Z.ltb_spec (2 * Z.of_nat (length b)) hex_maxlen); [done|lia].
  - unfold hex2bin.
    replace (Z.to_nat (2 * Z.of_nat (length b))) with (length (hex_encoding b)) by lia.
    rewrite take_app_length.
    destruct (hex2bin_loop_encoding bin_maxlen ignore b [] bin [] 0 0 0 None)
      as [acc' Hloop]; [lia|simpl; lia|].
    rewrite app_nil_r in Hloop. cbn [app length Nat.add] in Hloop.
    change (Z.of_nat 0) with 0 in Hloop.
    rewrite Hloop.
    cbn [hex2bin_loop v_state v_hex_pos v_ret v_errno v_bin v_bin_pos Z.eqb negb].
    cbn [Nat.add]. rewrite Z.add_0_l, Z.eqb_refl.
    destruct want_hex_end; cbn [ret bin_out bin_len_out hex_end_out errno_out negb];
      (split; [done|]); (split; [apply take_app_length|]); done.
Qed.

Lemma hex_round_trip_witness :
  ∃ hex',
    bin2hex (repeat x41 7) 7 [x00; xff; x1a] 3 = Ok hex' ∧
    take 6 hex' = bytes_of_string "00ff1a" ∧
    take 3 (bin_out (hex2bin (repeat x41 4) 3 hex' 6 None true false)) = [x00; xff; x1a].
Proof.
  destruct (hex_round_trip [x00; xff; x1a] (repeat x41 7) (repeat x41 4) 7 3 None true false)
    as (hex' & H1 & H2 & _ & _ & _ & _ & H3 & _);
    [vm_compute; reflexivity | simpl; lia | simpl; lia | simpl; lia | simpl; lia |].
  exists hex'. repeat split; assumption.
Defined.

(** C9. [hex2bin] returns -1 when the destination is too small for the
    digits of the input ([ERANGE], reported when [hex_end] is requested),
    when the digits taken end on an odd nibble ([EINVAL]), in particular
    for every input of hexadecimal digits of odd length, and, when no
    [hex_end] is supplied, when the loop leaves before the end of the
    input ([EINVAL]). [scan] counts the digits and characters of the input
    the loop takes with an unbounded destination. *)
Theorem hex2bin_failures (bin hex : list byte) (bin_maxlen : Z)
    (ignore : option (list byte)) (want_bin_len want_hex_end : bool) :
  0 ≤ bin_maxlen →
  2 * bin_maxlen < Z.of_nat (fst (scan ignore hex false))
  ∨ Nat.Odd (fst (scan ignore hex false))
  ∨ (forallb is_hex_char hex = true ∧ Nat.Odd (length hex))
  ∨ (want_hex_end = false ∧ (snd (scan ignore hex false) < length hex)%nat) →
  let r := hex2bin bin bin_maxlen hex (Z.of_nat (length hex)) ignore
             want_bin_len want_hex_end in
  ret r = -1 ∧
  errno_out r =
    Some (if want_hex_end && (2 * bin_maxlen <? Z.of_nat (fst (scan ignore hex false)))
          then ERANGE else EINVAL).
Proof.
  intros Hmax Hfail.
  pose proof (hex2bin_scan_ret bin bin_maxlen hex (Z.of_nat (length hex)) ignore
                want_bin_len want_hex_end Hmax ltac:(lia)) as H.
  cbv zeta in H. rewrite Nat2Z.id, firstn_all in H.
  assert ((2 * bin_maxlen <? Z.of_nat (fst (scan ignore hex false)))
          || Nat.odd (fst (scan ignore hex false))
          || (negb want_hex_end
              && (Z.of_nat (snd (scan ignore hex false)) <? Z.of_nat (length hex))) = true) as Hc.
  { destruct Hfail as [Hr | [Ho | [[Hall Ho] | [-> Hn]]]].
    - apply Z.ltb_lt in Hr. rewrite Hr. done.
    - apply Nat.odd_spec in Ho. rewrite Ho. by rewrite orb_true_r.
    - rewrite (scan_all_hex _ _ _ Hall). cbn [fst snd].
      apply Nat.odd_spec in Ho. rewrite Ho. by rewrite orb_true_r.
    - assert (Z.of_nat (snd (scan ignore hex false)) < Z.of_nat (length hex)) as Hn' by lia.
      apply Z.ltb_lt in Hn'. rewrite Hn'. by rewrite !orb_true_r. }
  rewrite Hc in H. exact H.
Qed.

Lemma hex2bin_failures_witness :
  ret (hex2bin (repeat x41 4) 4 (bytes_of_string "abc") 3 None false false) = -1 ∧
  ret (hex2bin (repeat x41 1) 1 (bytes_of_string "abcd") 4 None false true) = -1 ∧
  ret (hex2bin (repeat x41 4) 4 (bytes_of_string "ab:cd") 5 None false false) = -1.
Proof.
  split; [|split].
  - apply (hex2bin_failures (repeat x41 4) (bytes_of_string "abc") 4 None false false);
      [lia|]. right; right; left. split; [reflexivity|]. exists 1%nat. reflexivity.
  - apply (hex2bin_failures (repeat x41 1) (bytes_of_string "abcd") 1 None false true);
      [lia|]. left. vm_compute. reflexivity.
  - apply (hex2bin_failures (repeat x41 4) (bytes_of_string "ab:cd") 4 None false false);
      [lia|]. right; right; right. split; [reflexivity|]. vm_compute. lia.
Defined.

End HexCodecFacts.
(** * Properties of the hex front ends of the verifier *)

Module SignerFacts.
Import HexCodec HexCodecFacts Signer.

Lemma scan_stops_at_non_hex text : ∀ odd,
  forallb is_hex_char text = false →
  (snd (scan None text odd) < length text)%nat.
Proof.
  induction text as [|ch text IH]; intros odd Hall; simpl in *; [done|].
  destruct (is_hex_char ch); simpl in *.
  - specialize (IH (negb odd) Hall).
    destruct (scan None text (negb odd)). simpl in *. lia.
  - lia.
Qed.

Lemma length_bytes_of_string s : length (bytes_of_string s) = String.length s.
Proof.
  unfold bytes_of_string, list_byte_of_string.
  induction s as [|c s IH]; simpl; [done|]. by rewrite IH.
Qed.

(** The conversions of [verify] and [verify_gpg_hashed_msg]: with no
    [ignore] set and no out-pointer, reading [n = 2 * maxlen] characters
    of a C string succeeds exactly when the string has [n] leading
    hexadecimal digits. *)
Lemma hex2bin_c_str_ret buf maxlen s :
  0 ≤ maxlen →
  ret (hex2bin buf maxlen (c_str s) (2 * maxlen) None false false) =
    if hex_decodable (2 * maxlen) s then 0 else -1.
Proof.
  intros Hmax.
  pose proof (hex2bin_scan_ret buf maxlen (c_str s) (2 * maxlen) None false false
                Hmax ltac:(lia)) as H.
  cbv zeta in H. unfold hex_decodable.
  pose proof (length_bytes_of_string s) as Hlen.
  set (text := take (Z.to_nat (2 * maxlen)) (c_str s)) in *.
  destruct (Z.leb_spec (2 * maxlen) (Z.of_nat (String.length s))) as [Hle|Hgt];
    cbn [andb].
  - assert (text = take (Z.to_nat (2 * maxlen)) (bytes_of_string s)) as Htext.
    { unfold text, c_str. rewrite take_app_le by lia. done. }
    rewrite <- Htext.
    destruct (forallb is_hex_char text) eqn:Hall.
    + rewrite (scan_all_hex _ _ _ Hall) in H. cbn [fst snd] in H.
      assert (length text = Z.to_nat (2 * maxlen)) as Hl
        by (rewrite Htext, length_take; lia).
      rewrite Hl in H.
      replace (Nat.odd (Z.to_nat (2 * maxlen))) with false in H.
      2:{ symmetry. rewrite <- Nat.negb_even, negb_false_iff.
          apply Nat.even_spec. exists (Z.to_nat maxlen). lia. }
      destruct (Z.ltb_spec (2 * maxlen) (Z.of_nat (Z.to_nat (2 * maxlen)))); [lia|].
      destruct (Z.ltb_spec (Z.of_nat (Z.to_nat (2 * maxlen))) (2 * maxlen)); [lia|].
      cbn [orb negb andb] in H. tauto.
    + pose proof (scan_stops_at_non_hex text false Hall) as Hs.
      assert (Z.of_nat (length text) ≤ 2 * maxlen)
        by (unfold text; rewrite length_take; lia).
      destruct (Z.ltb_spec (Z.of_nat (snd (scan None text false))) (2 * maxlen)); [|lia].
      rewrite orb_true_r in H. tauto.
  - (* the string is too short: the scan meets its terminating NUL *)
    assert (text = c_str s) as Htext.
    { unfold text. apply take_ge. unfold c_str. rewrite length_app. simpl. lia. }
    assert (forallb is_hex_char text = false) as Hall.
    { rewrite Htext. unfold c_str. rewrite forallb_app. simpl.
      by rewrite andb_false_r. }
    pose proof (scan_stops_at_non_hex text false Hall) as Hs.
    assert (Z.of_nat (length text) ≤ 2 * maxlen).
    { rewrite Htext. unfold c_str. rewrite length_app. simpl. lia. }
    destruct (Z.ltb_spec (Z.of_nat (snd (scan None text false))) (2 * maxlen)); [|lia].
    rewrite orb_true_r in H. tauto.
Qed.

Section Verify.
Context `{Ed25519Lib}.

(** C10. [verify_gpg_hashed_msg] on hexadecimal strings never throws: the
    values returned by the three [hex2bin] conversions (signature, key,
    digest) are dropped and the verification runs on the destination
    buffers as the conversions leave them. [verify] throws, without
    verifying, exactly when the conversion of the signature or of the key
    fails, that is when one of them lacks the 128, resp. 64, leading
    hexadecimal digits. *)
Theorem verify_gpg_hashed_msg_never_throws
    (msg_bin bin_signature bin_pk : list byte) (data pk signature : string) :
  let r1 := hex2bin bin_signature MAMBA_ED25519_SIGSIZE_BYTES
              (c_str signature) MAMBA_ED25519_SIGSIZE_HEX None false false in
  let r2 := hex2bin bin_pk MAMBA_ED25519_KEYSIZE_BYTES
              (c_str pk) MAMBA_ED25519_KEYSIZE_HEX None false false in
  let r3 := hex2bin msg_bin MAMBA_SHA256_SIZE_BYTES
              (c_str data) MAMBA_SHA256_SIZE_HEX None false false in
  verify_gpg_hashed_msg msg_bin bin_signature bin_pk data pk signature =
    Ok (verify_raw (bin_out r3) MAMBA_SHA256_SIZE_BYTES (bin_out r2) (bin_out r1)) ∧
  (ret r1 = (if hex_decodable 128 signature then 0 else -1)) ∧
  (ret r2 = (if hex_decodable 64 pk then 0 else -1)) ∧
  (ret r3 = (if hex_decodable 64 data then 0 else -1)) ∧
  verify bin_signature bin_pk data pk signature =
    if hex_decodable 128 signature && hex_decodable 64 pk
    then Ok (verify_data data (bin_out r2) (bin_out r1))
    else Err runtime_error.
Proof.
  cbv zeta.
  pose proof (hex2bin_c_str_ret bin_signature 64 signature ltac:(lia)) as H1.
  pose proof (hex2bin_c_str_ret bin_pk 32 pk ltac:(lia)) as H2.
  pose proof (hex2bin_c_str_ret msg_bin 32 data ltac:(lia)) as H3.
  change (2 * 64) with 128 in H1. change (2 * 32) with 64 in H2, H3.
  change MAMBA_ED25519_SIGSIZE_BYTES with 64.
  change MAMBA_ED25519_SIGSIZE_HEX with 128.
  change MAMBA_ED25519_KEYSIZE_BYTES with 32.
  change MAMBA_ED25519_KEYSIZE_HEX with 64.
  change MAMBA_SHA256_SIZE_BYTES with 32.
  change MAMBA_SHA256_SIZE_HEX with 64.
  repeat split; try assumption.
  unfold verify.
  change MAMBA_ED25519_SIGSIZE_BYTES with 64.
  change MAMBA_ED25519_SIGSIZE_HEX with 128.
  change MAMBA_ED25519_KEYSIZE_BYTES with 32.
  change MAMBA_ED25519_KEYSIZE_HEX with 64.
  rewrite H1, H2.
  destruct (hex_decodable 128 signature), (hex_decodable 64 pk); reflexivity.
Qed.

End Verify.

(** A signature that is not hexadecimal: [verify] throws,
    [verify_gpg_hashed_msg] goes on with the buffers as they are. *)
Example verify_gpg_hashed_msg_on_bad_signature :
  @verify sample_lib (repeat x00 64) (repeat x00 32)
     "data" (sample_pk "a") "not hexadecimal" = Err runtime_error ∧
  @verify_gpg_hashed_msg sample_lib (repeat x00 32) (repeat x00 64) (repeat x00 32)
     "data" (sample_pk "a") "not hexadecimal" = Ok 0.
Proof. split; vm_compute; reflexivity. Qed.

End SignerFacts.

(** * Properties of the signature threshold check *)

Module CheckSignaturesFacts.

(** ** The order of [std::string] and the signature set *)

Lemma string_compare_refl s : String.compare s s = Eq.
Proof.
  induction s as [|a s IH]; simpl; [done|].
  unfold Ascii.compare. by rewrite N.compare_refl.
Qed.

Lemma ascii_compare_lt_trans a b c :
  Ascii.compare a b = Lt → Ascii.compare b c = Lt → Ascii.compare a c = Lt.
Proof.
  unfold Ascii.compare. rewrite !N.compare_lt_iff. apply N.lt_trans.
Qed.

Lemma string_compare_lt_trans s1 : ∀ s2 s3,
  String.compare s1 s2 = Lt → String.compare s2 s3 = Lt → String.compare s1 s3 = Lt.
Proof.
  induction s1 as [|a s1 IH]; intros [|b s2] [|c s3]; simpl; try done.
  destruct (Ascii.compare a b) eqn:Hab; try done;
    destruct (Ascii.compare b c) eqn:Hbc; try done; intros H12 H23.
  - apply Ascii.compare_eq_iff in Hab, Hbc. subst.
    replace (Ascii.compare c c) with Eq
      by (symmetry; unfold Ascii.compare; apply N.compare_refl).
    eauto.
  - apply Ascii.compare_eq_iff in Hab. subst. by rewrite Hbc.
  - apply Ascii.compare_eq_iff in Hbc. subst. by rewrite Hab.
  - by rewrite (ascii_compare_lt_trans _ _ _ Hab Hbc).
Qed.

Lemma string_compare_gt_lt s1 s2 :
  String.compare s1 s2 = Gt → String.compare s2 s1 = Lt.
Proof. intros H. rewrite String.compare_antisym, H. done. Qed.

Lemma sigset_insert_Forall (P : RoleSignature.t → Prop) x s :
  P x → Forall P s → Forall P (SigSet.insert x s).
Proof.
  intros Hx. induction 1 as [|y s Hy Hs IH]; simpl.
  - by constructor.
  - destruct (String.compare _ _); repeat constructor; done.
Qed.

Lemma sigset_insert_sorted x s :
  StronglySorted RoleSignature.lt s → StronglySorted RoleSignature.lt (SigSet.insert x s).
Proof.
  induction 1 as [|y s Hs IH Hy]; simpl.
  - repeat constructor.
  - destruct (String.compare (RoleSignature.keyid x) (RoleSignature.keyid y)) eqn:Hc.
    + by constructor.
    + constructor; [by constructor|]. constructor; [done|].
      eapply Forall_impl; [exact Hy|]. intros z Hz.
      unfold RoleSignature.lt in *. eapply string_compare_lt_trans; eauto.
    + constructor; [done|]. apply sigset_insert_Forall; [|done].
      by apply string_compare_gt_lt.
Qed.

Lemma sigset_of_vector_sorted v : StronglySorted RoleSignature.lt (SigSet.of_vector v).
Proof.
  unfold SigSet.of_vector.
  assert (StronglySorted RoleSignature.lt []) as Hnil by constructor.
  revert Hnil. generalize (@nil RoleSignature.t).
  induction v as [|x v IH]; intros s Hs; simpl; [done|].
  apply IH. by apply sigset_insert_sorted.
Qed.

(** No [keyid] occurs twice in a signature set. *)
Lemma sigset_sorted_NoDup s :
  StronglySorted RoleSignature.lt s → NoDup (RoleSignature.keyid <$> s).
Proof.
  induction 1 as [|y s Hs IH Hy]; simpl; constructor; [|done].
  intros Hin. apply list_elem_of_fmap in Hin as (z & Heq & Hz).
  rewrite Forall_forall in Hy. specialize (Hy z Hz).
  unfold RoleSignature.lt in Hy. rewrite Heq, string_compare_refl in Hy. done.
Qed.

(** ** The loop *)

Section Check.
Context `{Ed25519Lib}.
Variable dump : json → string.
Variables bin_signature bin_pk : list byte.
Variable signed_data : string.
Variable keyring : RoleFullKeys.t.

#[local] Abbreviation loop := (check_signatures_loop bin_signature bin_pk signed_data keyring).
#[local] Abbreviation check := (λ sigs, check_signatures bin_signature bin_pk signed_data sigs keyring).
#[local] Abbreviation count := (valid_count bin_signature bin_pk signed_data keyring).
#[local] Abbreviation valid := (is_valid bin_signature bin_pk signed_data keyring).
#[local] Abbreviation fails := (conversion_fails bin_signature bin_pk signed_data keyring).
#[local] Abbreviation known := (is_known keyring).
#[local] Abbreviation threshold := (RoleFullKeys.threshold keyring).

Lemma valid_count_cons s sigs :
  count (s :: sigs) = (if valid s then 1 else 0) + count sigs.
Proof. unfold valid_count. simpl. destruct (valid s); simpl; lia. Qed.

Lemma valid_count_app l1 l2 : count (l1 ++ l2) = count l1 + count l2.
Proof. unfold valid_count. rewrite List.filter_app, length_app. lia. Qed.

Lemma valid_count_nonneg sigs : 0 ≤ count sigs.
Proof. unfold valid_count. lia. Qed.

Lemma valid_count_known sigs : count (List.filter known sigs) = count sigs.
Proof.
  induction sigs as [|s sigs IH]; [done|]. simpl.
  destruct (known s) eqn:Hk.
  - by rewrite !valid_count_cons, IH.
  - rewrite valid_count_cons, IH.
    unfold is_known in Hk. unfold is_valid, verdict.
    destruct (RoleFullKeys.keys keyring !! RoleSignature.keyid s) eqn:Hl.
    + exfalso. by rewrite bool_decide_eq_false in Hk; apply Hk.
    + lia.
Qed.

(** One iteration: without a conversion failure the counter goes up by
    one for a valid signature and stays for the others. *)
Lemma check_signatures_loop_cons s rest valid_sig :
  fails s = false → 0 ≤ valid_sig < SIZE_MAX →
  loop (s :: rest) valid_sig =
    let valid_sig' := valid_sig + (if valid s then 1 else 0) in
    if threshold <=? valid_sig' then Ok valid_sig' else loop rest valid_sig'.
Proof.
  intros Hf Hv. cbn [check_signatures_loop].
  unfold conversion_fails, is_valid, verdict in *.
  destruct (RoleFullKeys.keys keyring !! RoleSignature.keyid s) as [key|].
  - destruct (Signer.verify _ _ _ _ _) as [r|e]; [|done].
    cbn. destruct (r =? 1).
    + unfold size_t_wrap. rewrite Z.mod_small by (unfold SIZE_MAX in Hv; lia). done.
    + by rewrite Z.add_0_r.
  - cbn. by rewrite Z.add_0_r.
Qed.

Lemma check_signatures_loop_spec sigs : ∀ valid_sig,
  threshold ≤ SIZE_MAX → 0 ≤ valid_sig → valid_sig < threshold ∨ valid_sig = 0 →
  Forall (λ s, fails s = false) sigs →
  ∃ pre post,
    sigs = pre ++ post ∧
    loop sigs valid_sig = Ok (valid_sig + count pre) ∧
    (post ≠ [] → threshold ≤ valid_sig + count pre) ∧
    (∀ p q, pre = p ++ q → p ≠ [] → q ≠ [] → valid_sig + count p < threshold).
Proof.
  induction sigs as [|s sigs IH]; intros valid_sig Hth Hv0 Hv Hall.
  - exists [], []. repeat split; try done.
    + simpl. unfold valid_count. simpl. by rewrite Z.add_0_r.
    + intros [|??] [|??]; done.
  - apply Forall_cons in Hall as [Hs Hall].
    rewrite check_signatures_loop_cons
      by (done || unfold SIZE_MAX in *; lia).
    cbv zeta.
    set (valid_sig' := valid_sig + (if valid s then 1 else 0)).
    assert (valid_sig' = valid_sig + count [s]) as Hone.
    { rewrite valid_count_cons. unfold valid_count. simpl. lia. }
    destruct (Z.leb_spec threshold valid_sig') as [Hbreak|Hgo].
    + exists [s], sigs. repeat split; try done.
      * by rewrite Hone.
      * intros _. lia.
      * intros [|? [|??]] [|??]; done.
    + destruct (IH valid_sig') as (pre & post & -> & Hloop & Hpost & Hpre);
        [done| |by left|done|].
      { subst valid_sig'. destruct (valid s); lia. }
      exists (s :: pre), post. repeat split; try done.
      * rewrite Hloop. f_equal. rewrite valid_count_cons. subst valid_sig'. lia.
      * intros Hne. specialize (Hpost Hne). rewrite valid_count_cons.
        subst valid_sig'. lia.
      * intros [|s' p] q Heq Hp Hq; [done|]. injection Heq as <- ->.
        destruct p as [|s'' p].
        -- rewrite <- Hone. done.
        -- specialize (Hpre (s'' :: p) q eq_refl ltac:(done) Hq).
           rewrite valid_count_cons. subst valid_sig'. lia.
Qed.

(** Without a conversion failure, the check is decided by the number of
    valid signatures of the set. *)
Lemma check_signatures_decides sigs :
  threshold ≤ SIZE_MAX →
  Forall (λ s, fails s = false) sigs →
  check sigs = if count sigs <? threshold then Err threshold_error else Ok tt.
Proof.
  intros Hth Hall.
  destruct (check_signatures_loop_spec sigs 0 Hth ltac:(lia) ltac:(by right) Hall)
    as (pre & post & -> & Hloop & Hpost & _).
  unfold check_signatures. rewrite Hloop. cbn [mbind result_bind].
  rewrite valid_count_app, Z.add_0_l in *.
  pose proof (valid_count_nonneg post).
  destruct post as [|p post].
  - unfold valid_count at 3. simpl. rewrite Z.add_0_r. done.
  - specialize (Hpost ltac:(done)).
    destruct (Z.ltb_spec (count pre) threshold); [lia|].
    destruct (Z.ltb_spec (count pre + count (p :: post)) threshold); [lia|]. done.
Qed.

(** As long as the counter stays below the threshold the loop goes on. *)
Lemma check_signatures_loop_app pre : ∀ rest valid_sig,
  threshold ≤ SIZE_MAX → 0 ≤ valid_sig →
  Forall (λ s, fails s = false) pre →
  valid_sig + count pre < threshold →
  loop (pre ++ rest) valid_sig = loop rest (valid_sig + count pre).
Proof.
  induction pre as [|s pre IH]; intros rest valid_sig Hth Hv Hall Hlt.
  - simpl. unfold valid_count. simpl. by rewrite Z.add_0_r.
  - apply Forall_cons in Hall as [Hs Hall].
    rewrite valid_count_cons in Hlt. pose proof (valid_count_nonneg pre).
    cbn [app]. rewrite check_signatures_loop_cons
      by (done || unfold SIZE_MAX in *; destruct (valid s); lia).
    cbv zeta.
    destruct (Z.leb_spec threshold (valid_sig + (if valid s then 1 else 0)));
      [destruct (valid s); lia|].
    rewrite IH; [|done|destruct (valid s); lia|done|lia].
    f_equal. rewrite valid_count_cons. lia.
Qed.

(** A signature of the keyring that cannot be converted ends the loop
    with the exception of [verify]. *)
Lemma check_signatures_loop_throws s rest valid_sig :
  fails s = true → loop (s :: rest) valid_sig = Err runtime_error.
Proof.
  unfold conversion_fails, verdict. cbn [check_signatures_loop].
  destruct (RoleFullKeys.keys keyring !! RoleSignature.keyid s) as [key|]; [|done].
  unfold Signer.verify.
  destruct (negb _ || negb _); [done|]. done.
Qed.

(** C1 (amended). The signature set is iterated in increasing [keyid]
    order and holds each [keyid] once. When no signature of the set with
    a [keyid] of the keyring makes [verify] throw (key and signature are
    hexadecimal of the right length), [check_signatures] throws
    [threshold_error] exactly when the number of signatures that are in
    the keyring and verify is below the threshold, and returns otherwise;
    the loop stops at the end of the set or as soon as the counter has
    reached the threshold, and not before; signatures with an unknown
    [keyid] do not change the outcome. In particular a set with exactly
    [threshold] valid signatures is accepted, one with [threshold - 1] is
    rejected. When the loop comes to a signature of the keyring whose key
    or signature cannot be converted, the [std::runtime_error] of
    [verify] leaves [check_signatures]. *)
Theorem check_signatures_threshold (v : list RoleSignature.t) :
  let sigs := SigSet.of_vector v in
  threshold ≤ SIZE_MAX →
  StronglySorted RoleSignature.lt sigs ∧
  NoDup (RoleSignature.keyid <$> sigs) ∧
  (Forall (λ s, fails s = false) sigs →
     (check sigs = Err threshold_error ↔ count sigs < threshold) ∧
     (check sigs = Ok tt ↔ threshold ≤ count sigs) ∧
     (∃ pre post,
        sigs = pre ++ post ∧ loop sigs 0 = Ok (count pre) ∧
        (post ≠ [] → threshold ≤ count pre) ∧
        (∀ p q, pre = p ++ q → p ≠ [] → q ≠ [] → count p < threshold)) ∧
     check (List.filter known sigs) = check sigs ∧
     (count sigs = threshold → check sigs = Ok tt) ∧
     (count sigs = threshold - 1 → check sigs = Err threshold_error)) ∧
  (∀ pre s post,
     sigs = pre ++ s :: post →
     Forall (λ s, fails s = false) pre →
     pre = [] ∨ count pre < threshold →
     fails s = true →
     check sigs = Err runtime_error).
Proof.
  intros sigs Hth.
  pose proof (sigset_of_vector_sorted v) as Hsorted. fold sigs in Hsorted.
  split; [done|]. split; [by apply sigset_sorted_NoDup|]. split.
  - intros Hall.
    pose proof (check_signatures_decides sigs Hth Hall) as Hdec.
    split; [|split; [|split; [|split; [|split]]]].
    + rewrite Hdec. destruct (Z.ltb_spec (count sigs) threshold); split; (done || lia).
    + rewrite Hdec. destruct (Z.ltb_spec (count sigs) threshold); split; (done || lia).
    + destruct (check_signatures_loop_spec sigs 0 Hth ltac:(lia) ltac:(by right) Hall)
        as (pre & post & Heq & Hloop & Hpost & Hpre).
      exists pre, post. rewrite Z.add_0_l in *. repeat split; done.
    + rewrite Hdec, check_signatures_decides, valid_count_known; [done..|].
      rewrite Forall_forall in *. intros s Hs. apply Hall.
      apply list_elem_of_In. apply list_elem_of_In in Hs.
      apply List.filter_In in Hs. tauto.
    + intros Heq. rewrite Hdec.
      destruct (Z.ltb_spec (count sigs) threshold); [lia|done].
    + intros Heq. rewrite Hdec.
      destruct (Z.ltb_spec (count sigs) threshold); [done|lia].
  - intros pre s post -> Hall Hpre Hs. unfold check_signatures.
    destruct Hpre as [->|Hlt].
    + cbn [app]. by rewrite check_signatures_loop_throws.
    + rewrite check_signatures_loop_app by (done || lia).
      by rewrite check_signatures_loop_throws.
Qed.

End Check.

Lemma check_signatures_threshold_witness :
  @check_signatures sample_lib (repeat x00 64) (repeat x00 32) ""
    (SigSet.of_vector [RoleSignature.mk "zz" ""; RoleSignature.mk "ka" (sample_sig "a")])
    (sample_keyring 1) = Ok tt ∧
  @check_signatures sample_lib (repeat x00 64) (repeat x00 32) ""
    (SigSet.of_vector [RoleSignature.mk "zz" ""; RoleSignature.mk "ka" (sample_sig "a")])
    (sample_keyring 2) = Err threshold_error.
Proof.
  split.
  - destruct (@check_signatures_threshold sample_lib (repeat x00 64) (repeat x00 32) ""
                (sample_keyring 1)
                [RoleSignature.mk "zz" ""; RoleSignature.mk "ka" (sample_sig "a")])
      as (_ & _ & Hvalid & _); [vm_compute; discriminate|].
    destruct Hvalid as (_ & Hok & _); [repeat constructor|].
    apply Hok. vm_compute. discriminate.
  - destruct (@check_signatures_threshold sample_lib (repeat x00 64) (repeat x00 32) ""
                (sample_keyring 2)
                [RoleSignature.mk "zz" ""; RoleSignature.mk "ka" (sample_sig "a")])
      as (_ & _ & Hvalid & _); [vm_compute; discriminate|].
    destruct Hvalid as (Herr & _); [repeat constructor|].
    apply Herr. vm_compute. reflexivity.
Defined.

(** C1 as stated fails when [verify] throws: a signature whose [keyid]
    is in the keyring but which is not 128 hexadecimal characters makes
    [check_signatures] leave with [std::runtime_error]; the count of
    valid signatures stays below the threshold and no [threshold_error]
    is thrown. *)
Lemma check_signatures_conversion_error :
  @valid_count sample_lib (repeat x00 64) (repeat x00 32) "" (sample_keyring 1)
    (SigSet.of_vector [RoleSignature.mk "ka" "00ff"]) = 0 ∧
  RoleFullKeys.threshold (sample_keyring 1) = 1 ∧
  @check_signatures sample_lib (repeat x00 64) (repeat x00 32) ""
    (SigSet.of_vector [RoleSignature.mk "ka" "00ff"]) (sample_keyring 1)
    = Err runtime_error ∧
  ¬ (@check_signatures sample_lib (repeat x00 64) (repeat x00 32) ""
       (SigSet.of_vector [RoleSignature.mk "ka" "00ff"]) (sample_keyring 1)
       = Err threshold_error
     ↔ @valid_count sample_lib (repeat x00 64) (repeat x00 32) "" (sample_keyring 1)
         (SigSet.of_vector [RoleSignature.mk "ka" "00ff"])
       < RoleFullKeys.threshold (sample_keyring 1)).
Proof.
  assert (@check_signatures sample_lib (repeat x00 64) (repeat x00 32) ""
            (SigSet.of_vector [RoleSignature.mk "ka" "00ff"]) (sample_keyring 1)
          = Err runtime_error) as Hc by (vm_compute; reflexivity).
  assert (@valid_count sample_lib (repeat x00 64) (repeat x00 32) "" (sample_keyring 1)
            (SigSet.of_vector [RoleSignature.mk "ka" "00ff"]) = 0) as Hv
    by (vm_compute; reflexivity).
  repeat split; try done.
  rewrite Hc, Hv. intros [_ Hiff]. discriminate Hiff. reflexivity.
Qed.

End CheckSignaturesFacts.

(** * Properties of the JSON readers of the two dialects *)

Module SchemaFacts.

(** ** Reading maps *)

Lemma map_traverse_lookup {A B} e (f : A → result B) (m : gmap string A) m' :
  Json.map_traverse e f m = Ok m' →
  ∀ k b, m' !! k = Some b ↔ ∃ a, m !! k = Some a ∧ f a = Ok b.
Proof.
  unfold Json.map_traverse. case_bool_decide as Hall; [|done].
  intros [= <-] k b. rewrite lookup_omap.
  destruct (m !! k) as [a|] eqn:Hk; simpl.
  - specialize (Hall k a Hk). simpl in Hall.
    destruct (f a) as [b'|] eqn:Hfa; [|done]. simpl.
    split; [intros [= <-]; eauto|]. intros (a' & [= <-] & Hf). congruence.
  - split; [done|]. intros (a & ? & _). done.
Qed.

Lemma map_traverse_dom {A B} e (f : A → result B) (m : gmap string A) m' :
  Json.map_traverse e f m = Ok m' → dom m' = dom m.
Proof.
  intros Ht. apply set_eq. intros k. rewrite !elem_of_dom.
  unfold Json.map_traverse in Ht. case_bool_decide as Hall; [|done].
  injection Ht as <-. rewrite lookup_omap.
  destruct (m !! k) as [a|] eqn:Hk; simpl.
  - specialize (Hall k a Hk). simpl in Hall. destruct (f a); [|done].
    simpl. split; eauto.
  - split; intros [? ?]; done.
Qed.

Lemma map_traverse_Err {A B} e (f : A → result B) (m : gmap string A) e' :
  Json.map_traverse e f m = Err e' → e' = e.
Proof. unfold Json.map_traverse. case_bool_decide; [done|]. by intros [= <-]. Qed.


Lemma at_json_only j key : json_only (Json.at_ j key).
Proof.
  intros e. unfold Json.at_. destruct j; try (by intros [= <-]).
  destruct (_ !! _); [done|]. by intros [= <-].
Qed.

Lemma get_string_json_only j : json_only (Json.get_string j).
Proof. intros e. destruct j; simpl; try done; by intros [= <-]. Qed.

Lemma get_size_t_json_only j : json_only (Json.get_size_t j).
Proof. intros e. destruct j; simpl; try done; by intros [= <-]. Qed.

Lemma get_map_json_only {A} (f : json → result A) j : json_only (Json.get_map f j).
Proof.
  intros e. destruct j; simpl; try (by intros [= <-]).
  intros He. by apply map_traverse_Err in He.
Qed.

Lemma bind_json_only {A B} (m : result A) (f : A → result B) :
  json_only m → (∀ a, json_only (f a)) → json_only (m ≫= f).
Proof.
  intros Hm Hf e. destruct m as [a|e']; simpl.
  - apply Hf.
  - intros [= <-]. by apply Hm.
Qed.

Lemma get_size_t_range j n : Json.get_size_t j = Ok n → 0 ≤ n ≤ SIZE_MAX.
Proof.
  destruct j as [| |z| | |]; simpl; try done. intros [= <-].
  unfold size_t_wrap, SIZE_MAX.
  pose proof (Z.mod_pos_bound z (2 ^ 64) ltac:(lia)). lia.
Qed.

Lemma RoleKeys_from_json_range j rk :
  RoleKeys.from_json j = Ok rk → 0 ≤ RoleKeys.threshold rk ≤ SIZE_MAX.
Proof.
  unfold RoleKeys.from_json.
  destruct (Json.at_ j "keyids" ≫= _) as [ids|]; simpl; [|done].
  destruct (Json.at_ j "threshold") as [jt|]; simpl; [|done].
  destruct (Json.get_size_t jt) as [n|] eqn:Hn; simpl; [|done].
  intros [= <-]. simpl. by apply get_size_t_range in Hn.
Qed.

Lemma RolePubKeys_from_json_range j d :
  RolePubKeys.from_json j = Ok d → 0 ≤ RolePubKeys.threshold d ≤ SIZE_MAX.
Proof.
  unfold RolePubKeys.from_json.
  destruct (Json.at_ j "pubkeys" ≫= _) as [ids|]; simpl; [|done].
  destruct (Json.at_ j "threshold") as [jt|]; simpl; [|done].
  destruct (Json.get_size_t jt) as [n|] eqn:Hn; simpl; [|done].
  intros [= <-]. simpl. by apply get_size_t_range in Hn.
Qed.

Lemma get_map_values {A} (f : json → result A) j m k a :
  Json.get_map f j = Ok m → m !! k = Some a → ∃ ja, f ja = Ok a.
Proof.
  destruct j; simpl; try done. intros Ht Hk.
  apply (map_traverse_lookup _ _ _ _ Ht) in Hk as (ja & _ & ?). eauto.
Qed.

Ltac json_err E :=
  eapply bind_json_only in E;
  [ exact E
  | apply at_json_only
  | intros; first [ apply get_size_t_json_only | apply get_string_json_only
                  | apply get_map_json_only ] ].

(** ** Dialect v1 *)

Lemma v1_from_json_try_json_or_metadata j j_signed role e :
  v1.from_json_try j j_signed role = Err e →
  e = json_exception ∨ e = role_metadata_error.
Proof.
  unfold v1.from_json_try, RoleBase_from_json. intros Htry.
  destruct (Json.at_ j_signed "version" ≫= Json.get_size_t) as [v|e0] eqn:E0;
    cbn [mbind result_bind] in Htry.
  2:{ injection Htry as <-. left. json_err E0. }
  destruct (Json.at_ j_signed "_type" ≫= Json.get_string) as [ty|e1] eqn:E1;
    cbn [mbind result_bind] in Htry.
  2:{ injection Htry as <-. left. json_err E1. }
  destruct (negb _); [injection Htry as <-; by right|].
  destruct (Json.at_ j_signed "spec_version" ≫= Json.get_string) as [sv|e2] eqn:E2;
    cbn [mbind result_bind] in Htry.
  2:{ injection Htry as <-. left. json_err E2. }
  destruct (negb _); [injection Htry as <-; by right|].
  destruct (Json.at_ j_signed "keys" ≫= Json.get_map Key.from_json) as [ks|e3] eqn:E3;
    cbn [mbind result_bind] in Htry.
  2:{ injection Htry as <-. left. json_err E3. }
  destruct (Json.at_ j_signed "roles" ≫= Json.get_map RoleKeys.from_json) as [rs|e4] eqn:E4;
    cbn [mbind result_bind] in Htry; [done|].
  injection Htry as <-. left. json_err E4.
Qed.

Lemma v1_from_json_try_fields j j_signed role0 role :
  Json.at_ j "signed" = Ok j_signed →
  m_type (v1.base role0) = "root"%string →
  v1.from_json_try j j_signed role0 = Ok role →
  (Json.at_ j_signed "_type" ≫= Json.get_string) = Ok "root"%string ∧
  (Json.at_ j_signed "spec_version" ≫= Json.get_string)
    = Ok (m_spec_version (v1.base role)) ∧
  String.prefix "1." (m_spec_version (v1.base role)) = true ∧
  (Json.at_ j_signed "version" ≫= Json.get_size_t) = Ok (m_version (v1.base role)) ∧
  (Json.at_ j_signed "keys" ≫= Json.get_map Key.from_json) = Ok (v1.m_keys role) ∧
  (Json.at_ j_signed "roles" ≫= Json.get_map RoleKeys.from_json) = Ok (v1.m_roles role).
Proof.
  intros Hsigned Hroot Htry.
  unfold v1.from_json_try, RoleBase_from_json in Htry.
  destruct (Json.at_ j_signed "version" ≫= Json.get_size_t) as [v|] eqn:E0;
    cbn [mbind result_bind] in Htry; [|done].
  destruct (Json.at_ j_signed "_type" ≫= Json.get_string) as [ty|] eqn:E1;
    cbn [mbind result_bind] in Htry; [|done].
  cbn [set_version m_type] in Htry. rewrite Hroot in Htry.
  destruct (String.eqb_spec ty "root") as [->|]; cbn [negb] in Htry; [|done].
  destruct (Json.at_ j_signed "spec_version" ≫= Json.get_string) as [sv|] eqn:E2;
    cbn [mbind result_bind] in Htry; [|done].
  destruct (v1.is_spec_version_compatible j) eqn:Hcompat; cbn [negb] in Htry; [|done].
  destruct (Json.at_ j_signed "keys" ≫= Json.get_map Key.from_json) as [ks|] eqn:E3;
    cbn [mbind result_bind] in Htry; [|done].
  destruct (Json.at_ j_signed "roles" ≫= Json.get_map RoleKeys.from_json) as [rs|] eqn:E4;
    cbn [mbind result_bind] in Htry; [|done].
  injection Htry as <-. cbn.
  unfold v1.is_spec_version_compatible in Hcompat.
  rewrite Hsigned in Hcompat. cbn [mbind result_bind] in Hcompat.
  rewrite E2 in Hcompat. unfold starts_with in Hcompat.
  repeat split; done.
Qed.

(** Reading a v1 root document succeeds only if its ["signed"] object
    has [_type] equal to ["root"] and a [spec_version] starting with
    ["1."], the roles include root, snapshot, targets and timestamp, every
    role name is a recognised role, and every role has a non-empty list
    of key ids, a threshold of at least 1 and only key ids declared in
    [keys] ([v1_schema]); a document with a ["signed"] member that is not
    accepted is rejected with [role_metadata_error]. *)
Lemma v1_from_json_schema (j : json) (role0 : v1.RootRole) :
  m_type (v1.base role0) = "root"%string →
  (∀ role, v1.from_json j role0 = Ok role → v1_schema j role) ∧
  (∀ j_signed, Json.at_ j "signed" = Ok j_signed →
     (∃ role, v1.from_json j role0 = Ok role) ∨
     v1.from_json j role0 = Err role_metadata_error).
Proof.
  intros Hroot. split.
  - intros role Hparse. unfold v1.from_json in Hparse.
    destruct (Json.at_ j "signed") as [j_signed|] eqn:Hsigned;
      cbn [mbind result_bind] in Hparse; [|done].
    destruct (v1.from_json_try j j_signed role0) as [role1|e] eqn:Htry;
      [|destruct e; done].
    cbn [Json.catch_json mbind result_bind] in Hparse.
    case_bool_decide as Hnames; cbn [negb] in Hparse; [|done].
    case_bool_decide as Hmand; cbn [negb] in Hparse; [|done].
    case_bool_decide as Hroles; cbn [negb] in Hparse; [|done].
    injection Hparse as <-.
    destruct (v1_from_json_try_fields _ _ _ _ Hsigned Hroot Htry)
      as (Hty & Hsv & Hpre & Hver & Hkeys & Hrs).
    exists j_signed. repeat split; try done.
    + specialize (Hnames name rk H). simpl in Hnames.
      intros Hinv. by rewrite Hinv in Hnames.
    + specialize (Hroles name rk H). simpl in Hroles.
      unfold v1.role_keys_ok in Hroles.
      apply andb_true_iff in Hroles as [Hroles _].
      apply andb_true_iff in Hroles as [Hne _].
      apply negb_true_iff, bool_decide_eq_false in Hne. done.
    + specialize (Hroles name rk H). simpl in Hroles.
      unfold v1.role_keys_ok in Hroles.
      apply andb_true_iff in Hroles as [Hroles _].
      apply andb_true_iff in Hroles as [_ Hth].
      apply negb_true_iff, Z.eqb_neq in Hth.
      destruct (Json.at_ j_signed "roles") as [jr|]; [|done].
      cbn [mbind result_bind] in Hrs.
      destruct (get_map_values _ _ _ _ _ Hrs H) as [ja Hja].
      apply RoleKeys_from_json_range in Hja. lia.
    + intros keyid Hin.
      specialize (Hroles name rk H). simpl in Hroles.
      unfold v1.role_keys_ok in Hroles.
      apply andb_true_iff in Hroles as [_ Hids].
      rewrite forallb_forall in Hids.
      specialize (Hids keyid ltac:(by apply list_elem_of_In)).
      by apply bool_decide_eq_true in Hids.
  - intros j_signed Hsigned. unfold v1.from_json. rewrite Hsigned.
    cbn [mbind result_bind].
    destruct (v1.from_json_try j j_signed role0) as [role1|e] eqn:Htry.
    + cbn [Json.catch_json mbind result_bind].
      repeat (case_bool_decide; cbn [negb]; [|by right]). left. eauto.
    + right. apply v1_from_json_try_json_or_metadata in Htry as [-> | ->]; done.
Qed.

Example v1_from_json_schema_sample : v1_schema (sample_v1_json 1) (sample_v1_role 1).
Proof.
  apply (v1_from_json_schema (sample_v1_json 1) v1.RootRole_new).
  - reflexivity.
  - vm_compute. reflexivity.
Defined.

(** A role with threshold 0 is rejected when the document is read. *)
Example v1_threshold_zero_rejected :
  let role := RoleKeys.to_json (RoleKeys.mk ["ka"%string] 1) in
  let role0 := RoleKeys.to_json (RoleKeys.mk ["ka"%string] 0) in
  v1.from_json
    (JObj (<["signed" :=
        JObj (<["_type" := JStr "root"]>
              (<["spec_version" := JStr "1.0.17"]>
              (<["version" := JNum 1]>
              (<["keys" := JObj (<["ka" := Key.to_json (Key.from_ed25519 (sample_pk "a"))]> ∅)]>
              (<["roles" := JObj (<["root" := role]> (<["snapshot" := role0]>
                             (<["targets" := role]> (<["timestamp" := role]> ∅))))]> ∅)))))]> ∅))
    v1.RootRole_new = Err role_metadata_error.
Proof. vm_compute. reflexivity. Qed.

(** ** Dialect v0.6 *)

Lemma v06_from_json_try_json_or_metadata j j_signed role e :
  v06.from_json_try j j_signed role = Err e →
  e = json_exception ∨ e = role_metadata_error.
Proof.
  unfold v06.from_json_try, RoleBase_from_json. intros Htry.
  destruct (Json.at_ j_signed "version" ≫= Json.get_size_t) as [v|e0] eqn:E0;
    cbn [mbind result_bind] in Htry.
  2:{ injection Htry as <-. left. json_err E0. }
  destruct (Json.at_ j_signed "type" ≫= Json.get_string) as [ty|e1] eqn:E1;
    cbn [mbind result_bind] in Htry.
  2:{ injection Htry as <-. left. json_err E1. }
  destruct (negb _); [injection Htry as <-; by right|].
  destruct (Json.at_ j_signed "metadata_spec_version" ≫= Json.get_string)
    as [sv|e2] eqn:E2; cbn [mbind result_bind] in Htry.
  2:{ injection Htry as <-. left. json_err E2. }
  destruct (negb _); [injection Htry as <-; by right|].
  destruct (Json.at_ j_signed "delegations" ≫= Json.get_map RolePubKeys.from_json)
    as [ds|e3] eqn:E3; cbn [mbind result_bind] in Htry; [done|].
  injection Htry as <-. left. json_err E3.
Qed.

Lemma v06_from_json_try_fields j j_signed role0 role :
  Json.at_ j "signed" = Ok j_signed →
  m_type (v06.base role0) = "root"%string →
  v06.from_json_try j j_signed role0 = Ok role →
  (Json.at_ j_signed "type" ≫= Json.get_string) = Ok "root"%string ∧
  (Json.at_ j_signed "metadata_spec_version" ≫= Json.get_string)
    = Ok (m_spec_version (v06.base role)) ∧
  String.prefix "0.6." (m_spec_version (v06.base role)) = true ∧
  (Json.at_ j_signed "version" ≫= Json.get_size_t) = Ok (m_version (v06.base role)) ∧
  (Json.at_ j_signed "delegations" ≫= Json.get_map RolePubKeys.from_json)
    = Ok (v06.m_delegations role).
Proof.
  intros Hsigned Hroot Htry.
  unfold v06.from_json_try, RoleBase_from_json in Htry.
  destruct (Json.at_ j_signed "version" ≫= Json.get_size_t) as [v|] eqn:E0;
    cbn [mbind result_bind] in Htry; [|done].
  destruct (Json.at_ j_signed "type" ≫= Json.get_string) as [ty|] eqn:E1;
    cbn [mbind result_bind] in Htry; [|done].
  cbn [set_version m_type] in Htry. rewrite Hroot in Htry.
  destruct (String.eqb_spec ty "root") as [->|]; cbn [negb] in Htry; [|done].
  destruct (Json.at_ j_signed "metadata_spec_version" ≫= Json.get_string)
    as [sv|] eqn:E2; cbn [mbind result_bind] in Htry; [|done].
  destruct (v06.is_spec_version_compatible j) eqn:Hcompat; cbn [negb] in Htry; [|done].
  destruct (Json.at_ j_signed "delegations" ≫= Json.get_map RolePubKeys.from_json)
    as [ds|] eqn:E3; cbn [mbind result_bind] in Htry; [|done].
  injection Htry as <-. cbn.
  unfold v06.is_spec_version_compatible in Hcompat.
  rewrite Hsigned in Hcompat. cbn [mbind result_bind] in Hcompat.
  rewrite E2 in Hcompat. unfold starts_with in Hcompat.
  repeat split; done.
Qed.

(** Reading a v0.6 root document succeeds only if its ["signed"]
    object has [type] equal to ["root"] and a [metadata_spec_version]
    starting with ["0.6."], the names of the delegations are exactly root
    and key_mgr, and every delegation has a non-empty list of public keys
    and a threshold of at least 1 ([v06_schema]); a document with a
    ["signed"] member that is not accepted is rejected with
    [role_metadata_error]. *)
Lemma v06_from_json_schema (j : json) (role0 : v06.RootRole) :
  m_type (v06.base role0) = "root"%string →
  (∀ role, v06.from_json j role0 = Ok role → v06_schema j role) ∧
  (∀ j_signed, Json.at_ j "signed" = Ok j_signed →
     (∃ role, v06.from_json j role0 = Ok role) ∨
     v06.from_json j role0 = Err role_metadata_error).
Proof.
  intros Hroot. split.
  - intros role Hparse. unfold v06.from_json in Hparse.
    destruct (Json.at_ j "signed") as [j_signed|] eqn:Hsigned;
      cbn [mbind result_bind] in Hparse; [|done].
    destruct (v06.from_json_try j j_signed role0) as [role1|e] eqn:Htry;
      [|destruct e; done].
    cbn [Json.catch_json mbind result_bind] in Hparse.
    case_bool_decide as Hdeleg; cbn [negb] in Hparse; [|done].
    case_bool_decide as Hmand; cbn [negb] in Hparse; [|done].
    injection Hparse as <-.
    destruct (v06_from_json_try_fields _ _ _ _ Hsigned Hroot Htry)
      as (Hty & Hsv & Hpre & Hver & Hds).
    exists j_signed. repeat split; try done.
    + specialize (Hdeleg name d H). simpl in Hdeleg.
      unfold v06.delegation_ok in Hdeleg.
      apply andb_true_iff in Hdeleg as [Hne _].
      apply negb_true_iff, bool_decide_eq_false in Hne. done.
    + specialize (Hdeleg name d H). simpl in Hdeleg.
      unfold v06.delegation_ok in Hdeleg.
      apply andb_true_iff in Hdeleg as [_ Hth].
      apply negb_true_iff, Z.eqb_neq in Hth.
      destruct (Json.at_ j_signed "delegations") as [jr|]; [|done].
      cbn [mbind result_bind] in Hds.
      destruct (get_map_values _ _ _ _ _ Hds H) as [ja Hja].
      apply RolePubKeys_from_json_range in Hja. lia.
  - intros j_signed Hsigned. unfold v06.from_json. rewrite Hsigned.
    cbn [mbind result_bind].
    destruct (v06.from_json_try j j_signed role0) as [role1|e] eqn:Htry.
    + cbn [Json.catch_json mbind result_bind].
      repeat (case_bool_decide; cbn [negb]; [|by right]). left. eauto.
    + right. apply v06_from_json_try_json_or_metadata in Htry as [-> | ->]; done.
Qed.

Example v06_from_json_schema_sample : v06_schema (sample_v06_json 1)
  (v06.MkRootRole (MkRoleBase "root" "0.6.0" 1 "json")
     (let d := RolePubKeys.mk [sample_pk "a"] 1 in
      <["root"%string := d]> (<["key_mgr"%string := d]> ∅))).
Proof.
  apply (v06_from_json_schema (sample_v06_json 1) v06.RootRole_new).
  - reflexivity.
  - vm_compute. reflexivity.
Defined.

(** A third delegation, or a missing one, is rejected. *)
Example v06_extra_delegation_rejected :
  let d := RolePubKeys.to_json (RolePubKeys.mk [sample_pk "a"] 1) in
  v06.from_json
    (JObj (<["signed" :=
        JObj (<["type" := JStr "root"]>
              (<["metadata_spec_version" := JStr "0.6.0"]>
              (<["version" := JNum 1]>
              (<["delegations" := JObj (<["root" := d]> (<["key_mgr" := d]>
                                         (<["targets" := d]> ∅)))]> ∅))))]> ∅))
    v06.RootRole_new = Err role_metadata_error ∧
  v06.from_json
    (JObj (<["signed" :=
        JObj (<["type" := JStr "root"]>
              (<["metadata_spec_version" := JStr "0.6.0"]>
              (<["version" := JNum 1]>
              (<["delegations" := JObj (<["root" := d]> ∅)]> ∅))))]> ∅))
    v06.RootRole_new = Err role_metadata_error.
Proof. split; vm_compute; reflexivity. Qed.

(** ** Documents without a ["signed"] member *)

(** C6 on the code: [j.at("signed")] is evaluated before the [try] block
    of [v1::from_json], so for a document without a ["signed"] member (or
    that is not an object) the exception of the JSON library leaves the
    function; it is not turned into [role_metadata_error] as the other
    violations of the schema are. *)
Theorem v1_from_json_without_signed (j : json) (role0 : v1.RootRole) :
  (∀ j_signed, Json.at_ j "signed" ≠ Ok j_signed) →
  v1.from_json j role0 = Err json_exception ∧
  v1.from_json j role0 ≠ Err role_metadata_error ∧
  ∀ role, ¬ v1_schema j role.
Proof.
  intros Hnone.
  assert (∀ role, ¬ v1_schema j role) as Hschema.
  { intros role (j_signed & Hs & _). exact (Hnone j_signed Hs). }
  unfold v1.from_json.
  destruct (Json.at_ j "signed") as [j_signed|e] eqn:Hat.
  - by destruct (Hnone j_signed).
  - apply at_json_only in Hat as ->. cbn [mbind result_bind]. done.
Qed.

Lemma v1_from_json_without_signed_witness :
  v1.from_json (JObj ∅) v1.RootRole_new = Err json_exception.
Proof.
  apply (v1_from_json_without_signed (JObj ∅) v1.RootRole_new).
  intros j_signed. vm_compute. discriminate.
Defined.

(** C7 on the code: as in the v1 reader, [j.at("signed")] is evaluated
    before the [try] block of [v06::from_json]; a document without a
    ["signed"] member makes the exception of the JSON library leave the
    function instead of [role_metadata_error]. *)
Theorem v06_from_json_without_signed (j : json) (role0 : v06.RootRole) :
  (∀ j_signed, Json.at_ j "signed" ≠ Ok j_signed) →
  v06.from_json j role0 = Err json_exception ∧
  v06.from_json j role0 ≠ Err role_metadata_error ∧
  ∀ role, ¬ v06_schema j role.
Proof.
  intros Hnone.
  assert (∀ role, ¬ v06_schema j role) as Hschema.
  { intros role (j_signed & Hs & _). exact (Hnone j_signed Hs). }
  unfold v06.from_json.
  destruct (Json.at_ j "signed") as [j_signed|e] eqn:Hat.
  - by destruct (Hnone j_signed).
  - apply at_json_only in Hat as ->. cbn [mbind result_bind]. done.
Qed.

Lemma v06_from_json_without_signed_witness :
  v06.from_json (JObj ∅) v06.RootRole_new = Err json_exception.
Proof.
  apply (v06_from_json_without_signed (JObj ∅) v06.RootRole_new).
  intros j_signed. vm_compute. discriminate.
Defined.

End SchemaFacts.

(** * Properties of the update state machine and of the trust store *)

Module TrustFacts.

(** ** Dialect of a candidate *)



Section Trust.
Context `{Ed25519Lib}.
Variable dump : json → string.
Variables bin_signature bin_pk : list byte.
Variable fs_exists : string → bool.
Variable fs_read : string → result json.

#[local] Abbreviation create_update' := (create_update dump bin_signature bin_pk).
#[local] Abbreviation update' := (update dump bin_signature bin_pk).
#[local] Abbreviation v1_RootRole' := (v1_RootRole dump bin_signature bin_pk).
#[local] Abbreviation v06_RootRole' := (v06_RootRole dump bin_signature bin_pk).
#[local] Abbreviation check_role_signatures' :=
  (check_role_signatures dump bin_signature bin_pk).


(** ** The version rule of [update] *)

(** When [version() + 1] does not wrap around, a candidate that passes
    both signature checks is accepted exactly when its version is the
    current one plus 1; a larger version gets [role_metadata_error], a
    smaller or equal one [rollback_error]. *)
Lemma update_version_rule (this root_update : RootRole) (j : json) :
  0 ≤ version this < SIZE_MAX →
  create_update' this j = Ok root_update →
  check_role_signatures' this j root_update = Ok tt →
  (version this + 1 < version root_update → update' this j = Err role_metadata_error) ∧
  (version root_update ≤ version this → update' this j = Err rollback_error) ∧
  (version root_update = version this + 1 → update' this j = Ok root_update) ∧
  (∀ r, update' this j = Ok r → r = root_update ∧ version r = version this + 1).
Proof.
  intros Hv Hc Hs. unfold update. rewrite Hc. cbn [mbind result_bind]. rewrite Hs.
  cbn [mbind result_bind].
  unfold size_t_wrap. rewrite Z.mod_small by (unfold SIZE_MAX in Hv; lia).
  destruct (Z.eqb_spec (version root_update) (version this + 1)) as [Heq|Hne];
    cbn [negb].
  - split; [intros; lia|]. split; [intros; lia|]. split; [done|].
    intros r [= <-]. done.
  - destruct (Z.ltb_spec (version this + 1) (version root_update));
      (split; [intros; (done || lia)|]); (split; [intros; (done || lia)|]);
      (split; [intros; lia|]); intros r Hr; discriminate Hr.
Qed.

(** At the largest version [version() + 1] is 0: a candidate of version
    0 that passes both signature checks is returned. *)
Lemma update_version_wraps (this root_update : RootRole) (j : json) :
  version this = SIZE_MAX →
  create_update' this j = Ok root_update →
  check_role_signatures' this j root_update = Ok tt →
  version root_update = 0 →
  update' this j = Ok root_update.
Proof.
  intros Hv Hc Hs H0. unfold update. rewrite Hc. cbn [mbind result_bind].
  rewrite Hs. cbn [mbind result_bind]. rewrite Hv, H0. reflexivity.
Qed.

Lemma update_Ok_inv (this r : RootRole) (j : json) :
  update' this j = Ok r →
  create_update' this j = Ok r ∧ check_role_signatures' this j r = Ok tt ∧
  version r = size_t_wrap (version this + 1).
Proof.
  unfold update. destruct (create_update' this j) as [c|]; [|done].
  cbn [mbind result_bind].
  destruct (check_role_signatures' this j c) as [[]|] eqn:Hs; [|done].
  cbn [mbind result_bind].
  destruct (Z.eqb_spec (version c) (size_t_wrap (version this + 1))); cbn [negb].
  - intros [= <-]. done.
  - destruct (_ <? _); done.
Qed.

(** ** The trust store *)

#[local] Abbreviation RepoTrust_new' :=
  (RepoTrust_new dump bin_signature bin_pk fs_exists fs_read).
#[local] Abbreviation v1_RootRole_path' :=
  (v1_RootRole_path dump bin_signature bin_pk fs_exists fs_read).

(** The name of a root file, as [read_file] wants it for a role that has
    just been constructed. *)
Lemma read_file_fresh_v1 (p : string) :
  read_file fs_exists fs_read (V1 v1.RootRole_new) p false =
    if fs_exists p then
      match match_name (filename p) with
      | Some (_, ty, ext) =>
          if String.eqb ext "json" && String.eqb ty "root" then fs_read p
          else Err role_file_error
      | None => Err role_file_error
      end
    else Err role_file_error.
Proof.
  unfold read_file. destruct (fs_exists p); cbn [negb]; [|done].
  destruct (match_name (filename p)) as [[[v ty] ext]|]; [|done].
  change (file_ext (V1 v1.RootRole_new)) with "json"%string.
  change (type (V1 v1.RootRole_new)) with "root"%string.
  destruct (String.eqb ext "json"), (String.eqb ty "root"); done.
Qed.

Lemma v1_schema_spec_version j role :
  v1_schema j role → signed_field_starts_with j "spec_version" "1.".
Proof.
  intros (j_signed & Hsigned & _ & Hsv & Hprefix & _).
  destruct j as [| | | | |m]; try done. cbn [Json.at_] in Hsigned.
  destruct (m !! "signed") as [js|] eqn:Hm; [|done]. injection Hsigned as ->.
  destruct j_signed as [| | | | |ms]; try done. cbn [Json.at_] in Hsv.
  destruct (ms !! "spec_version") as [[| | |s| |]|] eqn:Hs; try done.
  cbn [mbind result_bind Json.get_string] in Hsv. injection Hsv as Hsv.
  rewrite <- Hsv in Hprefix. exists m, ms, s. done.
Qed.

(** C5. For both values of [SpecVersion] the constructor of the trust
    store reads the trusted root file with the v1 reader. When it returns
    a store, the file exists, is named as a root file, and the document
    read from it has been accepted by [v1::from_json] on a fresh v1 root:
    it satisfies the v1 schema, its [spec_version] starting with ["1."],
    its signatures have been checked against the root keys it declares,
    and the store holds the [v1::RootRole] read from it, never a v0.6
    root. For a file that exists and is named as a root file the outcome
    is the outcome of these steps on its document, whichever
    [SpecVersion] is asked for. A document that [v1::from_json] rejects,
    such as a v0.6 root without a [spec_version] starting with ["1."],
    gives no store, also when [kV06] is asked for. *)
Theorem RepoTrust_reads_v1 (url local_trusted_root : string) (spec_version : SpecVersion) :
  (∀ t, RepoTrust_new' url local_trusted_root spec_version = Ok t →
        fs_exists local_trusted_root = true ∧
        (∃ v, match_name (filename local_trusted_root) = Some (v, "root", "json")%string) ∧
        ∃ j r, fs_read local_trusted_root = Ok j ∧
               v1.from_json j v1.RootRole_new = Ok r ∧
               v1_schema j r ∧
               signed_field_starts_with j "spec_version" "1." ∧
               check_role_signatures' (V1 r) j (V1 r) = Ok tt ∧
               t = MkRepoTrust url (V1 r)) ∧
  (∀ v j, fs_exists local_trusted_root = true →
          match_name (filename local_trusted_root) = Some (v, "root", "json")%string →
          fs_read local_trusted_root = Ok j →
          RepoTrust_new' url local_trusted_root spec_version =
            (r ← v1.from_json j v1.RootRole_new;
             check_role_signatures' (V1 r) j (V1 r);;
             Ok (MkRepoTrust url (V1 r)))) ∧
  (∀ j, fs_read local_trusted_root = Ok j →
        (is_Ok (v1.from_json j v1.RootRole_new) = false
         ∨ ¬ signed_field_starts_with j "spec_version" "1.") →
        is_Ok (RepoTrust_new' url local_trusted_root spec_version) = false) ∧
  (∀ t r, RepoTrust_new' url local_trusted_root spec_version = Ok t → p_root t ≠ V06 r).
Proof.
  assert (RepoTrust_new' url local_trusted_root spec_version =
          (j ← read_file fs_exists fs_read (V1 v1.RootRole_new) local_trusted_root false;
           r ← v1.from_json j v1.RootRole_new;
           check_role_signatures' (V1 r) j (V1 r);;
           Ok (MkRepoTrust url (V1 r)))) as Heq.
  { destruct spec_version; unfold RepoTrust_new, v1_RootRole_path;
      destruct (read_file _ _ _ _ _) as [j|]; cbn [mbind result_bind]; try done;
      destruct (v1.from_json j v1.RootRole_new) as [r|]; cbn [mbind result_bind]; try done;
      destruct (check_role_signatures' (V1 r) j (V1 r)) as [[]|]; done. }
  rewrite Heq. clear Heq. rewrite read_file_fresh_v1.
  assert (∀ t, (j ← (if fs_exists local_trusted_root then
                       match match_name (filename local_trusted_root) with
                       | Some (_, ty, ext) =>
                           if String.eqb ext "json" && String.eqb ty "root"
                           then fs_read local_trusted_root
                           else Err role_file_error
                       | None => Err role_file_error
                       end
                     else Err role_file_error);
                r ← v1.from_json j v1.RootRole_new;
                check_role_signatures' (V1 r) j (V1 r);;
                Ok (MkRepoTrust url (V1 r))) = Ok t →
            fs_exists local_trusted_root = true ∧
            (∃ v, match_name (filename local_trusted_root)
                  = Some (v, "root", "json")%string) ∧
            ∃ j r, fs_read local_trusted_root = Ok j ∧
                   v1.from_json j v1.RootRole_new = Ok r ∧
                   v1_schema j r ∧
                   signed_field_starts_with j "spec_version" "1." ∧
                   check_role_signatures' (V1 r) j (V1 r) = Ok tt ∧
                   t = MkRepoTrust url (V1 r)) as Hinv.
  { intros t. destruct (fs_exists local_trusted_root); [|done].
    destruct (match_name (filename local_trusted_root)) as [[[v ty] ext]|]; [|done].
    destruct (String.eqb_spec ext "json") as [->|]; cbn [andb]; [|done].
    destruct (String.eqb_spec ty "root") as [->|]; [|done].
    destruct (fs_read local_trusted_root) as [j|]; cbn [mbind result_bind]; [|done].
    destruct (v1.from_json j v1.RootRole_new) as [r|] eqn:Hparse;
      cbn [mbind result_bind]; [|done].
    destruct (check_role_signatures' (V1 r) j (V1 r)) as [[]|] eqn:Hc;
      cbn [mbind result_bind]; [|done].
    intros [= <-]. split; [done|]. split; [by exists v|]. exists j, r.
    assert (v1_schema j r) as Hschema
      by (by apply (SchemaFacts.v1_from_json_schema j v1.RootRole_new)).
    split; [done|]. split; [done|]. split; [done|].
    split; [by apply (v1_schema_spec_version j r)|]. done. }
  split; [exact Hinv|]. split; [|split].
  - intros v j -> -> ->. reflexivity.
  - intros j Hj Hbad.
    match goal with |- is_Ok ?m = false => destruct m as [t|]; [|done] end.
    exfalso. destruct (Hinv t eq_refl) as (_ & _ & j' & r & Hj' & Hparse & _ & Hsv & _).
    rewrite Hj in Hj'. injection Hj' as <-.
    destruct Hbad as [Hno|Hno]; [by rewrite Hparse in Hno|done].
  - intros t r Hm. apply Hinv in Hm as (_ & _ & j & r' & _ & _ & _ & _ & _ & ->). done.
Qed.

End Trust.

(** A store built from a v1 root file, asked for as [kV06]: the root it
    holds is the v1 root of the file. *)
Lemma RepoTrust_reads_v1_witness :
  let fs_exists := λ _ : string, true in
  let fs_read := λ _ : string, Ok (sample_v1_json 1) in
  @RepoTrust_new sample_lib sample_dump (repeat x00 64) (repeat x00 32) fs_exists fs_read
    "https://repo" "1.root.root.json" kV06
  = Ok (MkRepoTrust "https://repo" (V1 (sample_v1_role 1))).
Proof.
  cbv zeta.
  rewrite (proj1 (proj2 (@RepoTrust_reads_v1 sample_lib sample_dump (repeat x00 64)
                           (repeat x00 32) (λ _, true) (λ _, Ok (sample_v1_json 1))
                           "https://repo" "1.root.root.json" kV06))
             "1"%string (sample_v1_json 1) eq_refl);
    [vm_compute; reflexivity | vm_compute; reflexivity | reflexivity].
Defined.

(** A well-formed v0.6 trusted root: the store asked for [kV06] rejects
    it, as the v1 reader does, while the v0.6 reader accepts it. *)
Example RepoTrust_kV06_on_v06_root :
  let fs_exists := λ _ : string, true in
  let fs_read := λ _ : string, Ok (sample_v06_json 1) in
  @RepoTrust_new sample_lib sample_dump (repeat x00 64) (repeat x00 32) fs_exists fs_read
    "https://repo" "1.root.root.json" kV06 = Err role_metadata_error ∧
  is_Ok (@v06_RootRole_path sample_lib sample_dump (repeat x00 64) (repeat x00 32)
           fs_exists fs_read "1.root.root.json") = true.
Proof. split; vm_compute; reflexivity. Qed.

(** C2 on the code: the rollback check of [update] compares with
    [version() + 1] in [size_t]. With the largest version in the store,
    a candidate of version 0 that passes both signature checks is
    accepted: [update] returns it although its version is not above the
    current one. *)
Theorem update_accepts_version_zero_after_SIZE_MAX :
  @v1_RootRole sample_lib sample_dump (repeat x00 64) (repeat x00 32)
    (sample_v1_json SIZE_MAX) = Ok (sample_v1_role SIZE_MAX) ∧
  version (V1 (sample_v1_role SIZE_MAX)) = SIZE_MAX ∧
  @update sample_lib sample_dump (repeat x00 64) (repeat x00 32)
    (V1 (sample_v1_role SIZE_MAX)) (sample_v1_json 0) = Ok (V1 (sample_v1_role 0)) ∧
  version (V1 (sample_v1_role 0)) = 0 ∧
  version (V1 (sample_v1_role 0)) ≤ version (V1 (sample_v1_role SIZE_MAX)).
Proof.
  split; [vm_compute; reflexivity|].
  split; [reflexivity|].
  split; [vm_compute; reflexivity|].
  split; [reflexivity|].
  vm_compute. discriminate.
Qed.

(** The dialects on the sample documents: a v0.6 store takes a v0.6
    candidate, a v1 store refuses it, and a document with neither version
    field is refused by both. *)
Example create_update_samples :
  @create_update sample_lib sample_dump (repeat x00 64) (repeat x00 32)
    (V06 v06.RootRole_new) (sample_v06_json 2)
    = V06 <$> @v06_RootRole sample_lib sample_dump (repeat x00 64) (repeat x00 32)
                (sample_v06_json 2) ∧
  is_Ok (@create_update sample_lib sample_dump (repeat x00 64) (repeat x00 32)
           (V06 v06.RootRole_new) (sample_v06_json 2)) = true ∧
  is_Ok (@create_update sample_lib sample_dump (repeat x00 64) (repeat x00 32)
           (V06 v06.RootRole_new) (sample_v1_json 2)) = true ∧
  @create_update sample_lib sample_dump (repeat x00 64) (repeat x00 32)
    (V1 (sample_v1_role 1)) (sample_v06_json 2) = Err spec_version_error ∧
  @create_update sample_lib sample_dump (repeat x00 64) (repeat x00 32)
    (V1 (sample_v1_role 1)) (JObj ∅) = Err spec_version_error ∧
  @create_update sample_lib sample_dump (repeat x00 64) (repeat x00 32)
    (V06 v06.RootRole_new) (JObj ∅) = Err spec_version_error.
Proof. repeat split; vm_compute; reflexivity. Qed.

(** The scenarios of the specification on the sample documents: a
    rotation from version 2 to 3 succeeds, version 2 again is a rollback,
    version 4 skips ahead. *)
Example update_scenarios :
  @v1_RootRole sample_lib sample_dump (repeat x00 64) (repeat x00 32)
    (sample_v1_json 2) = Ok (sample_v1_role 2) ∧
  @update sample_lib sample_dump (repeat x00 64) (repeat x00 32)
    (V1 (sample_v1_role 2)) (sample_v1_json 3) = Ok (V1 (sample_v1_role 3)) ∧
  @update sample_lib sample_dump (repeat x00 64) (repeat x00 32)
    (V1 (sample_v1_role 2)) (sample_v1_json 2) = Err rollback_error ∧
  @update sample_lib sample_dump (repeat x00 64) (repeat x00 32)
    (V1 (sample_v1_role 2)) (sample_v1_json 4) = Err role_metadata_error.
Proof. repeat split; vm_compute; reflexivity. Qed.

End TrustFacts.

(** * The keyring of a cross-dialect upgrade *)

Module UpgradeFacts.

(** ** Collecting the keys of a role *)

Lemma pubkey_map_lookup l k :
  pubkey_map l !! k = if decide (k ∈ l) then Some (Key.from_ed25519 k) else None.
Proof.
  induction l as [|k' l IH]; cbn [pubkey_map foldr].
  - rewrite lookup_empty. destruct (decide (k ∈ [])) as [Hin|]; [|done].
    by apply not_elem_of_nil in Hin.
  - fold (pubkey_map l). rewrite lookup_insert.
    destruct (decide (k' = k)) as [->|Hne].
    + destruct (decide (k ∈ k :: l)) as [|Hnin]; [done|].
      exfalso. apply Hnin, list_elem_of_here.
    + rewrite IH. destruct (decide (k ∈ l)) as [Hin|Hnin].
      * destruct (decide (k ∈ k' :: l)) as [|Hnin]; [done|].
        exfalso. by apply Hnin, list_elem_of_further.
      * destruct (decide (k ∈ k' :: l)) as [Hin|]; [|done].
        apply elem_of_cons in Hin as [?|?]; congruence.
Qed.

Lemma collect_keys_acc (key : string → result Key.t) l : ∀ acc,
  (∀ k, k ∈ l → key k = Ok (Key.from_ed25519 k)) →
  foldl (λ acc id,
           role_keys ← acc;
           k ← key id;
           Ok (match role_keys !! id with
               | Some _ => role_keys
               | None => <[id := k]> role_keys
               end))
        (Ok acc) l = Ok (acc ∪ pubkey_map l).
Proof.
  induction l as [|k l IH]; intros acc Hkey; simpl.
  - by rewrite map_union_empty.
  - rewrite (Hkey k) by apply list_elem_of_here. cbn [mbind result_bind].
    rewrite IH by (intros; apply Hkey; by apply list_elem_of_further).
    f_equal. apply map_eq. intros i.
    rewrite !lookup_union, lookup_insert.
    destruct (acc !! k) eqn:Hk.
    + destruct (decide (k = i)) as [<-|]; [|done].
      rewrite Hk. simpl. by rewrite union_Some_l.
    + rewrite lookup_insert. destruct (decide (k = i)) as [<-|]; [|done].
      rewrite Hk. simpl. by rewrite union_Some_l.
Qed.

Lemma collect_keys_pubkey_map (key : string → result Key.t) l :
  (∀ k, k ∈ l → key k = Ok (Key.from_ed25519 k)) →
  collect_keys key l = Ok (pubkey_map l).
Proof.
  intros Hkey. unfold collect_keys. rewrite collect_keys_acc by done.
  by rewrite map_empty_union.
Qed.

(** ** Documents written and read back *)

Lemma Key_json_round_trip k : Key.from_json (Key.to_json k) = Ok k.
Proof. destruct k. reflexivity. Qed.

Lemma strings_json_round_trip l :
  Json.get_vector Json.get_string (Json.of_strings l) = Ok l.
Proof.
  unfold Json.get_vector, Json.of_strings.
  induction l as [|s l IH]; [done|].
  cbn [fmap list_fmap mapM]. rewrite IH. done.
Qed.

Lemma RoleKeys_json_round_trip rk :
  RoleKeys.from_json (RoleKeys.to_json rk) =
    Ok (RoleKeys.mk (RoleKeys.keyids rk) (size_t_wrap (RoleKeys.threshold rk))).
Proof.
  destruct rk as [ids th]. unfold RoleKeys.from_json, RoleKeys.to_json.
  change (Json.at_ (JObj _) "keyids") with (Ok (Json.of_strings ids)).
  change (Json.at_ (JObj _) "threshold") with (Ok (JNum th)).
  cbn [mbind result_bind]. rewrite strings_json_round_trip. done.
Qed.

Lemma map_json_round_trip {A} (read : json → result A) (write : A → json)
    (norm : A → A) (m : gmap string A) :
  (∀ a, read (write a) = Ok (norm a)) →
  Json.get_map read (Json.of_map write m) = Ok (norm <$> m).
Proof.
  intros Hrt. unfold Json.get_map, Json.of_map, Json.map_traverse.
  rewrite bool_decide_eq_true_2.
  - f_equal. apply map_eq. intros k.
    rewrite lookup_omap, !lookup_fmap.
    destruct (m !! k); simpl; [|done]. by rewrite Hrt.
  - intros k j. rewrite lookup_fmap.
    destruct (m !! k); simpl; [|done]. intros [= <-]. by rewrite Hrt.
Qed.

Lemma map_traverse_fmap {A B} e (f : A → result B) (g : A → B) (m : gmap string A) :
  (∀ k a, m !! k = Some a → f a = Ok (g a)) →
  Json.map_traverse e f m = Ok (g <$> m).
Proof.
  intros Hf. unfold Json.map_traverse. rewrite bool_decide_eq_true_2.
  - f_equal. apply map_eq. intros k. rewrite lookup_omap, lookup_fmap.
    destruct (m !! k) as [a|] eqn:Hk; simpl; [|done]. by rewrite (Hf k a Hk).
  - intros k a Hk. by rewrite (Hf k a Hk).
Qed.

(** ** The keyrings of a v0.6 root *)

Lemma v06_keys_spec (r : v06.RootRole) :
  v06.keys r = Ok (full_keys <$> v06.m_delegations r).
Proof.
  unfold v06.keys. apply map_traverse_fmap. intros k d _.
  by rewrite collect_keys_pubkey_map.
Qed.

Section Upgrade.
Context `{Ed25519Lib}.
Variable dump : json → string.
Variables bin_signature bin_pk : list byte.

(** C4. For a v0.6 root with its two delegations, the keyring that
    [check_role_signatures] takes from the current root, the ["root"]
    entry of its [keys()], is the keyring of the ["root"] role of
    [upgraded_signable()] projected through its keys: the public keys of
    the root delegation as key ids, with its threshold. The check of a
    v1 candidate against a v0.6 current root in [update] is therefore the
    check against the root keyring of the v1-equivalent synthesis. *)
Theorem upgrade_checks_against_synthesised_root
    (r : v06.RootRole) (d_root d_key_mgr : RolePubKeys.t) :
  v06.m_delegations r !! "root" = Some d_root →
  v06.m_delegations r !! "key_mgr" = Some d_key_mgr →
  0 ≤ RolePubKeys.threshold d_root ≤ SIZE_MAX →
  (k ← keys (V06 r); v06.map_at k "root") = Ok (full_keys d_root) ∧
  upgraded_root_keyring r = (k ← keys (V06 r); v06.map_at k "root") ∧
  ∀ (j : json) (candidate : v1.RootRole),
    check_role_signatures dump bin_signature bin_pk (V06 r) j (V1 candidate) =
      (signed ← Json.at_ j "signed";
       sigs ← v1.signatures j;
       root_keys ← upgraded_root_keyring r;
       check_signatures bin_signature bin_pk (dump signed) sigs root_keys).
Proof.
  intros Hroot Hmgr Hth.
  assert ((k ← keys (V06 r); v06.map_at k "root") = Ok (full_keys d_root)) as Hused.
  { cbn [keys]. rewrite v06_keys_spec. cbn [mbind result_bind].
    unfold v06.map_at. by rewrite lookup_fmap, Hroot. }
  assert (upgraded_root_keyring r = Ok (full_keys d_root)) as Hup.
  { unfold upgraded_root_keyring, v06.upgraded_signable.
    unfold v06.map_at. rewrite Hroot. cbn [mbind result_bind].
    rewrite Hmgr. cbn [mbind result_bind].
    rewrite v06_keys_spec. cbn [mbind result_bind].
    rewrite !lookup_fmap, Hroot, Hmgr.
    cbn [fmap option_fmap option_map mbind result_bind].
    cbn [full_keys RoleFullKeys.keys].
    set (ks := pubkey_map (RolePubKeys.pubkeys d_root)
               ∪ pubkey_map (RolePubKeys.pubkeys d_key_mgr)).
    set (roles_map :=
      <["root"%string := RolePubKeys.to_role_keys d_root]>
      (<["targets"%string := RolePubKeys.to_role_keys d_key_mgr]>
      (<["snapshot"%string := RoleKeys.mk [] 1]>
      (<["timestamp"%string := RoleKeys.mk [] 1]> (∅ : gmap string RoleKeys.t))))).
    match goal with
    | |- context [Json.at_ (JObj ?m) "keys"] =>
        change (Json.at_ (JObj m) "keys") with (Ok (Json.of_map Key.to_json ks));
        change (Json.at_ (JObj m) "roles")
          with (Ok (JObj (RoleKeys.to_json <$> roles_map)))
    end.
    cbn [mbind result_bind].
    rewrite (map_json_round_trip Key.from_json Key.to_json id)
      by apply Key_json_round_trip.
    rewrite map_fmap_id. cbn [mbind result_bind].
    change (JObj (RoleKeys.to_json <$> roles_map))
      with (Json.of_map RoleKeys.to_json roles_map).
    rewrite (map_json_round_trip RoleKeys.from_json RoleKeys.to_json
               (λ rk, RoleKeys.mk (RoleKeys.keyids rk) (size_t_wrap (RoleKeys.threshold rk))))
      by apply RoleKeys_json_round_trip.
    cbn [mbind result_bind]. unfold v1.keys. cbn [v1.m_roles v1.m_keys].
    rewrite (map_traverse_fmap _ _
               (λ rk, RoleFullKeys.mk (pubkey_map (RoleKeys.keyids rk))
                                      (RoleKeys.threshold rk))).
    - cbn [mbind result_bind]. unfold v06.map_at.
      rewrite !lookup_fmap. unfold roles_map. rewrite lookup_insert_eq.
      cbn. unfold full_keys, size_t_wrap. do 3 f_equal.
      apply Z.mod_small. unfold SIZE_MAX in Hth. lia.
    - intros name rk Hrk. apply lookup_fmap_Some in Hrk as (rk0 & <- & Hrk0).
      cbn [RoleKeys.keyids RoleKeys.threshold].
      rewrite collect_keys_pubkey_map; [done|].
      intros k Hk. unfold v1.key_at, ks. rewrite lookup_union, !pubkey_map_lookup.
      unfold roles_map in Hrk0.
      repeat (rewrite lookup_insert in Hrk0;
              destruct (decide (_ = name)) as [?|?]; [injection Hrk0 as <-|]);
        cbn [RolePubKeys.to_role_keys RoleKeys.keyids] in Hk.
      + rewrite decide_True by done. by destruct (decide _).
      + rewrite (decide_True _ _ Hk). by destruct (decide _).
      + by apply not_elem_of_nil in Hk.
      + by apply not_elem_of_nil in Hk.
      + by rewrite lookup_empty in Hrk0. }
  split; [exact Hused|]. split; [by rewrite Hup, Hused|].
  intros j candidate. unfold check_role_signatures. rewrite Hup.
  destruct (Json.at_ j "signed") as [signed|]; [|done].
  cbn [mbind result_bind signatures].
  destruct (v1.signatures j) as [sigs|]; [|done].
  cbn [mbind result_bind keys]. rewrite v06_keys_spec.
  cbn [mbind result_bind]. unfold v06.map_at. rewrite lookup_fmap, Hroot.
  reflexivity.
Qed.

End Upgrade.

Lemma upgrade_checks_against_synthesised_root_witness :
  ∃ r, v06.from_json (sample_v06_json 1) v06.RootRole_new = Ok r ∧
       upgraded_root_keyring r = (k ← keys (V06 r); v06.map_at k "root").
Proof.
  eexists. split; [vm_compute; reflexivity|].
  refine (proj1 (proj2 (@upgrade_checks_against_synthesised_root sample_lib sample_dump
            (repeat x00 64) (repeat x00 32) _
            (RolePubKeys.mk [sample_pk "a"] 1) (RolePubKeys.mk [sample_pk "a"] 1)
            _ _ _))).
  - vm_compute. reflexivity.
  - vm_compute. reflexivity.
  - vm_compute. split; discriminate.
Defined.

End UpgradeFacts.

(** * Further properties of the hexadecimal codec *)

Module HexCodecMore.
Import HexCodec HexText HexCodecFacts.

Lemma byte_of_Z_of_byte ch : byte_of_Z (Z_of_byte ch) = ch.
Proof. destruct ch; vm_compute; reflexivity. Qed.

Lemma Z_of_byte_range ch : 0 ≤ Z_of_byte ch < 256.
Proof. destruct ch; vm_compute; split; congruence. Qed.

Lemma Z_of_byte_of_Z z : 0 ≤ z < 256 → Z_of_byte (byte_of_Z z) = z.
Proof.
  intros Hz. unfold byte_of_Z, Z_of_byte, uchar. rewrite Z.mod_small by lia.
  destruct (Byte.of_N (Z.to_N z)) as [b|] eqn:Hb.
  - apply Byte.to_of_N in Hb. rewrite Hb. lia.
  - apply Byte.of_N_None_iff in Hb. lia.
Qed.

Lemma c_val_hex_value ch :
  is_hex_char ch = true →
  c_val (Z_of_byte ch) = hex_value ch ∧ 0 ≤ hex_value ch < 16.
Proof.
  destruct ch; intros Hh; try (exfalso; vm_compute in Hh; discriminate Hh);
    vm_compute; repeat split; congruence.
Qed.

Lemma lor_nibbles a b :
  0 ≤ a < 16 → 0 ≤ b < 16 → Z.lor (uchar (a * 16)) b = 16 * a + b.
Proof.
  intros Ha Hb.
  rewrite <- (Z2Nat.id a), <- (Z2Nat.id b) by lia.
  assert (Z.to_nat a < 16)%nat as Hn by lia.
  assert (Z.to_nat b < 16)%nat as Hm by lia.
  set (n := Z.to_nat a) in *. set (m := Z.to_nat b) in *.
  clearbody n m. clear Ha Hb.
  do 16 (destruct n as [|n];
         [do 16 (destruct m as [|m]; [vm_compute; reflexivity|]); lia|]).
  lia.
Qed.

Lemma hex_digit_to_lower ch :
  is_hex_char ch = true → hex_digit (hex_value ch) = to_lower ch.
Proof.
  destruct ch; intros Hh; try (exfalso; vm_compute in Hh; discriminate Hh);
    vm_compute; reflexivity.
Qed.

(** ** The destination outside the decoded bytes *)

Lemma hex2bin_loop_frame maxlen ign rest : ∀ v,
  0 ≤ v_bin_pos v →
  let v' := hex2bin_loop maxlen ign rest v in
  length (v_bin v') = length (v_bin v) ∧
  v_bin_pos v ≤ v_bin_pos v' ∧
  (v_bin_pos v' ≤ maxlen ∨ v_bin_pos v' = v_bin_pos v) ∧
  ∀ i, (i < Z.to_nat (v_bin_pos v) ∨ Z.to_nat (v_bin_pos v') ≤ i)%nat →
       v_bin v' !! i = v_bin v !! i.
Proof.
  induction rest as [|ch rest IH]; intros v Hbp; cbv zeta.
  - simpl. repeat split; auto; lia.
  - destruct v as [bin bp hp r acc st e]. cbn [hex2bin_loop].
    cbn [v_bin v_bin_pos v_hex_pos v_ret v_c_acc v_state v_errno] in *.
    destruct (Z.lor _ _ =? 0).
    + destruct ign as [ign|]; [destruct (_ && _)|].
      * apply (IH (MkVars bin bp (hp + 1) r acc st e)). exact Hbp.
      * cbn. repeat split; auto; lia.
      * cbn. repeat split; auto; lia.
    + destruct (Z.leb_spec maxlen bp) as [Hfull|Hroom].
      { cbn. repeat split; auto; lia. }
      destruct (st =? 0).
      * apply (IH (MkVars bin bp (hp + 1) r (uchar (c_val (Z_of_byte ch) * 16))
                          (uchar (Z.lnot st)) e)). exact Hbp.
      * specialize (IH (MkVars (<[Z.to_nat bp:=byte_of_Z (Z.lor acc (c_val (Z_of_byte ch)))]> bin)
                               (bp + 1) (hp + 1) r acc (uchar (Z.lnot st)) e)).
        cbv zeta in IH.
        cbn [v_bin v_bin_pos v_hex_pos v_ret v_c_acc v_state v_errno] in IH.
        destruct IH as (Hlen & Hle & Hmax & Hout); [lia|].
        rewrite length_insert in Hlen.
        split; [exact Hlen|]. split; [lia|]. split; [lia|].
        intros i Hi. rewrite Hout by lia.
        apply list_lookup_insert_ne. lia.
Qed.

Lemma hex2bin_bin_out bin bin_maxlen hex hex_len ignore want_bin_len want_hex_end :
  bin_out (hex2bin bin bin_maxlen hex hex_len ignore want_bin_len want_hex_end) =
  v_bin (hex2bin_loop bin_maxlen ignore (take (Z.to_nat hex_len) hex)
           (MkVars bin 0 0 0 0 0 None)).
Proof.
  unfold hex2bin.
  destruct (negb (v_state _ =? 0)); destruct want_hex_end;
    try destruct (negb (_ =? hex_len)); reflexivity.
Qed.

(** The outcome of the loop in terms of [scan], when the loop starts at
    the beginning of the input. *)
Lemma hex2bin_loop_outcome bin bin_maxlen ignore hex :
  0 ≤ bin_maxlen →
  let d := fst (scan ignore hex false) in
  let n := snd (scan ignore hex false) in
  let v' := hex2bin_loop bin_maxlen ignore hex (MkVars bin 0 0 0 0 0 None) in
  (n ≤ length hex)%nat ∧
  (Z.of_nat d ≤ 2 * bin_maxlen →
     v_ret v' = 0 ∧ v_errno v' = None ∧ v_hex_pos v' = Z.of_nat n ∧
     v_bin_pos v' = Z.of_nat d / 2 ∧
     v_state v' = (if Nat.odd d then 255 else 0)) ∧
  (2 * bin_maxlen < Z.of_nat d →
     v_ret v' = -1 ∧ v_errno v' = Some ERANGE ∧ v_state v' = 0 ∧
     0 ≤ v_hex_pos v' < Z.of_nat (length hex) ∧
     0 ≤ v_bin_pos v' ≤ bin_maxlen).
Proof.
  intros Hmax.
  pose proof (hex2bin_loop_scan bin_maxlen ignore hex (MkVars bin 0 0 0 0 0 None)) as H.
  pose proof (hex2bin_loop_frame bin_maxlen ignore hex (MkVars bin 0 0 0 0 0 None)) as Hf.
  pose proof (scan_le ignore hex false) as Hle.
  vars_simpl. cbn [Z.eqb negb] in H. cbv zeta in Hf. vars_simpl.
  destruct (scan ignore hex false) as [d n]. vars_simpl.
  destruct H as [Ha Hb]; [auto|lia|lia|].
  destruct Hf as (_ & Hpos & Hbound & _); [lia|].
  set (v' := hex2bin_loop _ _ _ _) in *. clearbody v'.
  split; [exact Hle|]. split.
  - intros Hfit. destruct Ha as (Hret & Herr & Hhp & Hst & Hdig); [lia|].
    unfold digits_taken, pending in Hdig.
    split; [lia|]. split; [done|]. split; [lia|].
    destruct (Nat.odd d) eqn:Hodd.
    + apply Nat.odd_spec in Hodd as [k Hk].
      destruct Hst as [Hst|Hst]; rewrite Hst in *; cbn [Z.eqb negb] in *; [lia|].
      split; [|done]. apply Z.div_unique with (r := 1); lia.
    + assert (Nat.Even d) as [k Hk].
      { apply Nat.even_spec. rewrite <- Nat.negb_odd, Hodd. done. }
      destruct Hst as [Hst|Hst]; rewrite Hst in *; cbn [Z.eqb negb] in *; [|lia].
      split; [|done]. apply Z.div_unique with (r := 0); lia.
  - intros Hbig. destruct Hb as (Hret & Herr & Hst & Hhp); [lia|].
    repeat split; try done; lia.
Qed.

(** X1. [hex2bin] returns 0 or -1, and 0 exactly when the digits the
    loop takes are an even number that fits the destination and, unless
    [hex_end] is requested, the loop reaches the end of the input; then
    [errno] is not assigned. Whenever the digits fit and are even,
    [*bin_len] is the number of bytes decoded and [*hex_end] the place
    where the loop left, also when the call fails for unparsed input;
    otherwise [*bin_len] is 0. *)
Theorem hex2bin_outcome (bin hex : list byte) (bin_maxlen : Z)
    (ignore : option (list byte)) (want_bin_len want_hex_end : bool) :
  0 ≤ bin_maxlen →
  let digits := fst (scan ignore hex false) in
  let chars := snd (scan ignore hex false) in
  let r := hex2bin bin bin_maxlen hex (Z.of_nat (length hex)) ignore
             want_bin_len want_hex_end in
  let fits := Z.of_nat digits ≤ 2 * bin_maxlen ∧ Nat.Even digits in
  (ret r = 0 ∨ ret r = -1) ∧
  (ret r = 0 ↔ fits ∧ (want_hex_end = true ∨ chars = length hex)) ∧
  (ret r = 0 → errno_out r = None) ∧
  (fits →
     bin_len_out r = (if want_bin_len then Some (Z.of_nat digits / 2) else None) ∧
     hex_end_out r = (if want_hex_end then Some (Z.of_nat chars) else None)) ∧
  (¬ fits → bin_len_out r = (if want_bin_len then Some 0 else None)).
Proof.
  intros Hmax. cbv zeta.
  pose proof (hex2bin_loop_outcome bin bin_maxlen ignore hex Hmax) as H.
  cbv zeta in H. unfold hex2bin. rewrite Nat2Z.id, firstn_all.
  destruct (scan ignore hex false) as [d n]. cbn [fst snd] in *.
  set (v' := hex2bin_loop _ _ _ _) in *. clearbody v'.
  destruct H as (Hle & Hfit & Hbig).
  destruct (Z_le_gt_dec (Z.of_nat d) (2 * bin_maxlen)) as [Hd|Hd].
  - destruct Hfit as (Hret & Herr & Hhp & Hbp & Hst); [exact Hd|]. clear Hbig.
    rewrite Hret, Herr, Hhp, Hbp, Hst.
    destruct (Nat.odd d) eqn:Hodd; cbn [Z.eqb negb].
    + assert (¬ Nat.Even d) as Hne.
      { intros He. apply Nat.even_spec in He. rewrite <- Nat.negb_odd, Hodd in He. done. }
      destruct want_hex_end; [|destruct (_ =? _)];
        cbn [ret errno_out bin_len_out hex_end_out];
        (split; [by right|]); (split; [split; [done|tauto]|]);
        (split; [done|]); (split; [tauto|done]).
    + assert (Nat.Even d) as He.
      { apply Nat.even_spec. rewrite <- Nat.negb_odd, Hodd. done. }
      destruct want_hex_end.
      * cbn [ret errno_out bin_len_out hex_end_out].
        split; [by left|]. split; [split; auto|]. split; [done|]. split; [done|tauto].
      * destruct (Z.eqb_spec (Z.of_nat n) (Z.of_nat (length hex))) as [Heq|Hneq];
          cbn [negb ret errno_out bin_len_out hex_end_out Z.eqb].
        -- split; [by left|]. split; [split; [intros _; split; [done|right; lia]|done]|].
           split; [done|]. split; [done|tauto].
        -- split; [by right|].
           split; [split; [done|intros (_ & [?|?]); [done|lia]]|].
           split; [done|]. split; [done|tauto].
  - destruct Hbig as (Hret & Herr & Hst & Hhp & Hbp); [lia|]. clear Hfit.
    rewrite Hret, Herr, Hst. cbn [Z.eqb negb].
    destruct want_hex_end; [|destruct (_ =? _)];
      cbn [ret errno_out bin_len_out hex_end_out];
      (split; [by right|]); (split; [split; [done|intros [[? _] _]; lia]|]);
      (split; [done|]); (split; [intros [? _]; lia|done]).
Qed.

Lemma hex2bin_outcome_witness :
  let r := hex2bin (repeat x41 4) 4 (bytes_of_string "ab:cd") 5 None true false in
  ret r = -1 ∧ bin_len_out r = Some 1.
Proof.
  pose proof (hex2bin_outcome (repeat x41 4) (bytes_of_string "ab:cd") 4 None true false
                ltac:(lia)) as (Hor & H & _ & Hlen & _).
  cbv zeta in *. split.
  - destruct Hor as [H0|H1]; [|exact H1].
    apply H in H0 as [_ [?|Hn]]; [discriminate|]. vm_compute in Hn. discriminate.
  - apply Hlen. split; [vm_compute; congruence|]. exists 1%nat. reflexivity.
Defined.

Lemma hex2bin_take bin bin_maxlen hex hex_len ignore want_bin_len want_hex_end :
  hex2bin bin bin_maxlen hex hex_len ignore want_bin_len want_hex_end =
  hex2bin bin bin_maxlen (take (Z.to_nat hex_len) hex) hex_len ignore
    want_bin_len want_hex_end.
Proof. unfold hex2bin. rewrite take_take, Nat.min_id. reflexivity. Qed.

Lemma hex2bin_untouched bin bin_maxlen hex hex_len ignore want_bin_len want_hex_end
    (i : nat) :
  0 ≤ bin_maxlen →
  let text := take (Z.to_nat hex_len) hex in
  let r := hex2bin bin bin_maxlen hex hex_len ignore want_bin_len want_hex_end in
  length (bin_out r) = length bin ∧
  (bin_maxlen ≤ Z.of_nat i ∨ (fst (scan ignore text false) / 2 ≤ i)%nat →
   bin_out r !! i = bin !! i).
Proof.
  intros Hmax text. cbv zeta.
  pose proof (hex2bin_loop_outcome bin bin_maxlen ignore text Hmax) as H.
  pose proof (hex2bin_loop_frame bin_maxlen ignore text (MkVars bin 0 0 0 0 0 None)) as Hf.
  cbv zeta in H, Hf. cbn [v_bin v_bin_pos] in Hf.
  rewrite hex2bin_bin_out. fold text.
  destruct (scan ignore text false) as [d n]. cbn [fst snd] in *.
  set (v' := hex2bin_loop _ _ _ _) in *. clearbody v'.
  destruct Hf as (Hlen & Hpos & Hbound & Hout); [lia|].
  split; [exact Hlen|].
  intros Hi. apply Hout. right.
  destruct H as (_ & Hfit & Hbig).
  assert (Z.of_nat (d / 2) = Z.of_nat d / 2) as Hdiv.
  { rewrite Nat2Z.inj_div. reflexivity. }
  destruct (Z_le_gt_dec (Z.of_nat d) (2 * bin_maxlen)) as [Hd|Hd].
  - destruct Hfit as (_ & _ & _ & Hbp & _); [exact Hd|].
    assert (Z.of_nat d / 2 ≤ bin_maxlen) by (apply Z.div_le_upper_bound; lia).
    lia.
  - destruct Hbig as (_ & _ & _ & _ & Hbp); [lia|].
    assert (bin_maxlen ≤ Z.of_nat d / 2) by (apply Z.div_le_lower_bound; lia).
    lia.
Qed.

(** X2. [hex2bin] keeps the size of the destination and writes only to
    the bytes it decodes: every byte at an index not below [bin_maxlen],
    or not below half the number of digits taken, is as before the call,
    whatever the input and the return value. *)
Theorem hex2bin_frame (bin hex : list byte) (bin_maxlen : Z)
    (ignore : option (list byte)) (want_bin_len want_hex_end : bool) (i : nat) :
  0 ≤ bin_maxlen →
  let r := hex2bin bin bin_maxlen hex (Z.of_nat (length hex)) ignore
             want_bin_len want_hex_end in
  length (bin_out r) = length bin ∧
  (bin_maxlen ≤ Z.of_nat i ∨ (fst (scan ignore hex false) / 2 ≤ i)%nat →
   bin_out r !! i = bin !! i).
Proof.
  intros Hmax.
  pose proof (hex2bin_untouched bin bin_maxlen hex (Z.of_nat (length hex)) ignore
                want_bin_len want_hex_end i Hmax) as H.
  cbv zeta in H. rewrite Nat2Z.id, firstn_all in H. exact H.
Qed.

Lemma hex2bin_frame_witness :
  bin_out (hex2bin (repeat x41 4) 2 (bytes_of_string "abcdef") 6 None false false) !! 3%nat
  = Some x41.
Proof.
  apply (hex2bin_frame (repeat x41 4) (bytes_of_string "abcdef") 2 None false false 3);
    [lia|]. right. vm_compute. lia.
Defined.

(** ** Digits of either case, and separators *)

Lemma length_hex_decoding hex : length (hex_decoding hex) = (length hex / 2)%nat.
Proof.
  induction hex as [hex IH] using (well_founded_induction
    (well_founded_ltof _ (@length byte))).
  destruct hex as [|h [|l rest]]; [reflexivity..|].
  cbn [hex_decoding length]. rewrite IH by (unfold ltof; simpl; lia).
  change (S (S (length rest))) with (1 * 2 + length rest)%nat.
  rewrite Nat.add_comm, Nat.div_add by lia. lia.
Qed.

Lemma hex_decoding_app a b :
  Nat.Even (length a) → hex_decoding (a ++ b) = hex_decoding a ++ hex_decoding b.
Proof.
  intros [k Hk]. revert a Hk. induction k as [|k IH]; intros a Hk.
  - destruct a; [reflexivity|simpl in Hk; lia].
  - destruct a as [|h [|l a]]; simpl in Hk; try lia.
    cbn [app hex_decoding]. rewrite IH by lia. reflexivity.
Qed.

Lemma hex_encoding_decoding hex :
  forallb is_hex_char hex = true → Nat.Even (length hex) →
  hex_encoding (hex_decoding hex) = to_lower <$> hex.
Proof.
  intros Hall [k Hk]. revert hex Hall Hk. induction k as [|k IH]; intros hex Hall Hk.
  - destruct hex; [reflexivity|simpl in Hk; lia].
  - destruct hex as [|h [|l hex]]; simpl in Hk; try lia.
    cbn [forallb] in Hall.
    apply andb_true_iff in Hall as [Hh Hall]. apply andb_true_iff in Hall as [Hl Hall].
    cbn [hex_decoding hex_encoding fmap list_fmap].
    destruct (c_val_hex_value h Hh) as [_ Hhr].
    destruct (c_val_hex_value l Hl) as [_ Hlr].
    rewrite Z_of_byte_of_Z by lia.
    replace ((16 * hex_value h + hex_value l) / 16) with (hex_value h)
      by (apply Z.div_unique with (r := hex_value l); lia).
    replace ((16 * hex_value h + hex_value l) mod 16) with (hex_value l)
      by (apply Z.mod_unique with (q := hex_value h); lia).
    rewrite !hex_digit_to_lower by done.
    f_equal. f_equal. apply IH; [done|lia].
Qed.

Lemma hex2bin_loop_decoding maxlen ign : ∀ (n : nat) (hex pre suf rest : list byte) hp r acc e,
  length hex = (2 * n)%nat → forallb is_hex_char hex = true →
  (n ≤ length suf)%nat → Z.of_nat (length pre + n) ≤ maxlen →
  ∃ acc',
    hex2bin_loop maxlen ign (hex ++ rest)
      (MkVars (pre ++ suf) (Z.of_nat (length pre)) hp r acc 0 e) =
    hex2bin_loop maxlen ign rest
      (MkVars (pre ++ hex_decoding hex ++ drop n suf)
              (Z.of_nat (length pre + n)) (hp + 2 * Z.of_nat n) r acc' 0 e).
Proof.
  induction n as [|n IH]; intros hex pre suf rest hp r acc e Hlen Hall Hsuf Hmax.
  - destruct hex; [|simpl in Hlen; lia].
    exists acc. simpl. rewrite drop_0, Nat.add_0_r, Z.add_0_r. reflexivity.
  - destruct hex as [|h [|l hex]]; simpl in Hlen; try lia.
    destruct suf as [|s0 suf]; simpl in Hsuf; [lia|].
    cbn [forallb] in Hall.
    apply andb_true_iff in Hall as [Hh Hall]. apply andb_true_iff in Hall as [Hl Hall].
    cbn [app hex_decoding].
    rewrite hex2bin_loop_high by (rewrite ?hex_test_is_hex_char; done || lia).
    rewrite hex2bin_loop_low by (rewrite ?hex_test_is_hex_char; done || lia).
    destruct (c_val_hex_value h Hh) as [-> Hhr].
    destruct (c_val_hex_value l Hl) as [-> Hlr].
    rewrite lor_nibbles by lia. rewrite Nat2Z.id.
    set (b0 := byte_of_Z (16 * hex_value h + hex_value l)).
    replace (<[length pre:=b0]> (pre ++ s0 :: suf)) with ((pre ++ [b0]) ++ suf).
    2:{ rewrite <- app_assoc. symmetry.
        rewrite <- (Nat.add_0_r (length pre)). apply (insert_app_r pre (s0 :: suf)). }
    replace (Z.of_nat (length pre) + 1) with (Z.of_nat (length (pre ++ [b0])))
      by (rewrite length_app; simpl; lia).
    destruct (IH hex (pre ++ [b0]) suf rest (hp + 1 + 1) r
                 (uchar (hex_value h * 16)) e) as [acc' ->].
    + lia.
    + done.
    + lia.
    + rewrite length_app. simpl. lia.
    + exists acc'. rewrite <- app_assoc.
      rewrite length_app. cbn [length app drop].
      do 2 f_equal; lia.
Qed.

Lemma hex2bin_loop_skip maxlen ign : ∀ (sep rest : list byte) bin bp hp r acc e,
  forallb (is_separator ign) sep = true →
  hex2bin_loop maxlen (Some ign) (sep ++ rest) (MkVars bin bp hp r acc 0 e) =
  hex2bin_loop maxlen (Some ign) rest
    (MkVars bin bp (hp + Z.of_nat (length sep)) r acc 0 e).
Proof.
  induction sep as [|ch sep IH]; intros rest bin bp hp r acc e Hall.
  - simpl. rewrite Z.add_0_r. reflexivity.
  - cbn [forallb] in Hall. apply andb_true_iff in Hall as [Hch Hall].
    unfold is_separator in Hch. apply andb_true_iff in Hch as [Hnh Hfound].
    rewrite <- hex_test_is_hex_char in Hnh. unfold hex_test in Hnh.
    rewrite negb_involutive in Hnh.
    cbn [app hex2bin_loop]. rewrite Hnh. cbn [v_state Z.eqb andb
      v_bin v_bin_pos v_hex_pos v_ret v_c_acc v_errno].
    rewrite Hfound. rewrite IH by done.
    do 2 f_equal. cbn [length]. lia.
Qed.

Lemma even_div2 a : Nat.even a = true → (2 * (a / 2))%nat = a.
Proof.
  intros He. apply Nat.even_spec in He as [k ->].
  rewrite (Nat.mul_comm 2 k), Nat.div_mul by lia. lia.
Qed.

Lemma hex2bin_loop_chunks maxlen ign : ∀ chunks (pre suf rest : list byte) hp r acc e,
  well_separated ign chunks = true →
  let n := (length (digits_of chunks) / 2)%nat in
  (n ≤ length suf)%nat → Z.of_nat (length pre + n) ≤ maxlen →
  ∃ acc',
    hex2bin_loop maxlen (Some ign) (with_separators chunks ++ rest)
      (MkVars (pre ++ suf) (Z.of_nat (length pre)) hp r acc 0 e) =
    hex2bin_loop maxlen (Some ign) rest
      (MkVars (pre ++ hex_decoding (digits_of chunks) ++ drop n suf)
              (Z.of_nat (length pre + n))
              (hp + Z.of_nat (length (with_separators chunks))) r acc' 0 e).
Proof.
  induction chunks as [|[sep d] chunks IH]; intros pre suf rest hp r acc e Hws n Hsuf Hmax.
  - exists acc. subst n. simpl. rewrite drop_0, Nat.add_0_r, Z.add_0_r. reflexivity.
  - unfold well_separated in Hws. cbn [forallb fst snd] in Hws.
    apply andb_true_iff in Hws as [Hc Hws].
    apply andb_true_iff in Hc as [Hc Heven]. apply andb_true_iff in Hc as [Hsep Hd].
    pose proof (even_div2 _ Heven) as Hd2.
    assert (n = length d / 2 + length (digits_of chunks) / 2)%nat as Hn.
    { subst n. unfold digits_of. cbn [flat_map snd]. rewrite length_app.
      fold (digits_of chunks). rewrite <- Hd2 at 1.
      rewrite Nat.mul_comm, Nat.div_add_l by lia. reflexivity. }
    clearbody n. subst n.
    unfold with_separators, digits_of. cbn [flat_map fst snd].
    fold (with_separators chunks). fold (digits_of chunks).
    rewrite <- !app_assoc. rewrite hex2bin_loop_skip by done.
    destruct (hex2bin_loop_decoding maxlen (Some ign) (length d / 2) d pre suf
                (with_separators chunks ++ rest) (hp + Z.of_nat (length sep)) r acc e)
      as [acc1 ->]; [lia|done|lia|lia|].
    rewrite app_assoc.
    replace (Z.of_nat (length pre + length d / 2))
      with (Z.of_nat (length (pre ++ hex_decoding d)))
      by (rewrite length_app, length_hex_decoding; reflexivity).
    destruct (IH (pre ++ hex_decoding d) (drop (length d / 2) suf) rest
                 (hp + Z.of_nat (length sep) + 2 * Z.of_nat (length d / 2)) r acc1 e Hws)
      as [acc2 ->].
    + rewrite length_drop. lia.
    + rewrite length_app, length_hex_decoding. lia.
    + exists acc2. rewrite hex_decoding_app by (by apply Nat.even_spec).
      rewrite <- !app_assoc, drop_drop.
      rewrite !length_app, length_hex_decoding.
      do 2 f_equal; lia.
Qed.

Lemma bin2hex_take hex hex_maxlen bin bin_len :
  bin2hex hex hex_maxlen bin bin_len =
  bin2hex hex hex_maxlen (take (Z.to_nat bin_len) bin) bin_len.
Proof. unfold bin2hex. rewrite take_take, Nat.min_id. reflexivity. Qed.

Lemma well_separated_digits ign chunks :
  well_separated ign chunks = true →
  forallb is_hex_char (digits_of chunks) = true ∧ Nat.Even (length (digits_of chunks)).
Proof.
  induction chunks as [|[sep d] chunks IH]; intros Hws.
  - split; [reflexivity|]. exists 0%nat. reflexivity.
  - unfold well_separated in Hws. cbn [forallb fst snd] in Hws.
    apply andb_true_iff in Hws as [Hc Hws].
    apply andb_true_iff in Hc as [Hc Heven]. apply andb_true_iff in Hc as [Hsep Hd].
    destruct (IH Hws) as [IH1 [k IH2]].
    unfold digits_of in *. cbn [flat_map snd]. split.
    + rewrite forallb_app, Hd, IH1. reflexivity.
    + apply Nat.even_spec in Heven as [k' Hk'].
      exists (k' + k)%nat. rewrite length_app, Hk', IH2. lia.
Qed.

Lemma hex2bin_digits bin bin_maxlen hex ignore want_bin_len want_hex_end :
  forallb is_hex_char hex = true → Nat.Even (length hex) →
  Z.of_nat (length hex) ≤ 2 * bin_maxlen → bin_maxlen ≤ Z.of_nat (length bin) →
  hex2bin bin bin_maxlen hex (Z.of_nat (length hex)) ignore want_bin_len want_hex_end =
  MkResult 0 (hex_decoding hex ++ drop (length hex / 2) bin)
    (if want_bin_len then Some (Z.of_nat (length hex / 2)) else None)
    (if want_hex_end then Some (Z.of_nat (length hex)) else None) None.
Proof.
  intros Hall Heven Hfit Hbin.
  apply Nat.even_spec in Heven. pose proof (even_div2 _ Heven) as Hd2.
  unfold hex2bin. rewrite Nat2Z.id, firstn_all.
  destruct (hex2bin_loop_decoding bin_maxlen ignore (length hex / 2) hex [] bin [] 0 0 0 None)
    as [acc' Hloop]; [lia|done|lia|cbn [length Nat.add]; lia|].
  rewrite app_nil_r in Hloop. cbn [app length Nat.add] in Hloop.
  change (Z.of_nat 0) with 0 in Hloop. rewrite Hloop.
  cbn [hex2bin_loop v_state v_hex_pos v_ret v_errno v_bin v_bin_pos Z.eqb negb].
  replace (0 + 2 * Z.of_nat (length hex / 2)) with (Z.of_nat (length hex)) by lia.
  rewrite Z.eqb_refl. cbn [negb].
  destruct want_hex_end; reflexivity.
Qed.

(** X3. [hex2bin] reads digits of either case: on a text of an even
    number of hexadecimal digits that fits the destination it returns 0,
    leaves the bytes the digits stand for at the start of the destination
    and the rest of it as it was, and reports their number and the end of
    the text. [bin2hex] applied to these bytes gives the text back in
    lowercase. *)
Theorem hex2bin_decodes_either_case (hex bin out : list byte) (bin_maxlen out_maxlen : Z)
    (ignore : option (list byte)) (want_bin_len want_hex_end : bool) :
  forallb is_hex_char hex = true → Nat.Even (length hex) →
  Z.of_nat (length hex) ≤ 2 * bin_maxlen → bin_maxlen ≤ Z.of_nat (length bin) →
  Z.of_nat (length hex / 2) < SIZE_MAX / 2 →
  Z.of_nat (length hex) ≤ out_maxlen → out_maxlen ≤ Z.of_nat (length out) →
  let n := (length hex / 2)%nat in
  let r := hex2bin bin bin_maxlen hex (Z.of_nat (length hex)) ignore
             want_bin_len want_hex_end in
  ret r = 0 ∧
  bin_out r = hex_decoding hex ++ drop n bin ∧
  bin_len_out r = (if want_bin_len then Some (Z.of_nat n) else None) ∧
  hex_end_out r = (if want_hex_end then Some (Z.of_nat (length hex)) else None) ∧
  ∃ hex', bin2hex out out_maxlen (bin_out r) (Z.of_nat n) = Ok hex' ∧
          take (length hex) hex' = to_lower <$> hex.
Proof.
  intros Hall Heven Hfit Hbin Hmax Hcap Hout. cbv zeta.
  rewrite hex2bin_digits by done. cbn [ret bin_out bin_len_out hex_end_out].
  do 4 (split; [reflexivity|]).
  pose proof (length_hex_decoding hex) as Hlen.
  pose proof (even_div2 _ (proj2 (Nat.even_spec _) Heven)) as Hd2.
  eexists. split.
  - rewrite bin2hex_take, Nat2Z.id. rewrite <- Hlen. rewrite take_app_length.
    apply bin2hex_ok; lia.
  - rewrite <- hex_encoding_decoding by done.
    replace (length hex) with (length (hex_encoding (hex_decoding hex)))
      by (rewrite length_hex_encoding; lia).
    apply take_app_length.
Qed.

Lemma hex2bin_decodes_either_case_witness :
  let r := hex2bin (repeat x41 3) 2 (bytes_of_string "aBCd") 4 None false false in
  bin_out r = [xab; xcd; x41] ∧
  ∃ hex', bin2hex (repeat x41 5) 5 (bin_out r) 2 = Ok hex' ∧
          take 4 hex' = bytes_of_string "abcd".
Proof.
  destruct (hex2bin_decodes_either_case (bytes_of_string "aBCd") (repeat x41 3)
              (repeat x41 5) 2 5 None false false)
    as (_ & H1 & _ & _ & H2);
    [reflexivity | by exists 2%nat | simpl; lia | simpl; lia
    | vm_compute; reflexivity | simpl; lia | simpl; lia |].
  split; [exact H1 | exact H2].
Defined.

(** X4. With an [ignore] set, [hex2bin] skips the characters of the set
    that stand between two bytes: a text of groups of whole bytes, each
    preceded by separators, decodes to the bytes of its digits, as the
    digits alone do, and the loop reaches the end of the text. *)
Theorem hex2bin_skips_separators (chunks : list (list byte * list byte))
    (bin ign : list byte) (bin_maxlen : Z) (want_bin_len want_hex_end : bool) :
  well_separated ign chunks = true →
  let text := with_separators chunks in
  let digits := digits_of chunks in
  Z.of_nat (length digits) ≤ 2 * bin_maxlen → bin_maxlen ≤ Z.of_nat (length bin) →
  let r := hex2bin bin bin_maxlen text (Z.of_nat (length text)) (Some ign)
             want_bin_len want_hex_end in
  ret r = 0 ∧
  bin_out r = hex_decoding digits ++ drop (length digits / 2) bin ∧
  bin_len_out r = (if want_bin_len then Some (Z.of_nat (length digits / 2)) else None) ∧
  hex_end_out r = (if want_hex_end then Some (Z.of_nat (length text)) else None) ∧
  bin_out r = bin_out (hex2bin bin bin_maxlen digits (Z.of_nat (length digits)) None
                         want_bin_len want_hex_end).
Proof.
  intros Hws text digits Hfit Hbin. cbv zeta.
  destruct (well_separated_digits _ _ Hws) as [Hall Heven]. fold digits in Hall, Heven.
  rewrite (hex2bin_digits bin bin_maxlen digits None) by done. cbn [bin_out].
  pose proof (even_div2 _ (proj2 (Nat.even_spec _) Heven)) as Hd2.
  unfold hex2bin. rewrite Nat2Z.id, firstn_all.
  destruct (hex2bin_loop_chunks bin_maxlen ign chunks [] bin [] 0 0 0 None Hws)
    as [acc' Hloop]; [fold digits; lia|fold digits; cbn [length Nat.add]; lia|].
  rewrite app_nil_r in Hloop. cbn [app length Nat.add] in Hloop.
  change (Z.of_nat 0) with 0 in Hloop. fold text digits in Hloop. rewrite Hloop.
  cbn [hex2bin_loop v_state v_hex_pos v_ret v_errno v_bin v_bin_pos Z.eqb negb].
  rewrite Z.add_0_l, Z.eqb_refl. cbn [negb].
  destruct want_hex_end; cbn [ret bin_out bin_len_out hex_end_out]; done.
Qed.

Lemma hex2bin_skips_separators_witness :
  bin_out (hex2bin (repeat x41 3) 2 (bytes_of_string "ab:CD:") 6
             (Some (bytes_of_string ":")) false false) = [xab; xcd; x41].
Proof.
  apply (hex2bin_skips_separators
           [([], bytes_of_string "ab"); (bytes_of_string ":", bytes_of_string "CD");
            (bytes_of_string ":", [])]
           (repeat x41 3) (bytes_of_string ":") 2 false false);
    [reflexivity | simpl; lia | simpl; lia].
Defined.

Lemma scan_digits ign d rest : ∀ odd,
  forallb is_hex_char d = true →
  scan ign (d ++ rest) odd =
  ((length d + fst (scan ign rest (xorb odd (Nat.odd (length d)))))%nat,
   (length d + snd (scan ign rest (xorb odd (Nat.odd (length d)))))%nat).
Proof.
  induction d as [|h d IH]; intros odd Hall.
  - cbn [app length Nat.odd]. rewrite xorb_false_r. cbn [Nat.add].
    destruct (scan ign rest odd); reflexivity.
  - cbn [forallb] in Hall. apply andb_true_iff in Hall as [Hh Hall].
    cbn [app scan]. rewrite Hh, IH by done. cbn [length].
    rewrite Nat.odd_succ, <- Nat.negb_odd.
    replace (xorb (negb odd) (Nat.odd (length d)))
      with (xorb odd (negb (Nat.odd (length d))))
      by (destruct odd, (Nat.odd (length d)); reflexivity).
    reflexivity.
Qed.

Lemma scan_separators ign sep rest :
  forallb (is_separator ign) sep = true →
  scan (Some ign) (sep ++ rest) false =
  (fst (scan (Some ign) rest false), (length sep + snd (scan (Some ign) rest false))%nat).
Proof.
  induction sep as [|ch sep IH]; intros Hall.
  - cbn [app length Nat.add]. destruct (scan (Some ign) rest false); reflexivity.
  - cbn [forallb] in Hall. apply andb_true_iff in Hall as [Hch Hall].
    unfold is_separator in Hch. apply andb_true_iff in Hch as [Hnh Hfound].
    apply negb_true_iff in Hnh.
    cbn [app scan]. rewrite Hnh, Hfound. cbn [negb andb]. rewrite IH by done.
    reflexivity.
Qed.

Lemma scan_chunks ign chunks rest :
  well_separated ign chunks = true →
  scan (Some ign) (with_separators chunks ++ rest) false =
  ((length (digits_of chunks) + fst (scan (Some ign) rest false))%nat,
   (length (with_separators chunks) + snd (scan (Some ign) rest false))%nat).
Proof.
  induction chunks as [|[sep d] chunks IH]; intros Hws.
  - cbn. destruct (scan (Some ign) rest false); reflexivity.
  - unfold well_separated in Hws. cbn [forallb fst snd] in Hws.
    apply andb_true_iff in Hws as [Hc Hws].
    apply andb_true_iff in Hc as [Hc Heven]. apply andb_true_iff in Hc as [Hsep Hd].
    unfold with_separators, digits_of. cbn [flat_map fst snd].
    fold (with_separators chunks). fold (digits_of chunks).
    rewrite <- !app_assoc. rewrite scan_separators by done.
    rewrite scan_digits by done. cbn [fst snd].
    rewrite <- Nat.negb_even, Heven. cbn [negb xorb].
    rewrite IH by done. cbn [fst snd]. rewrite !length_app.
    f_equal; lia.
Qed.

(** X5. [hex2bin] never skips a character inside a byte: when a text of
    whole bytes and separators is followed by one digit and a character
    that is not a hexadecimal digit, the call returns -1, also when that
    character belongs to [ignore]. *)
Theorem hex2bin_separator_inside_byte (chunks : list (list byte * list byte))
    (h c : byte) (rest bin ign : list byte) (bin_maxlen : Z)
    (want_bin_len want_hex_end : bool) :
  0 ≤ bin_maxlen →
  well_separated ign chunks = true →
  is_hex_char h = true → is_hex_char c = false →
  let text := with_separators chunks ++ h :: c :: rest in
  ret (hex2bin bin bin_maxlen text (Z.of_nat (length text)) (Some ign)
         want_bin_len want_hex_end) = -1.
Proof.
  intros Hmax Hws Hh Hc text.
  pose proof (hex2bin_scan_ret bin bin_maxlen text (Z.of_nat (length text)) (Some ign)
                want_bin_len want_hex_end Hmax ltac:(lia)) as H.
  cbv zeta in H. rewrite Nat2Z.id, firstn_all in H.
  unfold text in H at 1 2 3. rewrite scan_chunks in H by done.
  cbn [scan] in H. rewrite Hh, Hc in H. cbn [negb andb fst snd] in H.
  destruct (well_separated_digits _ _ Hws) as [_ Heven].
  apply Nat.even_spec in Heven.
  rewrite Nat.add_1_r, Nat.odd_succ, Heven, orb_true_r in H. cbn [orb] in H.
  apply H.
Qed.

Lemma hex2bin_separator_inside_byte_witness :
  ret (hex2bin (repeat x41 4) 4 (bytes_of_string "ab:c:d") 6
         (Some (bytes_of_string ":")) false true) = -1.
Proof.
  apply (hex2bin_separator_inside_byte
           [([], bytes_of_string "ab"); (bytes_of_string ":", [])]
           "c"%byte ":"%byte (bytes_of_string "d") (repeat x41 4) (bytes_of_string ":")
           4 false true); [lia | reflexivity | reflexivity | reflexivity].
Defined.

(** ** [bin2hex] on a part of the source *)

(** X6. [bin2hex] throws exactly when [bin_len >= SIZE_MAX / 2] or the
    capacity is below [2 * bin_len] (the product does not wrap where it
    is compared). Otherwise the destination keeps its size, starts with
    the encoding of the first [bin_len] bytes of the source, has a NUL
    after it when the capacity is larger, and is unchanged elsewhere. *)
Theorem bin2hex_outcome (hex bin : list byte) (hex_maxlen bin_len : Z) :
  0 ≤ bin_len ≤ Z.of_nat (length bin) → bin_len ≤ SIZE_MAX →
  hex_maxlen ≤ Z.of_nat (length hex) →
  if decide (SIZE_MAX / 2 ≤ bin_len ∨ hex_maxlen < 2 * bin_len)
  then bin2hex hex hex_maxlen bin bin_len = Err runtime_error
  else ∃ hex',
    bin2hex hex hex_maxlen bin bin_len = Ok hex' ∧
    length hex' = length hex ∧
    take (Z.to_nat (2 * bin_len)) hex' = hex_encoding (take (Z.to_nat bin_len) bin) ∧
    (∀ i, (Z.to_nat (2 * bin_len) < i)%nat → hex' !! i = hex !! i) ∧
    hex' !! Z.to_nat (2 * bin_len) =
      (if 2 * bin_len <? hex_maxlen then Some x00 else hex !! Z.to_nat (2 * bin_len)).
Proof.
  intros Hlen Hmax Hhex.
  assert (SIZE_MAX / 2 = 2 ^ 63 - 1) as HS by (vm_compute; reflexivity).
  destruct (decide _) as [Hbad|Hgood].
  - unfold bin2hex, size_t_wrap.
    destruct (Z.leb_spec (SIZE_MAX / 2) bin_len) as [|Hsmall]; [reflexivity|].
    rewrite Z.mod_small by lia.
    destruct (Z.ltb_spec hex_maxlen (bin_len * 2)); [reflexivity|lia].
  - rewrite bin2hex_take.
    set (src := take (Z.to_nat bin_len) bin).
    assert (Z.of_nat (length src) = bin_len) as Hsrc
      by (unfold src; rewrite length_take; lia).
    pose proof (length_hex_encoding src) as Henc.
    clearbody src.
    eexists. split.
    { rewrite <- Hsrc. apply bin2hex_ok; lia. }
    replace (Z.to_nat (2 * bin_len)) with (length (hex_encoding src)) by lia.
    assert ((2 * length src < length hex)%nat
            ∨ ((2 * length src)%nat = length hex
               ∧ ¬ 2 * Z.of_nat (length src) < hex_maxlen)) as Hroom by lia.
    split; [|split; [|split]].
    + rewrite length_app.
      destruct (Z.ltb_spec (2 * Z.of_nat (length src)) hex_maxlen);
        cbn [length]; rewrite length_drop; lia.
    + apply take_app_length.
    + intros i Hi. rewrite lookup_app_r by lia.
      destruct (Z.ltb_spec (2 * Z.of_nat (length src)) hex_maxlen).
      * destruct (i - length (hex_encoding src))%nat as [|k] eqn:Hk; [lia|].
        change ((x00 :: ?l) !! S k) with (l !! k).
        rewrite lookup_drop. f_equal. lia.
      * rewrite lookup_drop. f_equal. lia.
    + rewrite lookup_app_r, Nat.sub_diag by lia. rewrite Hsrc.
      destruct (Z.ltb_spec (2 * bin_len) hex_maxlen); [reflexivity|].
      rewrite lookup_drop. f_equal. lia.
Qed.

Lemma bin2hex_outcome_witness :
  bin2hex (repeat x41 3) 3 [xab; xcd] 2 = Err runtime_error ∧
  ∃ hex', bin2hex (repeat x41 6) 5 [xab; xcd; xef] 2 = Ok hex' ∧
          take 4 hex' = bytes_of_string "abcd" ∧
          hex' !! 5%nat = Some x41 ∧ hex' !! 4%nat = Some x00.
Proof.
  split.
  - apply (bin2hex_outcome (repeat x41 3) [xab; xcd] 3 2);
      [simpl; lia | vm_compute; congruence | simpl; lia].
  - pose proof (bin2hex_outcome (repeat x41 6) [xab; xcd; xef] 5 2
                  ltac:(simpl; lia) ltac:(vm_compute; congruence) ltac:(simpl; lia)) as H.
    destruct (decide _) as [Hbad|_] in H.
    + exfalso. destruct Hbad as [Hb|Hb]; [vm_compute in Hb; congruence|lia].
    + destruct H as (hex' & Heq & _ & Htake & Hrest & Hnul).
      exists hex'. split; [exact Heq|]. split; [exact Htake|].
      split; [apply (Hrest 5%nat); simpl; lia | exact Hnul].
Defined.

End HexCodecMore.
(** * Further properties of the verifier and of the signer *)

Module SignerMore.
Import HexCodec HexText HexCodecFacts HexCodecMore Signer SignerFacts.

Lemma scan_None_digits_chars text : ∀ odd,
  fst (scan None text odd) = snd (scan None text odd).
Proof.
  induction text as [|ch text IH]; intros odd; cbn [scan]; [reflexivity|].
  destruct (is_hex_char ch); [|reflexivity].
  specialize (IH (negb odd)). destruct (scan None text (negb odd)).
  cbn [fst snd] in *. by rewrite IH.
Qed.

(** The text a conversion of [n] characters of a C string reads contains a
    character that is no digit when the string is not decodable. *)
Lemma c_str_not_decodable n s :
  0 ≤ n → hex_decodable n s = false →
  forallb is_hex_char (take (Z.to_nat n) (c_str s)) = false.
Proof.
  intros Hn Hdec. unfold hex_decodable in Hdec.
  pose proof (length_bytes_of_string s) as Hlen.
  destruct (Z.leb_spec n (Z.of_nat (String.length s))) as [Hle|Hgt]; cbn [andb] in Hdec.
  - unfold c_str. rewrite take_app_le by lia. exact Hdec.
  - rewrite take_ge by (unfold c_str; rewrite length_app; simpl; lia).
    unfold c_str. rewrite forallb_app. simpl. by rewrite andb_false_r.
Qed.

Lemma hex2bin_c_str_decodes buf maxlen s :
  0 ≤ maxlen ≤ Z.of_nat (length buf) →
  hex_decodable (2 * maxlen) s = true →
  hex2bin buf maxlen (c_str s) (2 * maxlen) None false false =
  MkResult 0 (hex_decoding (take (Z.to_nat (2 * maxlen)) (bytes_of_string s))
              ++ drop (Z.to_nat maxlen) buf) None None None.
Proof.
  intros Hmax Hdec. unfold hex_decodable in Hdec.
  apply andb_true_iff in Hdec as [Hle Hall]. apply Z.leb_le in Hle.
  pose proof (length_bytes_of_string s) as Hlen.
  rewrite hex2bin_take. unfold c_str. rewrite take_app_le by lia.
  set (text := take (Z.to_nat (2 * maxlen)) (bytes_of_string s)) in *.
  assert (length text = Z.to_nat (2 * maxlen)) as Htext
    by (unfold text; rewrite length_take; lia).
  replace (2 * maxlen) with (Z.of_nat (length text)) by lia.
  rewrite hex2bin_digits.
  - rewrite Htext.
    replace (Z.to_nat (2 * maxlen)) with (Z.to_nat maxlen * 2)%nat by lia.
    rewrite Nat.div_mul by lia. reflexivity.
  - exact Hall.
  - exists (Z.to_nat maxlen). lia.
  - lia.
  - lia.
Qed.

Lemma bytes_of_string_app s t :
  bytes_of_string (s +:+ t) = bytes_of_string s ++ bytes_of_string t.
Proof.
  unfold bytes_of_string, list_byte_of_string.
  induction s as [|c s IH]; [reflexivity|]. simpl. by rewrite IH.
Qed.

Lemma hex_decodable_app n s junk :
  hex_decodable n s = true →
  hex_decodable n (s +:+ junk) = true ∧
  take (Z.to_nat n) (bytes_of_string (s +:+ junk)) = take (Z.to_nat n) (bytes_of_string s).
Proof.
  intros Hdec. unfold hex_decodable in *.
  apply andb_true_iff in Hdec as [Hle Hall]. apply Z.leb_le in Hle.
  pose proof (length_bytes_of_string s) as Hlen.
  pose proof (bytes_of_string_app s junk) as Happ.
  assert (take (Z.to_nat n) (bytes_of_string (s +:+ junk))
          = take (Z.to_nat n) (bytes_of_string s)) as Htake.
  { rewrite Happ. destruct (Z_le_gt_dec 0 n).
    - apply take_app_le. lia.
    - replace (Z.to_nat n) with 0%nat by lia. reflexivity. }
  split; [|exact Htake].
  rewrite Htake, Hall, andb_true_r. apply Z.leb_le.
  rewrite <- length_bytes_of_string, Happ, length_app. lia.
Qed.

Section Verify.
Context `{Ed25519Lib}.

Lemma verify_raw_app data n pk sig pk_rest sig_rest :
  length pk = 32%nat → length sig = 64%nat →
  verify_raw data n (pk ++ pk_rest) (sig ++ sig_rest) = verify_raw data n pk sig.
Proof.
  intros Hpk Hsig.
  assert (∀ rest, take (Z.to_nat MAMBA_ED25519_KEYSIZE_BYTES) (pk ++ rest) = pk) as Hp.
  { intros rest. change (Z.to_nat MAMBA_ED25519_KEYSIZE_BYTES) with 32%nat.
    rewrite <- Hpk. apply take_app_length. }
  assert (∀ rest, take (Z.to_nat MAMBA_ED25519_SIGSIZE_BYTES) (sig ++ rest) = sig) as Hs.
  { intros rest. change (Z.to_nat MAMBA_ED25519_SIGSIZE_BYTES) with 64%nat.
    rewrite <- Hsig. apply take_app_length. }
  pose proof (Hp []) as Hp0. pose proof (Hs []) as Hs0. rewrite app_nil_r in Hp0, Hs0.
  unfold verify_raw. rewrite Hp, Hs, Hp0, Hs0. reflexivity.
Qed.

Lemma length_decoding_take n s :
  hex_decodable (2 * Z.of_nat n) s = true →
  length (hex_decoding (take (Z.to_nat (2 * Z.of_nat n)) (bytes_of_string s))) = n.
Proof.
  intros Hdec. unfold hex_decodable in Hdec.
  apply andb_true_iff in Hdec as [Hle _]. apply Z.leb_le in Hle.
  rewrite length_hex_decoding, length_take, length_bytes_of_string.
  replace (Z.to_nat (2 * Z.of_nat n) `min` String.length s)%nat with (n * 2)%nat by lia.
  apply Nat.div_mul. lia.
Qed.

(** [verify] on buffers of the sizes of its local arrays. *)
Lemma verify_on_digits (bin_signature bin_pk : list byte) (data pk signature : string) :
  (64 ≤ length bin_signature)%nat → (32 ≤ length bin_pk)%nat →
  verify bin_signature bin_pk data pk signature =
    if hex_decodable 128 signature && hex_decodable 64 pk
    then Ok (verify_data data
               (hex_decoding (take 64 (bytes_of_string pk)))
               (hex_decoding (take 128 (bytes_of_string signature))))
    else Err runtime_error.
Proof.
  intros Hbs Hbp. unfold verify.
  change MAMBA_ED25519_SIGSIZE_BYTES with 64.
  change MAMBA_ED25519_SIGSIZE_HEX with (2 * 64).
  change MAMBA_ED25519_KEYSIZE_BYTES with 32.
  change MAMBA_ED25519_KEYSIZE_HEX with (2 * 32).
  rewrite !hex2bin_c_str_ret by lia.
  change (2 * 64) with 128. change (2 * 32) with 64.
  destruct (hex_decodable 128 signature) eqn:Hs; [|reflexivity].
  destruct (hex_decodable 64 pk) eqn:Hp; [|reflexivity].
  cbn [Z.eqb negb orb andb].
  change 128 with (2 * 64) in Hs |- *. change 64 with (2 * 32) in Hp |- * at 2.
  rewrite (hex2bin_c_str_decodes bin_signature 64) by (done || lia).
  rewrite (hex2bin_c_str_decodes bin_pk 32) by (done || lia).
  cbn [bin_out]. unfold verify_data. f_equal.
  apply verify_raw_app.
  - apply (length_decoding_take 32 pk Hp).
  - apply (length_decoding_take 64 signature Hs).
Qed.

(** X7. [verify] reads the first 128 characters of the signature and the
    first 64 of the key only: when they are hexadecimal digits the result
    is the verification of the bytes they stand for, whatever the local
    arrays hold on entry, and any characters that follow them in the
    signature or in the key are accepted without a look. *)
Theorem verify_reads_leading_digits (bin_signature bin_pk bin_signature' bin_pk' : list byte)
    (data pk signature pk_tail sig_tail : string) :
  (64 ≤ length bin_signature)%nat → (32 ≤ length bin_pk)%nat →
  (64 ≤ length bin_signature')%nat → (32 ≤ length bin_pk')%nat →
  hex_decodable 128 signature = true → hex_decodable 64 pk = true →
  verify bin_signature bin_pk data pk signature =
    Ok (verify_data data
          (hex_decoding (take 64 (bytes_of_string pk)))
          (hex_decoding (take 128 (bytes_of_string signature)))) ∧
  verify bin_signature' bin_pk' data (pk +:+ pk_tail) (signature +:+ sig_tail) =
    verify bin_signature bin_pk data pk signature.
Proof.
  intros Hbs Hbp Hbs' Hbp' Hs Hp.
  destruct (hex_decodable_app 128 signature sig_tail Hs) as [Hs' Hts].
  destruct (hex_decodable_app 64 pk pk_tail Hp) as [Hp' Htp].
  rewrite !verify_on_digits by done.
  rewrite Hs, Hp, Hs', Hp'. cbn [andb].
  change (Z.to_nat 128) with 128%nat in Hts. change (Z.to_nat 64) with 64%nat in Htp.
  rewrite Hts, Htp. done.
Qed.

(** X8. [verify_gpg_hashed_msg] on a digest that lacks 64 leading
    hexadecimal digits: the conversion fails, and the verification still
    runs on the 32 bytes of the local array, of which the last one at
    least is what the array held on entry. *)
Theorem verify_gpg_hashed_msg_stale_digest (msg_bin : list byte) (data : string)
    (pk signature : list byte) :
  length msg_bin = 32%nat →
  hex_decodable 64 data = false →
  let r := hex2bin msg_bin MAMBA_SHA256_SIZE_BYTES (c_str data)
             MAMBA_SHA256_SIZE_HEX None false false in
  ret r = -1 ∧
  verify_gpg_hashed_msg_raw msg_bin data pk signature =
    Ok (verify_raw (bin_out r) MAMBA_SHA256_SIZE_BYTES pk signature) ∧
  length (bin_out r) = 32%nat ∧
  bin_out r !! 31%nat = msg_bin !! 31%nat.
Proof.
  intros Hlen Hdec r. subst r.
  change MAMBA_SHA256_SIZE_BYTES with 32. change MAMBA_SHA256_SIZE_HEX with (2 * 32).
  split; [|split; [reflexivity|]].
  { rewrite hex2bin_c_str_ret by lia. change (2 * 32) with 64. by rewrite Hdec. }
  pose proof (hex2bin_untouched msg_bin 32 (c_str data) (2 * 32) None false false 31
                ltac:(lia)) as [Hl Hout].
  split; [by rewrite Hl|]. apply Hout. right.
  pose proof (c_str_not_decodable 64 data ltac:(lia) Hdec) as Hall.
  change (2 * 32) with 64.
  set (text := take (Z.to_nat 64) (c_str data)) in *.
  pose proof (scan_stops_at_non_hex text false Hall) as Hs.
  rewrite scan_None_digits_chars.
  assert (length text ≤ 64)%nat by (unfold text; rewrite length_take; lia).
  assert (snd (scan None text false) / 2 < 32)%nat
    by (apply Nat.Div0.div_lt_upper_bound; lia).
  lia.
Qed.

(** X26. [verify_gpg_hashed_msg] on hexadecimal strings verifies the 32
    bytes the digest text stands for, not the text: when the signature,
    the key and the digest start with 128, 64 and 64 hexadecimal digits,
    the result is the raw verification of the decoded digest under the
    decoded key and signature, whatever the three local arrays hold on
    entry. *)
Theorem verify_gpg_hashed_msg_on_digits (msg_bin bin_signature bin_pk : list byte)
    (data pk signature : string) :
  (32 ≤ length msg_bin)%nat → (64 ≤ length bin_signature)%nat → (32 ≤ length bin_pk)%nat →
  hex_decodable 128 signature = true → hex_decodable 64 pk = true →
  hex_decodable 64 data = true →
  verify_gpg_hashed_msg msg_bin bin_signature bin_pk data pk signature =
    Ok (verify_raw (hex_decoding (take 64 (bytes_of_string data)))
                   MAMBA_SHA256_SIZE_BYTES
                   (hex_decoding (take 64 (bytes_of_string pk)))
                   (hex_decoding (take 128 (bytes_of_string signature)))).
Proof.
  intros Hm Hbs Hbp Hs Hp Hd.
  unfold verify_gpg_hashed_msg, verify_gpg_hashed_msg_raw.
  change MAMBA_ED25519_SIGSIZE_BYTES with 64.
  change MAMBA_ED25519_SIGSIZE_HEX with (2 * 64).
  change MAMBA_ED25519_KEYSIZE_BYTES with 32.
  change MAMBA_ED25519_KEYSIZE_HEX with (2 * 32).
  change MAMBA_SHA256_SIZE_BYTES with 32.
  change MAMBA_SHA256_SIZE_HEX with (2 * 32).
  rewrite (hex2bin_c_str_decodes bin_signature 64) by (done || lia).
  rewrite (hex2bin_c_str_decodes bin_pk 32) by (done || lia).
  rewrite (hex2bin_c_str_decodes msg_bin 32) by (done || lia).
  cbn [bin_out]. f_equal.
  pose proof (length_decoding_take 32 pk Hp) as Hlp.
  pose proof (length_decoding_take 64 signature Hs) as Hls.
  pose proof (length_decoding_take 32 data Hd) as Hld.
  rewrite verify_raw_app by done.
  unfold verify_raw.
  rewrite (take_app_le (hex_decoding _) (drop _ msg_bin)); [done|].
  change (Z.to_nat 32) with 32%nat.
  change (Z.to_nat (2 * Z.of_nat 32)) with (Z.to_nat (2 * 32)) in Hld. lia.
Qed.

End Verify.

Lemma verify_gpg_hashed_msg_on_digits_witness :
  @verify_gpg_hashed_msg sample_lib (repeat x41 32) (repeat x00 64) (repeat x00 32)
    (sample_pk "0") (sample_pk "a") (sample_sig "a") = Ok 1.
Proof.
  rewrite (@verify_gpg_hashed_msg_on_digits sample_lib (repeat x41 32) (repeat x00 64)
             (repeat x00 32) (sample_pk "0") (sample_pk "a") (sample_sig "a"));
    [vm_compute; reflexivity | simpl; lia | simpl; lia | simpl; lia
    | reflexivity | reflexivity | reflexivity].
Defined.

Lemma verify_reads_leading_digits_witness :
  @verify sample_lib (repeat x00 64) (repeat x00 32) "data"
     (sample_pk "a" +:+ "/not a key") (sample_sig "a" +:+ "zzz") =
  @verify sample_lib (repeat xff 64) (repeat xff 32) "data" (sample_pk "a") (sample_sig "a").
Proof.
  apply (@verify_reads_leading_digits sample_lib (repeat xff 64) (repeat xff 32)
           (repeat x00 64) (repeat x00 32) "data" (sample_pk "a") (sample_sig "a")
           "/not a key" "zzz");
    first [reflexivity | simpl; lia].
Defined.

Lemma verify_gpg_hashed_msg_stale_digest_witness :
  bin_out (hex2bin (repeat x41 32) MAMBA_SHA256_SIZE_BYTES (c_str "0a0b")
             MAMBA_SHA256_SIZE_HEX None false false) !! 31%nat = Some x41.
Proof.
  apply (@verify_gpg_hashed_msg_stale_digest sample_lib (repeat x41 32) "0a0b" [] []);
    reflexivity.
Defined.

(** ** The signature of an upgraded root *)

Lemma hex_decoding_encoding b : hex_decoding (hex_encoding b) = b.
Proof.
  induction b as [|b0 b IH]; [reflexivity|].
  cbn [hex_encoding hex_decoding]. rewrite IH. f_equal.
  destruct b0; vm_compute; reflexivity.
Qed.

Lemma hex_encoding_is_hex b : forallb is_hex_char (hex_encoding b) = true.
Proof.
  induction b as [|b0 b IH]; [reflexivity|].
  cbn [hex_encoding forallb]. rewrite IH, andb_true_r.
  destruct b0; vm_compute; reflexivity.
Qed.

Lemma bytes_of_string_of_bytes l : bytes_of_string (string_of_list_byte l) = l.
Proof. apply list_byte_of_string_of_list_byte. Qed.

Lemma encoding_decodable b :
  length b = 64%nat →
  Signer.hex_decodable 128 (string_of_list_byte (hex_encoding b)) = true ∧
  String.length (string_of_list_byte (hex_encoding b)) = 128%nat.
Proof.
  intros Hb. pose proof (length_hex_encoding b) as He.
  assert (String.length (string_of_list_byte (hex_encoding b)) = 128%nat) as Hl
    by (rewrite <- length_bytes_of_string, bytes_of_string_of_bytes; lia).
  split; [|exact Hl].
  unfold Signer.hex_decodable. rewrite Hl, bytes_of_string_of_bytes.
  rewrite take_ge by (change (Z.to_nat 128) with 128%nat; lia).
  apply hex_encoding_is_hex.
Qed.

Lemma length_write_at_start maxlen written buf :
  0 ≤ maxlen ≤ Z.of_nat (length buf) →
  length (Signing.write_at_start maxlen written buf) = length buf.
Proof.
  intros Hmax. unfold Signing.write_at_start. cbv zeta.
  rewrite length_app, length_drop, length_take. lia.
Qed.

Section Upgraded.
Context `{Ed25519SignLib}.
Variable dump : json → result string.

Lemma length_sign data sk buf :
  (64 ≤ length buf)%nat → length (snd (Signing.sign data sk buf)) = length buf.
Proof.
  intros Hbuf. unfold Signing.sign.
  destruct (EVP_PKEY_new_raw_private_key _) as [ed_key|]; [|reflexivity].
  cbv zeta. destruct (negb (EVP_DigestSignInit ed_key =? 1)); [reflexivity|].
  destruct (EVP_DigestSign ed_key _) as [st written].
  destruct (negb (st =? 1)); cbn [snd];
    apply length_write_at_start; change MAMBA_ED25519_SIGSIZE_BYTES with 64; lia.
Qed.

(** The text [upgraded_signature] returns. *)
Lemma upgraded_signature_text sig_hex sig_bin j pk sk :
  (128 ≤ length sig_hex)%nat → (64 ≤ length sig_bin)%nat →
  v06_upgraded_signature dump sig_hex sig_bin j pk sk =
    (data ← dump j;
     Ok (RoleSignature.mk pk
           (string_of_list_byte
              (hex_encoding (take 64 (snd (Signing.sign data sk sig_bin))))))).
Proof.
  intros Hhex Hbin. unfold v06_upgraded_signature.
  destruct (dump j) as [data|e]; cbn [mbind result_bind]; [|reflexivity]. cbv zeta.
  pose proof (length_sign data sk sig_bin Hbin) as Hlen.
  set (signed := snd (Signing.sign data sk sig_bin)) in *.
  change MAMBA_ED25519_SIGSIZE_HEX with 128. change MAMBA_ED25519_SIGSIZE_BYTES with 64.
  rewrite bin2hex_take. change (Z.to_nat 64) with 64%nat.
  assert (length (take 64 signed) = 64%nat) as Ht by (rewrite length_take; lia).
  pose proof (bin2hex_ok sig_hex (take 64 signed) 128) as Hok.
  rewrite Ht in Hok. change (Z.of_nat 64) with 64 in Hok.
  rewrite Hok; [|vm_compute; reflexivity|lia|lia].
  cbn [mbind result_bind]. do 3 f_equal.
  change (Z.to_nat 128) with 128%nat.
  pose proof (length_hex_encoding (take 64 signed)) as He.
  replace 128%nat with (length (hex_encoding (take 64 signed))) at 1 by lia.
  apply take_app_length.
Qed.

(** X9. [upgraded_signature] throws exactly when [j.dump()] throws, and
    then what [dump] throws (the exception of the JSON library for a
    string that is not valid UTF-8); neither [sign] nor [bin2hex] makes it
    throw. When the document is serialised, it returns the key it was
    given as [keyid] and, as [sig], the 128 lowercase hexadecimal digits
    of the 64 bytes its signature array holds after [sign], a text that
    [verify] can decode. The value returned by [sign] is not looked at:
    when the secret key cannot be read the array is as it was on entry,
    and its stale content is what is returned as the signature. *)
Theorem upgraded_signature_well_formed (sig_hex sig_bin : list byte) (j : json)
    (pk : string) (sk : list byte) :
  (128 ≤ length sig_hex)%nat → (64 ≤ length sig_bin)%nat →
  match dump j with
  | Err e => v06_upgraded_signature dump sig_hex sig_bin j pk sk = Err e
  | Ok data =>
      let signed := snd (Signing.sign data sk sig_bin) in
      ∃ s,
        v06_upgraded_signature dump sig_hex sig_bin j pk sk = Ok (RoleSignature.mk pk s) ∧
        bytes_of_string s = hex_encoding (take 64 signed) ∧
        String.length s = 128%nat ∧
        Signer.hex_decodable 128 s = true ∧
        hex_decoding (bytes_of_string s) = take 64 signed ∧
        (EVP_PKEY_new_raw_private_key (take 32 sk) = None → signed = sig_bin)
  end.
Proof.
  intros Hhex Hbin. rewrite upgraded_signature_text by done.
  destruct (dump j) as [data|e]; cbn [mbind result_bind]; [|reflexivity].
  cbv zeta. set (signed := snd (Signing.sign data sk sig_bin)).
  pose proof (length_sign data sk sig_bin Hbin) as Hlen. fold signed in Hlen.
  assert (length (take 64 signed) = 64%nat) as Ht by (rewrite length_take; lia).
  pose proof (length_hex_encoding (take 64 signed)) as He.
  destruct (encoding_decodable (take 64 signed) Ht) as [Hdec Hl].
  eexists. split; [reflexivity|].
  fold signed. rewrite bytes_of_string_of_bytes.
  split; [reflexivity|]. split; [exact Hl|]. split; [exact Hdec|]. split.
  - apply hex_decoding_encoding.
  - intros Hnone. subst signed. unfold Signing.sign.
    change (Z.to_nat MAMBA_ED25519_KEYSIZE_BYTES) with 32%nat. by rewrite Hnone.
Qed.

End Upgraded.

Lemma upgraded_signature_well_formed_witness :
  (∃ s, @v06_upgraded_signature sample_sign_lib sample_dump_utf8 (repeat x41 128)
          (repeat x41 64) JNull (sample_pk "a") (repeat xaa 32)
        = Ok (RoleSignature.mk (sample_pk "a") s) ∧
        String.length s = 128%nat) ∧
  @v06_upgraded_signature sample_sign_lib sample_dump_utf8 (repeat x41 128)
    (repeat x41 64) (JStr (String (ascii_of_nat 255) EmptyString)) (sample_pk "a")
    (repeat xaa 32)
  = Err json_exception.
Proof.
  split.
  - destruct (@upgraded_signature_well_formed sample_sign_lib sample_dump_utf8
                (repeat x41 128) (repeat x41 64) JNull (sample_pk "a") (repeat xaa 32))
      as (s & Hs & _ & Hlen & _); [simpl; lia | simpl; lia |].
    exists s. split; [exact Hs | exact Hlen].
  - apply (@upgraded_signature_well_formed sample_sign_lib sample_dump_utf8
             (repeat x41 128) (repeat x41 64) (JStr (String (ascii_of_nat 255) EmptyString))
             (sample_pk "a") (repeat xaa 32)); simpl; lia.
Defined.

Section UpgradedVerify.
Context `{Ed25519SignLib} `{Ed25519Lib}.
Variable dump : json → result string.

(** X10. The signature text of [upgraded_signature] goes through
    [verify] unchanged: verifying it under a key of 64 hexadecimal digits
    is the library verification of the 64 bytes [sign] left in its
    array for the text of the document, under the bytes of that key;
    under any other key text [verify] throws. *)
Theorem upgraded_signature_verifies (sig_hex sig_bin bin_signature bin_pk : list byte)
    (j : json) (data pk : string) (sk : list byte) (s : RoleSignature.t) :
  (128 ≤ length sig_hex)%nat → (64 ≤ length sig_bin)%nat →
  (64 ≤ length bin_signature)%nat → (32 ≤ length bin_pk)%nat →
  v06_upgraded_signature dump sig_hex sig_bin j pk sk = Ok s →
  ∃ text,
    dump j = Ok text ∧
    Signer.verify bin_signature bin_pk data (RoleSignature.keyid s) (RoleSignature.sig s) =
      if Signer.hex_decodable 64 pk
      then Ok (Signer.verify_data data
                 (hex_decoding (take 64 (bytes_of_string pk)))
                 (take 64 (snd (Signing.sign text sk sig_bin))))
      else Err runtime_error.
Proof.
  intros Hhex Hbin Hbs Hbp Hs.
  rewrite upgraded_signature_text in Hs by done.
  destruct (dump j) as [text|e]; cbn [mbind result_bind] in Hs; [|done].
  injection Hs as <-. exists text. split; [reflexivity|].
  cbn [RoleSignature.keyid RoleSignature.sig].
  pose proof (length_sign text sk sig_bin Hbin) as Hlen.
  set (signed := snd (Signing.sign text sk sig_bin)) in *.
  assert (length (take 64 signed) = 64%nat) as Ht by (rewrite length_take; lia).
  destruct (encoding_decodable (take 64 signed) Ht) as [Hdec Hl].
  rewrite verify_on_digits by done. rewrite Hdec. cbn [andb].
  destruct (Signer.hex_decodable 64 pk); [|reflexivity].
  rewrite bytes_of_string_of_bytes.
  rewrite (take_ge (hex_encoding _)) by (rewrite length_hex_encoding; lia).
  rewrite hex_decoding_encoding. reflexivity.
Qed.

End UpgradedVerify.

Lemma upgraded_signature_verifies_witness :
  ∃ s, @v06_upgraded_signature sample_sign_lib sample_dump_utf8 (repeat x41 128)
         (repeat x41 64) JNull (sample_pk "a") (repeat xaa 32) = Ok s ∧
       @Signer.verify sample_lib (repeat x00 64) (repeat x00 32) "data"
          (RoleSignature.keyid s) (RoleSignature.sig s) = Ok 1.
Proof.
  destruct (@v06_upgraded_signature sample_sign_lib sample_dump_utf8 (repeat x41 128)
              (repeat x41 64) JNull (sample_pk "a") (repeat xaa 32)) as [s|e] eqn:Hs;
    [|vm_compute in Hs; discriminate Hs].
  exists s. split; [reflexivity|].
  destruct (@upgraded_signature_verifies sample_sign_lib sample_lib sample_dump_utf8
              (repeat x41 128) (repeat x41 64) (repeat x00 64) (repeat x00 32)
              JNull "data" (sample_pk "a") (repeat xaa 32) s
              ltac:(simpl; lia) ltac:(simpl; lia) ltac:(simpl; lia) ltac:(simpl; lia)
              Hs) as (text & Htext & ->).
  vm_compute in Htext. injection Htext as <-.
  vm_compute. reflexivity.
Defined.

End SignerMore.
(** * Further properties of the signature sets and of the threshold check *)

Module CheckSignaturesMore.
Import HexCodec HexText Signer SignerFacts SignerMore CheckSignaturesFacts SchemaFacts.

(** ** Signature sets *)

Lemma string_compare_Eq s1 s2 : String.compare s1 s2 = Eq ↔ s1 = s2.
Proof.
  split; [apply String.compare_eq_iff|]. intros ->. apply string_compare_refl.
Qed.

Lemma sigset_insert_elem x s y :
  StronglySorted RoleSignature.lt s →
  y ∈ SigSet.insert x s ↔
  y ∈ s ∨ (y = x ∧ RoleSignature.keyid x ∉ (RoleSignature.keyid <$> s)).
Proof.
  induction 1 as [|z s Hs IH Hz]; cbn [SigSet.insert fmap list_fmap].
  - rewrite list_elem_of_singleton. split; [intros ->; right; split; [done|]|].
    + apply not_elem_of_nil.
    + intros [Hin|[-> _]]; [by apply not_elem_of_nil in Hin|done].
  - destruct (String.compare (RoleSignature.keyid x) (RoleSignature.keyid z)) eqn:Hc.
    + apply string_compare_Eq in Hc. split; [by left|].
      intros [Hin|[-> Hnin]]; [done|]. exfalso. apply Hnin. rewrite Hc. apply list_elem_of_here.
    + rewrite (elem_of_cons (z :: s) y x). split.
      * intros [->|Hin]; [|by left]. right. split; [done|].
        intros Hin. apply elem_of_cons in Hin as [Heq|Hin].
        -- rewrite Heq, string_compare_refl in Hc. done.
        -- apply list_elem_of_fmap in Hin as (w & Heq & Hw).
           rewrite Forall_forall in Hz. specialize (Hz w Hw).
           unfold RoleSignature.lt in Hz.
           pose proof (string_compare_lt_trans _ _ _ Hc Hz) as Hlt.
           rewrite Heq, string_compare_refl in Hlt. done.
      * intros [Hin|[-> _]]; [by right|by left].
    + rewrite (elem_of_cons (SigSet.insert x s) y z), (elem_of_cons s y z), IH. split.
      * intros [->|[Hin|[-> Hnin]]]; [left; by left|left; by right|].
        right. split; [done|]. intros Hin. apply elem_of_cons in Hin as [Heq|Hin]; [|done].
        rewrite Heq, string_compare_refl in Hc. done.
      * intros [[->|Hin]|[-> Hnin]]; [by left|right; by left|].
        right. right. split; [done|]. intros Hin. apply Hnin. by apply list_elem_of_further.
Qed.

Lemma sigset_fold_elem v : ∀ acc s,
  StronglySorted RoleSignature.lt acc →
  s ∈ (fold_left (λ (s : SigSet.t) x, SigSet.insert x s) v acc) ↔
  s ∈ acc ∨ ((RoleSignature.keyid s ∉ (RoleSignature.keyid <$> acc)) ∧ first_with_keyid v s).
Proof.
  induction v as [|x v IH]; intros acc s Hacc; cbn [fold_left].
  - split; [by left|]. intros [Hin|[_ (pre & post & Heq & _)]]; [done|].
    by destruct pre.
  - rewrite IH by (by apply sigset_insert_sorted).
    rewrite sigset_insert_elem by done.
    assert (∀ k, k ∈ (RoleSignature.keyid <$> SigSet.insert x acc) ↔
                 k ∈ (RoleSignature.keyid <$> acc) ∨ k = RoleSignature.keyid x) as Hkeys.
    { intros k. rewrite !list_elem_of_fmap. split.
      - intros (y & -> & Hy). apply sigset_insert_elem in Hy as [Hy|[-> _]]; [|by right|done].
        left. eauto.
      - intros [(y & -> & Hy) | ->].
        + exists y. split; [done|]. apply sigset_insert_elem; [done|]. by left.
        + destruct (decide (RoleSignature.keyid x ∈ (RoleSignature.keyid <$> acc)))
            as [Hin|Hnin].
          * apply list_elem_of_fmap in Hin as (y & Heq & Hy).
            exists y. split; [done|]. apply sigset_insert_elem; [done|]. by left.
          * exists x. split; [done|]. apply sigset_insert_elem; [done|]. by right. }
    rewrite Hkeys. unfold first_with_keyid. split.
    + intros [[Hin|[-> Hnin]]|[Hnk (pre & post & -> & Hpre)]].
      * by left.
      * right. split; [done|]. exists [], v. split; [done|]. apply not_elem_of_nil.
      * right. split; [tauto|]. exists (x :: pre), post. split; [done|].
        cbn [fmap list_fmap]. rewrite not_elem_of_cons. split; [|done].
        intros Heq. apply Hnk. by right.
    + intros [Hin|[Hnin (pre & post & Heq & Hpre)]]; [left; by left|].
      destruct pre as [|p pre]; cbn [app] in Heq; injection Heq as -> ->.
      * left. right. done.
      * cbn [fmap list_fmap] in Hpre. apply not_elem_of_cons in Hpre as [Hne Hpre].
        right. split; [|by exists pre, post].
        intros [?|?]; done.
Qed.

(** The set built from a vector holds, for each [keyid], the first
    signature of the vector with this [keyid]. *)
Lemma sigset_of_vector_elem v s : s ∈ SigSet.of_vector v ↔ first_with_keyid v s.
Proof.
  unfold SigSet.of_vector. rewrite sigset_fold_elem by constructor.
  split; [|intros Hf; right; split; [apply not_elem_of_nil|done]].
  intros [Hin|[_ Hf]]; [by apply not_elem_of_nil in Hin|done].
Qed.

Lemma first_with_keyid_NoDup v s :
  NoDup (RoleSignature.keyid <$> v) → first_with_keyid v s ↔ s ∈ v.
Proof.
  intros Hnd. unfold first_with_keyid. split.
  - intros (pre & post & -> & _). apply elem_of_app. right. apply list_elem_of_here.
  - intros Hin. apply list_elem_of_split in Hin as (pre & post & ->).
    exists pre, post. split; [done|].
    rewrite fmap_app in Hnd. apply NoDup_app in Hnd as (_ & Hdisj & _).
    intros Hpre. apply (Hdisj _ Hpre). cbn [fmap list_fmap]. apply list_elem_of_here.
Qed.

Lemma mapM_Ok_Forall2 {A B} (f : A → result B) (l : list A) : ∀ v,
  mapM f l = Ok v ↔ Forall2 (λ a b, f a = Ok b) l v.
Proof.
  induction l as [|a l IH]; intros v; cbn [mapM].
  - split; [intros [= <-]; constructor|]. by inversion 1.
  - destruct (f a) as [b|e] eqn:Hfa; cbn [mbind result_bind].
    + destruct (mapM f l) as [v'|e] eqn:Hl; cbn [mbind result_bind];
        unfold mret, result_ret.
      * split.
        -- intros [= <-]. constructor; [done|]. by apply IH.
        -- inversion 1 as [|? b' ? v'' Hb Hrest]; subst.
           apply IH in Hrest. congruence.
      * split; [done|]. inversion 1 as [|? b' ? v'' Hb Hrest]; subst.
        apply IH in Hrest. done.
    + split; [done|]. inversion 1; subst. congruence.
Qed.

(** X13. [v1::RootRole::signatures] reads the array ["signatures"] of the
    document and keeps, in increasing order of [keyid], the first
    signature of the array for each [keyid]: a later signature under a
    [keyid] already seen is dropped. A failure is an exception of the
    JSON library. *)
Theorem v1_signatures_first_wins (j : json) :
  match v1.signatures j with
  | Ok sigs =>
      ∃ l v, Json.at_ j "signatures" = Ok (JArr l) ∧
             Forall2 (λ js s, RoleSignature.from_json js = Ok s) l v ∧
             StronglySorted RoleSignature.lt sigs ∧
             ∀ s, s ∈ sigs ↔ first_with_keyid v s
  | Err e => e = json_exception
  end.
Proof.
  unfold v1.signatures.
  destruct (Json.at_ j "signatures") as [js|e] eqn:Hat; cbn [mbind result_bind].
  2:{ by apply at_json_only in Hat. }
  destruct js as [| | | |l|]; cbn [Json.get_vector mbind result_bind]; try done.
  destruct (mapM RoleSignature.from_json l) as [v|e] eqn:Hv; cbn [mbind result_bind].
  - exists l, v. split; [done|]. split; [by apply mapM_Ok_Forall2|].
    split; [apply sigset_of_vector_sorted|]. apply sigset_of_vector_elem.
  - clear Hat. revert e Hv. induction l as [|a l IH]; intros e; cbn [mapM]; [done|].
    destruct (RoleSignature.from_json a) as [b|e'] eqn:Ha; cbn [mbind result_bind].
    + destruct (mapM RoleSignature.from_json l) as [v'|e''];
        cbn [mbind result_bind]; unfold mret, result_ret; [done|].
      intros [= <-]. by apply IH.
    + intros [= <-]. unfold RoleSignature.from_json in Ha.
      destruct (Json.at_ a "keyid" ≫= Json.get_string) as [k|e0] eqn:E0;
        cbn [mbind result_bind] in Ha.
      2:{ injection Ha as <-. json_err E0. }
      destruct (Json.at_ a "sig" ≫= Json.get_string) as [g|e1] eqn:E1;
        cbn [mbind result_bind] in Ha; [done|].
      injection Ha as <-. json_err E1.
Qed.

Lemma v06_signatures_inv j sigs :
  v06.signatures j = Ok sigs →
  ∃ m, (Json.at_ j "signatures" ≫= Json.get_map (Json.get_map Json.get_string)) = Ok m ∧
       StronglySorted RoleSignature.lt sigs ∧
       ∀ s, s ∈ sigs ↔
            ∃ fields, m !! RoleSignature.keyid s = Some fields ∧
                      fields !! "signature" = Some (RoleSignature.sig s).
Proof.
  unfold v06.signatures.
  destruct (Json.at_ j "signatures" ≫= Json.get_map (Json.get_map Json.get_string))
    as [m|e] eqn:Hm; cbn [mbind result_bind]; [|done].
  destruct (Json.map_traverse out_of_range v06.signature_at m) as [per_key|e] eqn:Hpk;
    cbn [mbind result_bind]; [|done].
  intros [= <-]. exists m. split; [done|]. split; [apply sigset_of_vector_sorted|].
  intros s. rewrite sigset_of_vector_elem.
  set (v := (λ '(k, s), RoleSignature.mk k s) <$> map_to_list per_key).
  assert (RoleSignature.keyid <$> v = (map_to_list per_key).*1) as Hkeys.
  { unfold v. rewrite <- list_fmap_compose. apply list_fmap_ext.
    intros i [k g] _. reflexivity. }
  rewrite first_with_keyid_NoDup by (rewrite Hkeys; apply NoDup_fst_map_to_list).
  unfold v. rewrite list_elem_of_fmap.
  pose proof (map_traverse_lookup _ _ _ _ Hpk) as Hl.
  split.
  - intros ([k g] & -> & Hin). apply elem_of_map_to_list in Hin.
    apply Hl in Hin as (fields & Hf & Hat). exists fields. split; [done|].
    unfold v06.signature_at in Hat. cbn [RoleSignature.sig].
    destruct (fields !! "signature"); congruence.
  - intros (fields & Hf & Hs). exists (RoleSignature.keyid s, RoleSignature.sig s).
    split; [by destruct s|]. apply elem_of_map_to_list, Hl.
    exists fields. split; [done|]. unfold v06.signature_at. by rewrite Hs.
Qed.

Lemma get_map_inv {A} (read : json → result A) (write : A → json) j (m : gmap string A) :
  (∀ a b, read a = Ok b → a = write b) →
  Json.get_map read j = Ok m → j = Json.of_map write m.
Proof.
  intros Hinv. destruct j as [| | | | |mj]; try done. cbn [Json.get_map]. intros Ht.
  unfold Json.of_map. f_equal. apply map_eq. intros k. rewrite lookup_fmap.
  pose proof (map_traverse_lookup _ _ _ _ Ht k) as Hl.
  destruct (m !! k) as [b|] eqn:Hb; cbn [fmap option_fmap option_map].
  - destruct (proj1 (Hl b) eq_refl) as (a & -> & Ha). f_equal. by apply Hinv.
  - destruct (mj !! k) as [a|] eqn:Ha; [|done]. exfalso.
    assert (k ∈ dom m) as Hin
      by (rewrite (map_traverse_dom _ _ _ _ Ht); apply elem_of_dom; eauto).
    apply elem_of_dom in Hin as [b' Hb']. congruence.
Qed.

Lemma get_string_inv a s : Json.get_string a = Ok s → a = JStr s.
Proof. destruct a; try done. by intros [= ->]. Qed.

Lemma v06_signatures_json_read entries :
  Json.get_map (Json.get_map Json.get_string) (v06_signatures_json entries) = Ok entries.
Proof.
  unfold v06_signatures_json.
  rewrite (UpgradeFacts.map_json_round_trip _ _ id); [by rewrite map_fmap_id|].
  intros fields.
  rewrite (UpgradeFacts.map_json_round_trip _ _ id); [by rewrite map_fmap_id|done].
Qed.

Lemma v06_signatures_json_inv js entries :
  Json.get_map (Json.get_map Json.get_string) js = Ok entries →
  js = v06_signatures_json entries.
Proof.
  apply get_map_inv. intros a b. apply get_map_inv. apply get_string_inv.
Qed.

Lemma sigset_of_vector_length v :
  NoDup (RoleSignature.keyid <$> v) → length (SigSet.of_vector v) = length v.
Proof.
  intros Hnd. apply Permutation_length, NoDup_Permutation.
  - eapply NoDup_fmap_1, sigset_sorted_NoDup, sigset_of_vector_sorted.
  - by eapply NoDup_fmap_1.
  - intros s. rewrite sigset_of_vector_elem. by apply first_with_keyid_NoDup.
Qed.

(** X14. [v06::RootRole::signatures] reads the member ["signatures"] of
    the document as an object, keyed by public key, of objects of
    strings. When every entry has a member ["signature"] it returns
    exactly one signature for each entry: the key of the entry with, as
    [sig], its member ["signature"], the other members being ignored.
    When some entry lacks this member, [std::map::at] throws
    [std::out_of_range]. On a document whose ["signatures"] is missing or
    is not of this shape, the JSON library throws. *)
Theorem v06_signatures_per_key (j : json) :
  (∀ entries : gmap string (gmap string string),
     Json.at_ j "signatures" = Ok (v06_signatures_json entries) →
     ((∀ k fields, entries !! k = Some fields → is_Some (fields !! "signature")) →
      ∃ sigs,
        v06.signatures j = Ok sigs ∧
        StronglySorted RoleSignature.lt sigs ∧
        length sigs = size entries ∧
        ∀ s, s ∈ sigs ↔
             ∃ fields, entries !! RoleSignature.keyid s = Some fields ∧
                       fields !! "signature" = Some (RoleSignature.sig s)) ∧
     ((∃ k fields, entries !! k = Some fields ∧ fields !! "signature" = None) →
      v06.signatures j = Err out_of_range)) ∧
  ((∀ entries, Json.at_ j "signatures" ≠ Ok (v06_signatures_json entries)) →
   v06.signatures j = Err json_exception).
Proof.
  split.
  - intros entries Hat.
    assert ((Json.at_ j "signatures" ≫= Json.get_map (Json.get_map Json.get_string))
            = Ok entries) as Hentries
      by (rewrite Hat; cbn [mbind result_bind]; apply v06_signatures_json_read).
    split.
    + intros Hall.
      assert (Json.map_traverse out_of_range v06.signature_at entries
              = Ok ((λ fields, default EmptyString (fields !! "signature")) <$> entries))
        as Hpk.
      { apply UpgradeFacts.map_traverse_fmap. intros k fields Hk.
        destruct (Hall k fields Hk) as [g Hg]. unfold v06.signature_at. by rewrite Hg. }
      destruct (v06.signatures j) as [sigs|e] eqn:Hsigs.
      2:{ unfold v06.signatures in Hsigs. rewrite Hentries in Hsigs.
          cbn [mbind result_bind] in Hsigs. rewrite Hpk in Hsigs. done. }
      exists sigs. split; [done|].
      destruct (v06_signatures_inv j sigs Hsigs) as (m & Hm & Hsorted & Hin).
      rewrite Hentries in Hm. injection Hm as <-.
      split; [done|]. split; [|done].
      unfold v06.signatures in Hsigs. rewrite Hentries in Hsigs.
      cbn [mbind result_bind] in Hsigs. rewrite Hpk in Hsigs.
      cbn [mbind result_bind] in Hsigs. injection Hsigs as <-.
      rewrite sigset_of_vector_length.
      * by rewrite length_fmap, length_map_to_list, map_size_fmap.
      * rewrite <- list_fmap_compose.
        erewrite list_fmap_ext; [apply NoDup_fst_map_to_list|].
        intros i [k g] _. reflexivity.
    + intros (k & fields & Hk & Hnone).
      unfold v06.signatures. rewrite Hentries. cbn [mbind result_bind].
      unfold Json.map_traverse. case_bool_decide as Hall; [|done].
      specialize (Hall k fields Hk). cbn in Hall. unfold v06.signature_at in Hall.
      by rewrite Hnone in Hall.
  - intros Hshape. unfold v06.signatures.
    destruct (Json.at_ j "signatures" ≫= Json.get_map (Json.get_map Json.get_string))
      as [m|e] eqn:Hm; cbn [mbind result_bind].
    + exfalso. destruct (Json.at_ j "signatures") as [js|] eqn:Hat; [|done].
      cbn [mbind result_bind] in Hm. apply v06_signatures_json_inv in Hm as ->.
      by apply (Hshape m).
    + assert (e = json_exception) as ->; [|done].
      eapply bind_json_only in Hm; [exact Hm|apply at_json_only|].
      intros a. apply get_map_json_only.
Qed.

Lemma v06_signatures_per_key_witness :
  (∃ sigs, v06.signatures (sample_v06_json 1) = Ok sigs ∧ length sigs = 1%nat) ∧
  v06.signatures
    (JObj {[ "signatures"%string :=
               v06_signatures_json {[ "k"%string := {[ "sig"%string := "00"%string ]} ]} ]})
  = Err out_of_range.
Proof.
  split.
  - pose (entries := ({[ sample_pk "a" :=
                           ({[ "signature"%string := sample_sig "a" ]} : gmap string string) ]}
                      : gmap string (gmap string string))).
    assert (Json.at_ (sample_v06_json 1) "signatures" = Ok (v06_signatures_json entries))
      as Hat by (vm_compute; reflexivity).
    destruct (proj1 (proj1 (v06_signatures_per_key (sample_v06_json 1)) entries Hat))
      as (sigs & Hs & _ & Hlen & _).
    + intros k fields Hk. apply lookup_singleton_Some in Hk as [_ <-].
      exists (sample_sig "a"). reflexivity.
    + exists sigs. split; [exact Hs|]. rewrite Hlen. apply map_size_singleton.
  - pose (entries := ({[ "k"%string :=
                           ({[ "sig"%string := "00"%string ]} : gmap string string) ]}
                      : gmap string (gmap string string))).
    assert (Json.at_ (JObj {[ "signatures"%string := v06_signatures_json entries ]})
              "signatures" = Ok (v06_signatures_json entries)) as Hat by reflexivity.
    apply (proj2 (proj1 (v06_signatures_per_key _) entries Hat)).
    exists "k"%string, ({[ "sig"%string := "00"%string ]} : gmap string string).
    split; reflexivity.
Defined.

Lemma NoDup_fmap_filter {A B} (f : A → B) (p : A → bool) (l : list A) :
  NoDup (f <$> l) → NoDup (f <$> List.filter p l).
Proof.
  induction l as [|a l IH]; cbn [fmap list_fmap List.filter]; [done|].
  intros Hnd. apply NoDup_cons in Hnd as [Hnin Hnd].
  destruct (p a); [|by apply IH]. cbn [fmap list_fmap].
  apply NoDup_cons. split; [|by apply IH].
  intros Hin. apply Hnin. apply list_elem_of_fmap in Hin as (b & -> & Hb).
  apply list_elem_of_fmap. exists b. split; [done|].
  apply list_elem_of_In in Hb. apply List.filter_In in Hb as [Hb _].
  by apply list_elem_of_In.
Qed.

Lemma NoDup_length_dom {A} (l : list string) (m : gmap string A) :
  NoDup l → (∀ k, k ∈ l → is_Some (m !! k)) → (length l ≤ size m)%nat.
Proof.
  intros Hnd Hin. rewrite <- size_dom.
  unfold size, set_size. cbn.
  apply submseteq_length, NoDup_submseteq; [done|].
  intros k Hk. apply elem_of_elements, elem_of_dom. by apply Hin.
Qed.

(** ** The threshold check without assumption on the signatures *)

Section Check.
Context `{Ed25519Lib}.
Variables bin_signature bin_pk : list byte.
Variable signed_data : string.
Variable keyring : RoleFullKeys.t.

#[local] Abbreviation loop := (check_signatures_loop bin_signature bin_pk signed_data keyring).
#[local] Abbreviation check := (λ sigs, check_signatures bin_signature bin_pk signed_data sigs keyring).
#[local] Abbreviation count := (valid_count bin_signature bin_pk signed_data keyring).
#[local] Abbreviation valid := (is_valid bin_signature bin_pk signed_data keyring).
#[local] Abbreviation threshold := (RoleFullKeys.threshold keyring).

(** The counter never runs ahead of the number of valid signatures. *)
Lemma check_signatures_loop_bound sigs : ∀ valid_sig valid_sig',
  threshold ≤ SIZE_MAX → 0 ≤ valid_sig → valid_sig < threshold ∨ valid_sig = 0 →
  loop sigs valid_sig = Ok valid_sig' →
  valid_sig ≤ valid_sig' ≤ valid_sig + count sigs.
Proof.
  induction sigs as [|s sigs IH]; intros v v' Hth Hv0 Hv Hloop.
  - cbn in Hloop. injection Hloop as <-. unfold valid_count. simpl. lia.
  - cbn [check_signatures_loop] in Hloop. rewrite valid_count_cons.
    pose proof (valid_count_nonneg bin_signature bin_pk signed_data keyring sigs) as Hc.
    unfold is_valid, verdict.
    destruct (RoleFullKeys.keys keyring !! RoleSignature.keyid s) as [key|].
    + destruct (Signer.verify _ _ _ _ _) as [r|e]; [|done].
      cbn [mbind result_bind] in Hloop.
      assert (size_t_wrap (v + 1) = v + 1) as Hw
        by (unfold size_t_wrap; apply Z.mod_small; unfold SIZE_MAX in Hth; lia).
      rewrite Hw in Hloop.
      destruct (r =? 1).
      * destruct (Z.leb_spec threshold (v + 1)); [injection Hloop as <-; lia|].
        apply IH in Hloop; [lia|done|lia|lia].
      * destruct (Z.leb_spec threshold v); [injection Hloop as <-; lia|].
        apply IH in Hloop; [lia|done|lia|lia].
    + cbn [mbind result_bind] in Hloop.
      destruct (Z.leb_spec threshold v); [injection Hloop as <-; lia|].
      apply IH in Hloop; [lia|done|lia|lia].
Qed.

Lemma check_signatures_Ok_count sigs :
  threshold ≤ SIZE_MAX → check sigs = Ok tt → threshold ≤ count sigs.
Proof.
  intros Hth Hcheck. unfold check_signatures in Hcheck.
  destruct (loop sigs 0) as [v'|] eqn:Hloop; [|done].
  cbn [mbind result_bind] in Hcheck.
  apply check_signatures_loop_bound in Hloop; [|done|lia|by right].
  destruct (Z.ltb_spec v' threshold); [done|]. lia.
Qed.

(** A valid signature is one the library accepts. *)
Lemma is_valid_accepted s :
  (64 ≤ length bin_signature)%nat → (32 ≤ length bin_pk)%nat →
  valid s = accepted_by keyring signed_data s.
Proof.
  intros Hbs Hbp. unfold is_valid, verdict, accepted_by.
  destruct (RoleFullKeys.keys keyring !! RoleSignature.keyid s) as [key|]; [|done].
  rewrite verify_on_digits by done. unfold library_accepts.
  destruct (hex_decodable 128 (RoleSignature.sig s)) eqn:Hs; [|done].
  destruct (hex_decodable 64 (Key.keyval key)) eqn:Hk; [|done].
  cbn [andb]. unfold verify_data, verify_raw.
  pose proof (length_decoding_take 32 (Key.keyval key) Hk) as Hlk.
  pose proof (length_decoding_take 64 (RoleSignature.sig s) Hs) as Hls.
  change (Z.to_nat (2 * Z.of_nat 32)) with 64%nat in Hlk.
  change (Z.to_nat (2 * Z.of_nat 64)) with 128%nat in Hls.
  change (Z.to_nat MAMBA_ED25519_KEYSIZE_BYTES) with 32%nat.
  change (Z.to_nat MAMBA_ED25519_SIGSIZE_BYTES) with 64%nat.
  rewrite (take_ge (hex_decoding (take 64 _))) by lia.
  rewrite (take_ge (hex_decoding (take 128 _))) by lia.
  rewrite Nat2Z.id. unfold c_str.
  rewrite <- length_bytes_of_string, take_app_length.
  destruct (EVP_PKEY_new_raw_public_key _) as [ed_key|]; [|done].
  destruct (Z.eqb_spec (EVP_DigestVerifyInit ed_key) 1) as [_|Hne]; cbn [negb andb].
  - destruct (Z.eqb_spec (EVP_DigestVerify ed_key
                 (hex_decoding (take 128 (bytes_of_string (RoleSignature.sig s))))
                 (bytes_of_string signed_data)) 1) as [_|Hne]; cbn [negb]; [done|].
    by apply Z.eqb_neq.
  - by apply Z.eqb_neq.
Qed.

(** X11. [check_signatures] returns only when the library has accepted
    at least [threshold] signatures of the set, each by a key of the
    keyring and no two under the same [keyid]; each of them is the first
    signature with its [keyid] in the vector the set was built from. No
    assumption is made on the other signatures. *)
Theorem check_signatures_sound (v : list RoleSignature.t) :
  threshold ≤ SIZE_MAX →
  (64 ≤ length bin_signature)%nat → (32 ≤ length bin_pk)%nat →
  check (SigSet.of_vector v) = Ok tt →
  ∃ accepted,
    threshold ≤ Z.of_nat (length accepted) ∧
    NoDup (RoleSignature.keyid <$> accepted) ∧
    Forall (λ s, first_with_keyid v s ∧ accepted_by keyring signed_data s = true)
           accepted.
Proof.
  intros Hth Hbs Hbp Hcheck.
  exists (List.filter valid (SigSet.of_vector v)). split; [|split].
  - by apply check_signatures_Ok_count.
  - apply NoDup_fmap_filter, sigset_sorted_NoDup, sigset_of_vector_sorted.
  - apply Forall_forall. intros s Hs.
    apply list_elem_of_In, List.filter_In in Hs as [Hs Hvalid].
    split.
    + by apply sigset_of_vector_elem, list_elem_of_In.
    + by rewrite <- is_valid_accepted.
Qed.

(** X12. A threshold above the number of keys of the keyring cannot be
    met: [check_signatures] never returns, whatever the signatures. *)
Theorem check_signatures_needs_enough_keys (v : list RoleSignature.t) :
  threshold ≤ SIZE_MAX →
  Z.of_nat (size (RoleFullKeys.keys keyring)) < threshold →
  check (SigSet.of_vector v) ≠ Ok tt.
Proof.
  intros Hth Hfew Hcheck.
  apply check_signatures_Ok_count in Hcheck; [|done].
  unfold valid_count in Hcheck.
  set (accepted := List.filter valid (SigSet.of_vector v)) in *.
  assert (length accepted ≤ size (RoleFullKeys.keys keyring))%nat; [|lia].
  rewrite <- (length_fmap RoleSignature.keyid).
  apply NoDup_length_dom.
  - apply NoDup_fmap_filter, sigset_sorted_NoDup, sigset_of_vector_sorted.
  - intros k Hk. apply list_elem_of_fmap in Hk as (s & -> & Hs).
    apply list_elem_of_In, List.filter_In in Hs as [_ Hvalid].
    unfold is_valid, verdict in Hvalid.
    destruct (RoleFullKeys.keys keyring !! RoleSignature.keyid s); [eauto|done].
Qed.

#[local] Abbreviation fails := (conversion_fails bin_signature bin_pk signed_data keyring).

Lemma check_signatures_loop_reaches pre post : ∀ valid_sig,
  threshold ≤ SIZE_MAX → 0 ≤ valid_sig → valid_sig < threshold ∨ valid_sig = 0 →
  Forall (λ s, fails s = false) pre → pre ≠ [] →
  threshold ≤ valid_sig + count pre →
  ∃ valid_sig', loop (pre ++ post) valid_sig = Ok valid_sig' ∧ threshold ≤ valid_sig'.
Proof.
  induction pre as [|s pre IH]; intros v Hth Hv0 Hv Hall Hne Hcount; [done|].
  apply Forall_cons in Hall as [Hs Hall]. rewrite valid_count_cons in Hcount.
  cbn [app]. rewrite check_signatures_loop_cons by (done || unfold SIZE_MAX in *; lia).
  cbv zeta.
  destruct (Z.leb_spec threshold (v + (if valid s then 1 else 0))) as [Hbreak|Hgo].
  - eauto.
  - apply IH; [done|destruct (valid s); lia|by left|done| |lia].
    intros ->. unfold valid_count in Hcount. cbn in Hcount. lia.
Qed.

(** X27. Signatures that come after the threshold has been reached are
    not looked at: when the first signatures of the set, in its order,
    hold [threshold] valid ones and none that makes [verify] throw,
    [check_signatures] returns, whatever follows them, signatures that
    cannot be converted included. *)
Theorem check_signatures_stops_at_threshold (pre post : list RoleSignature.t) :
  threshold ≤ SIZE_MAX →
  Forall (λ s, fails s = false) pre → pre ≠ [] →
  threshold ≤ count pre →
  check (pre ++ post) = Ok tt.
Proof.
  intros Hth Hall Hne Hcount. unfold check_signatures.
  destruct (check_signatures_loop_reaches pre post 0 Hth ltac:(lia) ltac:(by right)
              Hall Hne ltac:(lia)) as (v' & -> & Hv').
  cbn [mbind result_bind]. destruct (Z.ltb_spec v' threshold); [lia|done].
Qed.

End Check.

Lemma check_signatures_stops_at_threshold_witness :
  let keyring :=
    RoleFullKeys.mk (<["ka"%string := Key.from_ed25519 (sample_pk "a")]>
                     (<["kb"%string := Key.from_ed25519 (sample_pk "b")]> ∅)) 1 in
  @check_signatures sample_lib (repeat x00 64) (repeat x00 32) ""
    ([RoleSignature.mk "ka" (sample_sig "a")] ++ [RoleSignature.mk "kb" "not hexadecimal"])
    keyring = Ok tt.
Proof.
  intros keyring.
  apply (@check_signatures_stops_at_threshold sample_lib (repeat x00 64) (repeat x00 32) ""
           keyring [RoleSignature.mk "ka" (sample_sig "a")]
           [RoleSignature.mk "kb" "not hexadecimal"]).
  - vm_compute. congruence.
  - repeat constructor.
  - discriminate.
  - vm_compute. congruence.
Defined.

Lemma check_signatures_sound_witness :
  ∃ accepted : list RoleSignature.t,
    1 ≤ Z.of_nat (length accepted) ∧
    Forall (λ s, @accepted_by sample_lib (sample_keyring 1) "" s = true) accepted.
Proof.
  destruct (@check_signatures_sound sample_lib (repeat x00 64) (repeat x00 32) ""
              (sample_keyring 1) [RoleSignature.mk "ka" (sample_sig "a")])
    as (accepted & Hlen & _ & Hall);
    [vm_compute; congruence | simpl; lia | simpl; lia | vm_compute; reflexivity |].
  exists accepted. split; [exact Hlen|].
  eapply Forall_impl; [exact Hall|]. intros s [_ Hs]. exact Hs.
Defined.

Lemma check_signatures_needs_enough_keys_witness :
  @check_signatures sample_lib (repeat x00 64) (repeat x00 32) ""
    (SigSet.of_vector [RoleSignature.mk "ka" (sample_sig "a")]) (sample_keyring 2) ≠ Ok tt.
Proof.
  apply (@check_signatures_needs_enough_keys sample_lib (repeat x00 64) (repeat x00 32) ""
           (sample_keyring 2) [RoleSignature.mk "ka" (sample_sig "a")]).
  - vm_compute. congruence.
  - vm_compute. reflexivity.
Defined.

End CheckSignaturesMore.
(** * Further properties of the roles, of the constructors and of the update *)

Module TrustMore.
Import SignerMore CheckSignaturesFacts CheckSignaturesMore SchemaFacts TrustFacts UpgradeFacts.

(** ** The keyrings of a v1 root *)

Lemma collect_keys_fold (keys : gmap string Key.t) ids : ∀ acc : gmap string Key.t,
  (∀ id, id ∈ ids → is_Some (keys !! id)) →
  ∃ m,
    foldl (λ acc id,
             role_keys ← acc;
             k ← v1.key_at keys id;
             Ok (match role_keys !! id with
                 | Some _ => role_keys
                 | None => <[id := k]> role_keys
                 end))
          (Ok acc) ids = Ok m ∧
    ∀ id key, m !! id = Some key ↔
              acc !! id = Some key ∨ (acc !! id = None ∧ id ∈ ids ∧ keys !! id = Some key).
Proof.
  induction ids as [|i ids IH]; intros acc Hall; cbn [foldl].
  - exists acc. split; [done|]. intros id key. split; [by left|].
    intros [?|(_ & Hin & _)]; [done|]. by apply not_elem_of_nil in Hin.
  - destruct (Hall i ltac:(apply list_elem_of_here)) as [k Hk].
    unfold v1.key_at at 2. rewrite Hk. cbn [mbind result_bind].
    destruct (IH (match acc !! i with Some _ => acc | None => <[i:=k]> acc end))
      as (m & -> & Hm).
    { intros id Hid. apply Hall. by apply list_elem_of_further. }
    exists m. split; [done|]. intros id key. rewrite Hm. rewrite elem_of_cons.
    destruct (acc !! i) as [ki|] eqn:Hi.
    + split; [intros [?|(? & ? & ?)]; [by left|right; eauto]|].
      intros [?|(? & [->|?] & ?)]; [by left|congruence|right; eauto].
    + destruct (decide (i = id)) as [->|Hne].
      * rewrite lookup_insert_eq. split.
        -- intros [[= <-]|(? & _)]; [|done]. right. eauto.
        -- intros [?|(_ & _ & ?)]; [congruence|]. left. congruence.
      * rewrite lookup_insert_ne by done. split.
        -- intros [?|(? & ? & ?)]; [by left|right; eauto].
        -- intros [?|(? & [->|?] & ?)]; [by left|done|right; eauto].
Qed.

Lemma collect_keys_key_at (keys : gmap string Key.t) ids :
  (∀ id, id ∈ ids → is_Some (keys !! id)) →
  ∃ m, collect_keys (v1.key_at keys) ids = Ok m ∧
       ∀ id key, m !! id = Some key ↔ id ∈ ids ∧ keys !! id = Some key.
Proof.
  intros Hall. destruct (collect_keys_fold keys ids ∅ Hall) as (m & Hm & Hl).
  exists m. split; [exact Hm|]. intros id key. rewrite Hl, lookup_empty.
  split; [intros [?|(_ & ? & ?)]; done|]. intros [? ?]. right. done.
Qed.

Lemma collect_keys_fold_Err (key : string → result Key.t) (ids : list string) : ∀ e,
  foldl (λ (acc : result (gmap string Key.t)) (id : string),
           role_keys ← acc;
           k ← key id;
           Ok (match role_keys !! id with
               | Some _ => role_keys
               | None => <[id := k]> role_keys
               end))
        (Err e) ids = Err e.
Proof. induction ids as [|i ids IH]; intros e; [done|]. cbn [foldl mbind result_bind]. apply IH. Qed.

Lemma collect_keys_missing (keys : gmap string Key.t) ids id :
  id ∈ ids → keys !! id = None →
  ∃ e, collect_keys (v1.key_at keys) ids = Err e.
Proof.
  intros Hin Hnone. unfold collect_keys.
  generalize (Ok ∅ : result (gmap string Key.t)).
  induction ids as [|i ids IH]; intros acc; [by apply not_elem_of_nil in Hin|].
  cbn [foldl]. apply elem_of_cons in Hin as [<-|Hin]; [|by apply IH].
  destruct acc as [acc|e]; cbn [mbind result_bind].
  - assert (v1.key_at keys id = Err out_of_range) as ->
      by (unfold v1.key_at; by rewrite Hnone).
    cbn [mbind result_bind]. rewrite collect_keys_fold_Err. eauto.
  - rewrite collect_keys_fold_Err. eauto.
Qed.

Lemma v1_from_json_roles_ok j role0 role :
  v1.from_json j role0 = Ok role →
  map_Forall (λ _ r_keys, v1.role_keys_ok (v1.m_keys role) r_keys = true) (v1.m_roles role)
  ∧ v1.mandatory_roles ⊆ dom (v1.m_roles role).
Proof.
  unfold v1.from_json.
  destruct (Json.at_ j "signed") as [j_signed|]; cbn [mbind result_bind]; [|done].
  destruct (Json.catch_json _) as [role1|]; cbn [mbind result_bind]; [|done].
  case_bool_decide as Hnames; cbn [negb]; [|done].
  case_bool_decide as Hmand; cbn [negb]; [|done].
  case_bool_decide as Hroles; cbn [negb]; [|done].
  intros [= <-]. done.
Qed.

Lemma v1_keys_lookup (r : v1.RootRole) k name fk :
  v1.keys r = Ok k → k !! name = Some fk →
  ∃ rk, v1.m_roles r !! name = Some rk ∧
        RoleFullKeys.threshold fk = RoleKeys.threshold rk ∧
        ∀ id key, RoleFullKeys.keys fk !! id = Some key ↔
                  id ∈ RoleKeys.keyids rk ∧ v1.m_keys r !! id = Some key.
Proof.
  intros Hkeys Hfk.
  apply (map_traverse_lookup _ _ _ _ Hkeys) in Hfk as (rk & Hrk & Hfk).
  exists rk. split; [done|].
  assert (∀ id, id ∈ RoleKeys.keyids rk → is_Some (v1.m_keys r !! id)) as Hall.
  { intros id Hid. destruct (v1.m_keys r !! id) eqn:Hk; [eauto|].
    destruct (collect_keys_missing _ _ _ Hid Hk) as [e He].
    rewrite He in Hfk. done. }
  destruct (collect_keys_key_at _ _ Hall) as (m & Hm & Hlm).
  rewrite Hm in Hfk. cbn [mbind result_bind] in Hfk. injection Hfk as <-.
  split; [done|]. exact Hlm.
Qed.

(** X15. [v1::RootRole::keys] throws [std::out_of_range] exactly when
    some role names a key id that [keys] does not hold. Otherwise it
    gives, for every role, its threshold and the keys of [keys] that its
    key ids name, one for each key id. A root that [from_json] has
    accepted has no such key id: there [keys()] returns and the keyring of
    ["root"] exists. *)
Theorem v1_keys_outcome (r : v1.RootRole) :
  let dangling :=
    ∃ name rk id, v1.m_roles r !! name = Some rk ∧ id ∈ RoleKeys.keyids rk ∧
                  v1.m_keys r !! id = None in
  (dangling → v1.keys r = Err out_of_range) ∧
  (¬ dangling →
   ∃ k, v1.keys r = Ok k ∧
        dom k = v1.roles r ∧
        ∀ name rk, v1.m_roles r !! name = Some rk →
          ∃ fk, k !! name = Some fk ∧
                RoleFullKeys.threshold fk = RoleKeys.threshold rk ∧
                (∀ id, id ∈ RoleKeys.keyids rk → is_Some (RoleFullKeys.keys fk !! id)) ∧
                ∀ id key, RoleFullKeys.keys fk !! id = Some key ↔
                          id ∈ RoleKeys.keyids rk ∧ v1.m_keys r !! id = Some key) ∧
  (∀ j role0, v1.from_json j role0 = Ok r →
     ¬ dangling ∧ ∃ k, v1.keys r = Ok k ∧ is_Some (k !! "root")).
Proof.
  cbv zeta.
  assert ((∃ name rk id, v1.m_roles r !! name = Some rk ∧ id ∈ RoleKeys.keyids rk ∧
                         v1.m_keys r !! id = None) →
          v1.keys r = Err out_of_range) as Hthrows.
  { intros (name & rk & id & Hrk & Hid & Hnone).
    unfold v1.keys, Json.map_traverse. case_bool_decide as Hall; [|done].
    specialize (Hall name rk Hrk). cbn in Hall.
    destruct (collect_keys_missing _ _ _ Hid Hnone) as [e He].
    rewrite He in Hall. done. }
  assert (¬ (∃ name rk id, v1.m_roles r !! name = Some rk ∧ id ∈ RoleKeys.keyids rk ∧
                           v1.m_keys r !! id = None) →
          ∃ k, v1.keys r = Ok k) as Hreturns.
  { intros Hheld. destruct (v1.keys r) as [k|e] eqn:Hkeys; [by exists k|]. exfalso.
    unfold v1.keys, Json.map_traverse in Hkeys. case_bool_decide as Hall; [done|].
    apply map_not_Forall in Hall as (name & rk & Hrk & Hbad); [|apply _].
    destruct (decide (Forall (λ id, is_Some (v1.m_keys r !! id)) (RoleKeys.keyids rk)))
      as [Hok|Hmiss].
    - apply Hbad. rewrite Forall_forall in Hok.
      destruct (collect_keys_key_at _ _ Hok) as (m & -> & _). done.
    - apply not_Forall_Exists in Hmiss; [|apply _].
      apply Exists_exists in Hmiss as (id & Hid & Hnone).
      apply Hheld. exists name, rk, id. split; [done|]. split; [done|].
      by apply eq_None_not_Some. }
  assert (∀ j role0, v1.from_json j role0 = Ok r →
            ¬ (∃ name rk id, v1.m_roles r !! name = Some rk ∧ id ∈ RoleKeys.keyids rk ∧
                             v1.m_keys r !! id = None)) as Hparsed.
  { intros j role0 Hparse (name & rk & id & Hrk & Hid & Hnone).
    apply v1_from_json_roles_ok in Hparse as [Hroles _].
    specialize (Hroles name rk Hrk). cbn in Hroles. unfold v1.role_keys_ok in Hroles.
    apply andb_true_iff in Hroles as [_ Hids]. rewrite forallb_forall in Hids.
    specialize (Hids id ltac:(by apply list_elem_of_In)).
    apply bool_decide_eq_true in Hids. rewrite Hnone in Hids. by destruct Hids. }
  split; [exact Hthrows|]. split.
  - intros Hheld. destruct (Hreturns Hheld) as [k Hkeys]. exists k.
    split; [done|]. split; [by apply map_traverse_dom in Hkeys|].
    intros name rk Hrk.
    assert (is_Some (k !! name)) as [fk Hfk].
    { apply elem_of_dom. rewrite (map_traverse_dom _ _ _ _ Hkeys). by apply elem_of_dom. }
    exists fk. split; [done|].
    destruct (v1_keys_lookup r k name fk Hkeys Hfk) as (rk' & Hrk' & Hth & Hlm).
    rewrite Hrk in Hrk'. injection Hrk' as <-.
    split; [done|]. split; [|done].
    intros id Hid. destruct (v1.m_keys r !! id) as [key|] eqn:Hkey.
    + exists key. apply Hlm. done.
    + exfalso. apply Hheld. by exists name, rk, id.
  - intros j role0 Hparse. pose proof (Hparsed j role0 Hparse) as Hheld.
    split; [done|]. destruct (Hreturns Hheld) as [k Hkeys]. exists k. split; [done|].
    apply elem_of_dom. rewrite (map_traverse_dom _ _ _ _ Hkeys).
    apply v1_from_json_roles_ok in Hparse as [_ Hmand].
    apply Hmand. unfold v1.mandatory_roles. set_solver.
Qed.

Lemma v1_keys_outcome_witness :
  (∃ k, v1.keys (sample_v1_role 1) = Ok k ∧ is_Some (k !! "root")) ∧
  v1.keys (v1.MkRootRole (RootRoleBase_new "1.0.17") ∅
             {[ "root"%string := RoleKeys.mk ["ka"%string] 1 ]})
  = Err out_of_range.
Proof.
  split.
  - apply (proj2 (proj2 (v1_keys_outcome (sample_v1_role 1)))
             (sample_v1_json 1) v1.RootRole_new).
    vm_compute. reflexivity.
  - apply (proj1 (v1_keys_outcome _)).
    exists "root"%string, (RoleKeys.mk ["ka"%string] 1), "ka"%string.
    split; [reflexivity|]. split; [apply list_elem_of_here|reflexivity].
Defined.

(** X28. [v06::RootRole::keys] never throws: for every delegation it
    gives the threshold of the delegation and one key for each of its
    public keys, the key [Key::from_ed25519] makes of it, filed under the
    public key itself; a public key listed twice is filed once. *)
Theorem v06_keys_outcome (r : v06.RootRole) :
  ∃ k, v06.keys r = Ok k ∧
       dom k = v06.roles r ∧
       ∀ name d, v06.m_delegations r !! name = Some d →
         ∃ fk, k !! name = Some fk ∧
               RoleFullKeys.threshold fk = RolePubKeys.threshold d ∧
               ∀ id key, RoleFullKeys.keys fk !! id = Some key ↔
                         id ∈ RolePubKeys.pubkeys d ∧ key = Key.from_ed25519 id.
Proof.
  exists (full_keys <$> v06.m_delegations r).
  split; [apply v06_keys_spec|]. split; [apply dom_fmap_L|].
  intros name d Hd. exists (full_keys d). split; [by rewrite lookup_fmap, Hd|].
  split; [done|]. intros id key. cbn [full_keys RoleFullKeys.keys].
  rewrite pubkey_map_lookup. destruct (decide (id ∈ RolePubKeys.pubkeys d)) as [Hin|Hnin].
  - split; [intros [= <-]; done|]. intros [_ ->]. done.
  - split; [done|]. intros [? _]. done.
Qed.

(** ** File names *)

Lemma split_char_nonempty sep s : split_char sep s ≠ [].
Proof.
  induction s as [|c s IH]; cbn [split_char]; [done|].
  destruct (split_char sep s); [done|]. destruct (Ascii.eqb c sep); done.
Qed.

Lemma join_split_char sep s : join_char sep (split_char sep s) = s.
Proof.
  induction s as [|c s IH]; cbn [split_char]; [done|].
  pose proof (split_char_nonempty sep s) as Hne.
  destruct (split_char sep s) as [|w ws]; [done|].
  destruct (Ascii.eqb_spec c sep) as [->|Hc].
  - change (join_char sep (EmptyString :: w :: ws))
      with (String sep (join_char sep (w :: ws))).
    by rewrite IH.
  - destruct ws as [|w' ws].
    + change (String c w = String c s). by rewrite <- IH.
    + change (String c (w +:+ String sep (join_char sep (w' :: ws))) = String c s).
      by rewrite <- IH.
Qed.

Lemma split_char_word sep w :
  all_chars (λ c, negb (Ascii.eqb c sep)) w = true → split_char sep w = [w].
Proof.
  unfold all_chars. induction w as [|c w IH]; cbn [list_ascii_of_string forallb split_char];
    [done|].
  intros Hall. apply andb_true_iff in Hall as [Hc Hall]. rewrite (IH Hall).
  apply negb_true_iff in Hc. by rewrite Hc.
Qed.

Lemma split_char_app sep w rest :
  all_chars (λ c, negb (Ascii.eqb c sep)) w = true →
  split_char sep (w +:+ String sep rest) = w :: split_char sep rest.
Proof.
  unfold all_chars. pose proof (split_char_nonempty sep rest) as Hne.
  induction w as [|c w IH]; cbn [list_ascii_of_string forallb].
  - intros _. change (EmptyString +:+ String sep rest) with (String sep rest).
    cbn [split_char]. destruct (split_char sep rest); [done|]. by rewrite Ascii.eqb_refl.
  - intros Hall. apply andb_true_iff in Hall as [Hc Hall].
    change (String c w +:+ String sep rest) with (String c (w +:+ String sep rest)).
    cbn [split_char]. rewrite (IH Hall).
    apply negb_true_iff in Hc. by rewrite Hc.
Qed.

Lemma all_chars_impl (p q : ascii → bool) s :
  (∀ c, p c = true → q c = true) → all_chars p s = true → all_chars q s = true.
Proof.
  intros Hpq. unfold all_chars. rewrite !forallb_forall. intros Hall c Hc. auto.
Qed.

Lemma word_char_not_dot c : is_word_char c = true → negb (Ascii.eqb c ".") = true.
Proof.
  destruct c as [[] [] [] [] [] [] [] []]; vm_compute; congruence.
Qed.

Lemma is_word_no_dot w :
  is_word w = true → all_chars (λ c, negb (Ascii.eqb c ".")) w = true.
Proof.
  unfold is_word. intros Hw. apply andb_true_iff in Hw as [_ Hw].
  eapply all_chars_impl; [|exact Hw]. apply word_char_not_dot.
Qed.

Lemma digit_value c :
  is_digit c = true → 0 ≤ Z.of_nat (nat_of_ascii c) - 48 ≤ 9.
Proof.
  destruct c as [[] [] [] [] [] [] [] []]; vm_compute; intros; split; congruence.
Qed.

Lemma is_version_number_no_dot v :
  is_version_number v = true → all_chars (λ c, negb (Ascii.eqb c ".")) v = true.
Proof.
  destruct v as [|c v]; [done|]. cbn [is_version_number].
  intros Hv. apply andb_true_iff in Hv as [Hc Hv].
  unfold all_chars in *. cbn [list_ascii_of_string forallb].
  apply andb_true_iff. split.
  - revert Hc. clear. destruct c as [[] [] [] [] [] [] [] []]; vm_compute; congruence.
  - apply (all_chars_impl is_digit); [|exact Hv].
    clear. intros c. destruct c as [[] [] [] [] [] [] [] []]; vm_compute; congruence.
Qed.

Lemma fold_digits_ge l : ∀ acc,
  forallb is_digit l = true → 1 ≤ acc →
  1 ≤ fold_left (λ acc c, 10 * acc + (Z.of_nat (nat_of_ascii c) - 48)) l acc.
Proof.
  induction l as [|c l IH]; intros acc Hall Hacc; cbn [fold_left]; [done|].
  cbn [forallb] in Hall. apply andb_true_iff in Hall as [Hc Hall].
  apply IH; [done|]. pose proof (digit_value c Hc). lia.
Qed.

(** The number in front of a file name is at least 1. *)
Lemma stoul_version_number v n :
  is_version_number v = true → stoul v = Some n → 1 ≤ n.
Proof.
  destruct v as [|c v]; [done|]. cbn [is_version_number].
  intros Hv. apply andb_true_iff in Hv as [Hc Hv].
  unfold stoul. cbn [list_ascii_of_string fold_left].
  destruct (_ <=? SIZE_MAX); [|done]. intros [= <-].
  apply fold_digits_ge; [exact Hv|].
  revert Hc. clear. destruct c as [[] [] [] [] [] [] [] []]; vm_compute; congruence.
Qed.

Lemma match_name_inv f_name v ty ext :
  match_name f_name = Some (v, ty, ext) →
  ∃ label, f_name = join_char "." [v; label; ty; ext] ∧
           is_version_number v = true ∧ is_word label = true ∧
           is_word ty = true ∧ is_word ext = true.
Proof.
  unfold match_name. pose proof (join_split_char "." f_name) as Hjoin.
  destruct (split_char "." f_name) as [|v' [|label [|ty' [|ext' [|]]]]]; try done.
  destruct (is_version_number v' && is_word label && is_word ty' && is_word ext') eqn:Hok;
    [|done].
  intros [= <- <- <-].
  apply andb_true_iff in Hok as [Hok Hext]. apply andb_true_iff in Hok as [Hok Hty].
  apply andb_true_iff in Hok as [Hv Hlabel].
  exists label. done.
Qed.

Lemma match_name_join v label ty ext :
  is_version_number v = true → is_word label = true →
  is_word ty = true → is_word ext = true →
  match_name (join_char "." [v; label; ty; ext]) = Some (v, ty, ext).
Proof.
  intros Hv Hlabel Hty Hext. unfold match_name. cbn [join_char].
  rewrite split_char_app by (by apply is_version_number_no_dot).
  rewrite split_char_app by (by apply is_word_no_dot).
  rewrite split_char_app by (by apply is_word_no_dot).
  rewrite split_char_word by (by apply is_word_no_dot).
  by rewrite Hv, Hlabel, Hty, Hext.
Qed.

(** ** What a constructed root has been checked against *)

Section Trust.
Context `{Ed25519Lib}.
Variable dump : json → string.
Variables bin_signature bin_pk : list byte.
Variable fs_exists : string → bool.
Variable fs_read : string → result json.

#[local] Abbreviation create_update' := (create_update dump bin_signature bin_pk).
#[local] Abbreviation update' := (update dump bin_signature bin_pk).
#[local] Abbreviation v1_RootRole' := (v1_RootRole dump bin_signature bin_pk).
#[local] Abbreviation v06_RootRole' := (v06_RootRole dump bin_signature bin_pk).
#[local] Abbreviation check_role_signatures' :=
  (check_role_signatures dump bin_signature bin_pk).
#[local] Abbreviation check_signatures' := (check_signatures bin_signature bin_pk).
#[local] Abbreviation read_file' := (read_file fs_exists fs_read).
#[local] Abbreviation update_path' :=
  (update_path dump bin_signature bin_pk fs_exists fs_read).

Lemma v1_signatures_inv j sigs :
  v1.signatures j = Ok sigs →
  ∃ l v, Json.at_ j "signatures" = Ok (JArr l) ∧
         Forall2 (λ js s, RoleSignature.from_json js = Ok s) l v ∧
         sigs = SigSet.of_vector v.
Proof.
  unfold v1.signatures.
  destruct (Json.at_ j "signatures") as [[| | | |l|]|]; cbn [Json.get_vector mbind result_bind];
    try done.
  destruct (mapM RoleSignature.from_json l) as [v|] eqn:Hv; cbn [mbind result_bind]; [|done].
  intros [= <-]. exists l, v. split; [done|]. split; [by apply mapM_Ok_Forall2|done].
Qed.

Lemma check_role_signatures_inv this j role :
  check_role_signatures' this j role = Ok tt →
  ∃ j_signed sigs k fk,
    Json.at_ j "signed" = Ok j_signed ∧ signatures role j = Ok sigs ∧
    keys this = Ok k ∧ k !! "root" = Some fk ∧
    check_signatures' (dump j_signed) sigs fk = Ok tt.
Proof.
  unfold check_role_signatures.
  destruct (Json.at_ j "signed") as [j_signed|]; cbn [mbind result_bind]; [|done].
  destruct (signatures role j) as [sigs|]; cbn [mbind result_bind]; [|done].
  destruct (keys this) as [k|]; cbn [mbind result_bind]; [|done].
  unfold v06.map_at. destruct (k !! "root") as [fk|] eqn:Hfk; cbn [mbind result_bind]; [|done].
  intros Hc. exists j_signed, sigs, k, fk. done.
Qed.

Lemma v1_RootRole_inv j role :
  v1_RootRole' j = Ok role →
  v1.from_json j v1.RootRole_new = Ok role ∧
  check_role_signatures' (V1 role) j (V1 role) = Ok tt.
Proof.
  unfold v1_RootRole.
  destruct (v1.from_json j v1.RootRole_new) as [r|]; cbn [mbind result_bind]; [|done].
  destruct (check_role_signatures' (V1 r) j (V1 r)) as [[]|] eqn:Hc;
    cbn [mbind result_bind]; [|done].
  intros [= <-]. done.
Qed.

Lemma v06_RootRole_inv j role :
  v06_RootRole' j = Ok role →
  v06.from_json j v06.RootRole_new = Ok role ∧
  check_role_signatures' (V06 role) j (V06 role) = Ok tt.
Proof.
  unfold v06_RootRole.
  destruct (v06.from_json j v06.RootRole_new) as [r|]; cbn [mbind result_bind]; [|done].
  destruct (check_role_signatures' (V06 r) j (V06 r)) as [[]|] eqn:Hc;
    cbn [mbind result_bind]; [|done].
  intros [= <-]. done.
Qed.

(** X16. The constructor [v1::RootRole(json)] succeeds only on a
    document that [from_json] accepts and that carries, for the keys of
    its own ["root"] role, at least as many signatures accepted by the
    library as the threshold of this role, which is at least 1: each
    under a different key id of the role, each the first of the array
    with its key id, each over the serialisation of ["signed"]. *)
Theorem v1_RootRole_requires_signatures (j : json) (role : v1.RootRole) :
  (64 ≤ length bin_signature)%nat → (32 ≤ length bin_pk)%nat →
  v1_RootRole' j = Ok role →
  v1.from_json j v1.RootRole_new = Ok role ∧
  ∃ j_signed l v rk accepted,
    Json.at_ j "signed" = Ok j_signed ∧
    Json.at_ j "signatures" = Ok (JArr l) ∧
    Forall2 (λ js s, RoleSignature.from_json js = Ok s) l v ∧
    v1.m_roles role !! "root" = Some rk ∧
    1 ≤ RoleKeys.threshold rk ≤ Z.of_nat (length accepted) ∧
    NoDup (RoleSignature.keyid <$> accepted) ∧
    Forall (λ s, first_with_keyid v s ∧
                 RoleSignature.keyid s ∈ RoleKeys.keyids rk ∧
                 ∃ key, v1.m_keys role !! RoleSignature.keyid s = Some key ∧
                        library_accepts (dump j_signed) (Key.keyval key)
                          (RoleSignature.sig s) = true) accepted.
Proof.
  intros Hbs Hbp Hnew. apply v1_RootRole_inv in Hnew as [Hparse Hcheck].
  split; [exact Hparse|].
  apply check_role_signatures_inv in Hcheck
    as (j_signed & sigs & k & fk & Hsigned & Hsigs & Hkeys & Hfk & Hcheck).
  cbn [signatures keys] in Hsigs, Hkeys.
  apply v1_signatures_inv in Hsigs as (l & v & Hl & Hv & ->).
  destruct (v1_keys_lookup _ _ _ _ Hkeys Hfk) as (rk & Hrk & Hth & Hlookup).
  destruct (proj1 (v1_from_json_schema j v1.RootRole_new eq_refl) role Hparse)
    as (j_signed' & Hsigned' & _ & _ & _ & _ & _ & Hroles & _ & Hschema).
  destruct (Hschema _ _ Hrk) as (_ & _ & Hth1 & _).
  assert (RoleKeys.threshold rk ≤ SIZE_MAX) as Hmax.
  { rewrite Hsigned in Hsigned'. injection Hsigned' as <-.
    destruct (Json.at_ j_signed "roles") as [jr|]; [|done].
    cbn [mbind result_bind] in Hroles.
    destruct (get_map_values _ _ _ _ _ Hroles Hrk) as [ja Hja].
    apply RoleKeys_from_json_range in Hja. lia. }
  pose proof (check_signatures_Ok_count _ _ _ _ _ ltac:(rewrite Hth; exact Hmax) Hcheck)
    as Hcount.
  exists j_signed, l, v, rk,
    (List.filter (is_valid bin_signature bin_pk (dump j_signed) fk) (SigSet.of_vector v)).
  split; [done|]. split; [done|]. split; [done|]. split; [done|].
  split; [unfold valid_count in Hcount; lia|].
  split; [apply NoDup_fmap_filter, sigset_sorted_NoDup, sigset_of_vector_sorted|].
  apply Forall_forall. intros s Hs.
  apply list_elem_of_In, List.filter_In in Hs as [Hs Hvalid].
  split; [by apply sigset_of_vector_elem, list_elem_of_In|].
  rewrite is_valid_accepted in Hvalid by done. unfold accepted_by in Hvalid.
  destruct (RoleFullKeys.keys fk !! RoleSignature.keyid s) as [key|] eqn:Hkey; [|done].
  apply Hlookup in Hkey as [Hin Hkey]. split; [done|]. eauto.
Qed.

(** X23. The constructor [v06::RootRole(json)] succeeds only on a
    document that [from_json] accepts and that carries, under public keys
    of its own ["root"] delegation, at least as many signatures accepted
    by the library as the threshold of this delegation, which is at
    least 1. In this dialect the key id of a signature is the public key
    itself. *)
Theorem v06_RootRole_requires_signatures (j : json) (role : v06.RootRole) :
  (64 ≤ length bin_signature)%nat → (32 ≤ length bin_pk)%nat →
  v06_RootRole' j = Ok role →
  v06.from_json j v06.RootRole_new = Ok role ∧
  ∃ j_signed m d accepted,
    Json.at_ j "signed" = Ok j_signed ∧
    (Json.at_ j "signatures" ≫= Json.get_map (Json.get_map Json.get_string)) = Ok m ∧
    v06.m_delegations role !! "root" = Some d ∧
    1 ≤ RolePubKeys.threshold d ≤ Z.of_nat (length accepted) ∧
    NoDup (RoleSignature.keyid <$> accepted) ∧
    Forall (λ s, RoleSignature.keyid s ∈ RolePubKeys.pubkeys d ∧
                 (∃ fields, m !! RoleSignature.keyid s = Some fields ∧
                            fields !! "signature" = Some (RoleSignature.sig s)) ∧
                 library_accepts (dump j_signed) (RoleSignature.keyid s)
                   (RoleSignature.sig s) = true) accepted.
Proof.
  intros Hbs Hbp Hnew. apply v06_RootRole_inv in Hnew as [Hparse Hcheck].
  split; [exact Hparse|].
  apply check_role_signatures_inv in Hcheck
    as (j_signed & sigs & k & fk & Hsigned & Hsigs & Hkeys & Hfk & Hcheck).
  cbn [signatures keys] in Hsigs, Hkeys.
  apply v06_signatures_inv in Hsigs as (m & Hm & Hsorted & Helem).
  rewrite v06_keys_spec in Hkeys. injection Hkeys as <-.
  rewrite lookup_fmap in Hfk.
  destruct (v06.m_delegations role !! "root") as [d|] eqn:Hd; [|done].
  injection Hfk as <-.
  destruct (proj1 (v06_from_json_schema j v06.RootRole_new eq_refl) role Hparse)
    as (j_signed' & Hsigned' & _ & _ & _ & _ & Hdel & _ & Hschema).
  destruct (Hschema _ _ Hd) as (_ & Hth1).
  assert (RolePubKeys.threshold d ≤ SIZE_MAX) as Hmax.
  { rewrite Hsigned in Hsigned'. injection Hsigned' as <-.
    destruct (Json.at_ j_signed "delegations") as [jr|]; [|done].
    cbn [mbind result_bind] in Hdel.
    destruct (get_map_values _ _ _ _ _ Hdel Hd) as [ja Hja].
    apply RolePubKeys_from_json_range in Hja. lia. }
  pose proof (check_signatures_Ok_count bin_signature bin_pk (dump j_signed) (full_keys d)
                sigs Hmax Hcheck) as Hcount.
  exists j_signed, m, d,
    (List.filter (is_valid bin_signature bin_pk (dump j_signed) (full_keys d)) sigs).
  split; [done|]. split; [done|]. split; [done|].
  split; [unfold valid_count in Hcount; cbn [full_keys RoleFullKeys.threshold] in Hcount; lia|].
  split; [by apply NoDup_fmap_filter, sigset_sorted_NoDup|].
  apply Forall_forall. intros s Hs.
  apply list_elem_of_In, List.filter_In in Hs as [Hs Hvalid].
  rewrite is_valid_accepted in Hvalid by done. unfold accepted_by in Hvalid.
  cbn [full_keys RoleFullKeys.keys] in Hvalid.
  rewrite pubkey_map_lookup in Hvalid.
  destruct (decide (RoleSignature.keyid s ∈ RolePubKeys.pubkeys d)) as [Hin|]; [|done].
  split; [done|]. split; [by apply Helem, list_elem_of_In|]. exact Hvalid.
Qed.

(** ** The update *)

Lemma v1_from_json_base j role0 role :
  v1.from_json j role0 = Ok role →
  m_type (v1.base role) = m_type (v1.base role0) ∧
  m_ext (v1.base role) = m_ext (v1.base role0).
Proof.
  unfold v1.from_json.
  destruct (Json.at_ j "signed") as [j_signed|]; cbn [mbind result_bind]; [|done].
  destruct (v1.from_json_try j j_signed role0) as [role1|e] eqn:Htry;
    [|destruct e; done].
  cbn [Json.catch_json mbind result_bind].
  repeat (case_bool_decide; cbn [negb]; [|done]). intros [= <-].
  unfold v1.from_json_try, RoleBase_from_json in Htry.
  destruct (Json.at_ j_signed "version" ≫= Json.get_size_t); cbn [mbind result_bind] in Htry;
    [|done].
  destruct (Json.at_ j_signed "_type" ≫= Json.get_string); cbn [mbind result_bind] in Htry;
    [|done].
  destruct (negb _); [done|].
  destruct (Json.at_ j_signed "spec_version" ≫= Json.get_string);
    cbn [mbind result_bind] in Htry; [|done].
  destruct (negb _); [done|].
  destruct (Json.at_ j_signed "keys" ≫= _); cbn [mbind result_bind] in Htry; [|done].
  destruct (Json.at_ j_signed "roles" ≫= _); cbn [mbind result_bind] in Htry; [|done].
  injection Htry as <-. done.
Qed.

Lemma v06_from_json_base j role0 role :
  v06.from_json j role0 = Ok role →
  m_type (v06.base role) = m_type (v06.base role0) ∧
  m_ext (v06.base role) = m_ext (v06.base role0).
Proof.
  unfold v06.from_json.
  destruct (Json.at_ j "signed") as [j_signed|]; cbn [mbind result_bind]; [|done].
  destruct (v06.from_json_try j j_signed role0) as [role1|e] eqn:Htry;
    [|destruct e; done].
  cbn [Json.catch_json mbind result_bind].
  repeat (case_bool_decide; cbn [negb]; [|done]). intros [= <-].
  unfold v06.from_json_try, RoleBase_from_json in Htry.
  destruct (Json.at_ j_signed "version" ≫= Json.get_size_t); cbn [mbind result_bind] in Htry;
    [|done].
  destruct (Json.at_ j_signed "type" ≫= Json.get_string); cbn [mbind result_bind] in Htry;
    [|done].
  destruct (negb _); [done|].
  destruct (Json.at_ j_signed "metadata_spec_version" ≫= Json.get_string);
    cbn [mbind result_bind] in Htry; [|done].
  destruct (negb _); [done|].
  destruct (Json.at_ j_signed "delegations" ≫= _); cbn [mbind result_bind] in Htry; [|done].
  injection Htry as <-. done.
Qed.

(** A root that [create_update] returns has passed the signature check
    against its own keys, and is a root file of type ["root"] and
    extension ["json"]. *)
Lemma create_update_inv this j r :
  create_update' this j = Ok r →
  check_role_signatures' r j r = Ok tt ∧
  type r = "root"%string ∧ file_ext r = "json"%string ∧
  (∀ c, this = V1 c → ∃ r1, r = V1 r1).
Proof.
  assert (∀ r1, v1_RootRole' j = Ok r1 →
            check_role_signatures' (V1 r1) j (V1 r1) = Ok tt ∧
            type (V1 r1) = "root"%string ∧ file_ext (V1 r1) = "json"%string) as H1.
  { intros r1 Hr1. apply v1_RootRole_inv in Hr1 as [Hparse Hcheck].
    apply v1_from_json_base in Hparse as [Hty Hext]. done. }
  assert (∀ r0, v06_RootRole' j = Ok r0 →
            check_role_signatures' (V06 r0) j (V06 r0) = Ok tt ∧
            type (V06 r0) = "root"%string ∧ file_ext (V06 r0) = "json"%string) as H0.
  { intros r0 Hr0. apply v06_RootRole_inv in Hr0 as [Hparse Hcheck].
    apply v06_from_json_base in Hparse as [Hty Hext]. done. }
  unfold create_update. destruct this as [c|c].
  - destruct (v1.is_spec_version_compatible j); [|done].
    destruct (v1_RootRole' j) as [r1|] eqn:Hr1; [|done]. intros [= <-].
    destruct (H1 r1 eq_refl) as (? & ? & ?). repeat split; try done. eauto.
  - destruct (v06.is_spec_version_compatible j).
    + destruct (v06_RootRole' j) as [r0|] eqn:Hr0; [|done]. intros [= <-].
      destruct (H0 r0 eq_refl) as (? & ? & ?). repeat split; done.
    + destruct (v1.is_spec_version_compatible j); [|done].
      destruct (v1_RootRole' j) as [r1|] eqn:Hr1; [|done]. intros [= <-].
      destruct (H1 r1 eq_refl) as (? & ? & ?). repeat split; done.
Qed.

(** *** The exceptions that leave the checks *)

Lemma check_signatures_loop_Err keyring data sigs : ∀ v e,
  check_signatures_loop bin_signature bin_pk data keyring sigs v = Err e →
  e = runtime_error.
Proof.
  induction sigs as [|s sigs IH]; intros v e; cbn [check_signatures_loop]; [done|].
  destruct (RoleFullKeys.keys keyring !! RoleSignature.keyid s) as [key|].
  - unfold Signer.verify at 1.
    destruct (negb _ || negb _); cbn [mbind result_bind]; [by intros [= <-]|].
    destruct (_ <=? _); [done|]. apply IH.
  - cbn [mbind result_bind]. destruct (_ <=? _); [done|]. apply IH.
Qed.

Lemma check_signatures_Err keyring data sigs e :
  check_signatures' data sigs keyring = Err e →
  e = runtime_error ∨ e = threshold_error.
Proof.
  unfold check_signatures.
  destruct (check_signatures_loop _ _ _ _ _ _) as [v|e'] eqn:Hloop; cbn [mbind result_bind].
  - destruct (_ <? _); [|done]. intros [= <-]. by right.
  - intros [= <-]. left. by apply check_signatures_loop_Err in Hloop.
Qed.

Lemma v1_signatures_Err j e : v1.signatures j = Err e → e = json_exception.
Proof.
  unfold v1.signatures.
  destruct (Json.at_ j "signatures") as [js|e'] eqn:Hat; cbn [mbind result_bind].
  2:{ intros [= <-]. by apply at_json_only in Hat. }
  destruct js as [| | | |l|]; cbn [Json.get_vector mbind result_bind];
    try (by intros [= <-]).
  destruct (mapM RoleSignature.from_json l) as [v|e'] eqn:Hv; cbn [mbind result_bind];
    [done|].
  intros [= <-]. clear Hat. revert e' Hv.
  induction l as [|a l IH]; intros e; cbn [mapM]; [done|].
  destruct (RoleSignature.from_json a) as [b|e'] eqn:Ha; cbn [mbind result_bind].
  - destruct (mapM RoleSignature.from_json l) as [v'|e''];
      cbn [mbind result_bind]; unfold mret, result_ret; [done|].
    intros [= <-]. by apply IH.
  - intros [= <-]. unfold RoleSignature.from_json in Ha.
    destruct (Json.at_ a "keyid" ≫= Json.get_string) as [k|e0] eqn:E0;
      cbn [mbind result_bind] in Ha.
    2:{ injection Ha as <-. json_err E0. }
    destruct (Json.at_ a "sig" ≫= Json.get_string) as [g|e1] eqn:E1;
      cbn [mbind result_bind] in Ha; [done|].
    injection Ha as <-. json_err E1.
Qed.

Lemma v06_signatures_Err j e :
  v06.signatures j = Err e → e = json_exception ∨ e = out_of_range.
Proof.
  unfold v06.signatures.
  destruct (Json.at_ j "signatures" ≫= Json.get_map (Json.get_map Json.get_string))
    as [m|e'] eqn:Hm; cbn [mbind result_bind].
  2:{ intros [= <-]. left.
      eapply bind_json_only in Hm; [exact Hm|apply at_json_only|].
      intros a. apply get_map_json_only. }
  destruct (Json.map_traverse out_of_range v06.signature_at m) as [per_key|e'] eqn:Hpk;
    cbn [mbind result_bind]; [done|].
  intros [= <-]. right. by apply map_traverse_Err in Hpk.
Qed.

Lemma keys_Err this e : keys this = Err e → e = out_of_range.
Proof. destruct this; cbn [keys]; apply map_traverse_Err. Qed.

Lemma check_role_signatures_Err this j role e :
  check_role_signatures' this j role = Err e →
  e = json_exception ∨ e = out_of_range ∨ e = runtime_error ∨ e = threshold_error.
Proof.
  unfold check_role_signatures.
  destruct (Json.at_ j "signed") as [j_signed|e'] eqn:Hat; cbn [mbind result_bind].
  2:{ intros [= <-]. left. by apply at_json_only in Hat. }
  destruct (signatures role j) as [sigs|e'] eqn:Hsigs; cbn [mbind result_bind].
  2:{ intros [= <-]. destruct role; cbn [signatures] in Hsigs.
      - left. by apply v1_signatures_Err in Hsigs.
      - apply v06_signatures_Err in Hsigs. tauto. }
  destruct (keys this) as [k|e'] eqn:Hkeys; cbn [mbind result_bind].
  2:{ intros [= <-]. right; left. by apply keys_Err in Hkeys. }
  unfold v06.map_at. destruct (k !! "root") as [fk|]; cbn [mbind result_bind].
  2:{ intros [= <-]. tauto. }
  intros Hc. apply check_signatures_Err in Hc. tauto.
Qed.

Lemma v1_from_json_Err j role0 e :
  v1.from_json j role0 = Err e → e = json_exception ∨ e = role_metadata_error.
Proof.
  unfold v1.from_json.
  destruct (Json.at_ j "signed") as [j_signed|e'] eqn:Hat; cbn [mbind result_bind].
  2:{ intros [= <-]. left. by apply at_json_only in Hat. }
  destruct (v1.from_json_try j j_signed role0) as [role1|e'] eqn:Htry.
  - cbn [Json.catch_json mbind result_bind].
    repeat (case_bool_decide; cbn [negb]; [|intros [= <-]; by right]). done.
  - apply v1_from_json_try_json_or_metadata in Htry as [-> | ->];
      cbn [Json.catch_json mbind result_bind]; intros [= <-]; by right.
Qed.

Lemma v06_from_json_Err j role0 e :
  v06.from_json j role0 = Err e → e = json_exception ∨ e = role_metadata_error.
Proof.
  unfold v06.from_json.
  destruct (Json.at_ j "signed") as [j_signed|e'] eqn:Hat; cbn [mbind result_bind].
  2:{ intros [= <-]. left. by apply at_json_only in Hat. }
  destruct (v06.from_json_try j j_signed role0) as [role1|e'] eqn:Htry.
  - cbn [Json.catch_json mbind result_bind].
    repeat (case_bool_decide; cbn [negb]; [|intros [= <-]; by right]). done.
  - apply v06_from_json_try_json_or_metadata in Htry as [-> | ->];
      cbn [Json.catch_json mbind result_bind]; intros [= <-]; by right.
Qed.

(** On an accepted root the keyring of ["root"] is there. *)
Lemma v1_keys_parsed j role0 role :
  v1.from_json j role0 = Ok role →
  ∃ k fk, v1.keys role = Ok k ∧ k !! "root" = Some fk.
Proof.
  intros Hparse. apply v1_from_json_roles_ok in Hparse as [Hroles Hmand].
  destruct (v1.keys role) as [k|e] eqn:Hkeys.
  - assert (is_Some (k !! "root")) as [fk Hfk].
    { apply elem_of_dom. rewrite (map_traverse_dom _ _ _ _ Hkeys).
      apply Hmand. unfold v1.mandatory_roles. set_solver. }
    eauto.
  - exfalso. unfold v1.keys, Json.map_traverse in Hkeys.
    case_bool_decide as Hall; [done|]. apply Hall. intros name rk Hrk.
    specialize (Hroles name rk Hrk). cbn in Hroles. unfold v1.role_keys_ok in Hroles.
    apply andb_true_iff in Hroles as [_ Hids]. rewrite forallb_forall in Hids.
    destruct (collect_keys_key_at (v1.m_keys role) (RoleKeys.keyids rk)) as (m & -> & _);
      [|done].
    intros id Hid. specialize (Hids id ltac:(by apply list_elem_of_In)).
    by apply bool_decide_eq_true in Hids.
Qed.

Lemma v06_keys_parsed j role0 role :
  v06.from_json j role0 = Ok role →
  ∃ k fk, v06.keys role = Ok k ∧ k !! "root" = Some fk.
Proof.
  intros Hparse.
  assert (is_Some (v06.m_delegations role !! "root")) as [d Hd].
  { unfold v06.from_json in Hparse.
    destruct (Json.at_ j "signed"); cbn [mbind result_bind] in Hparse; [|done].
    destruct (Json.catch_json _) as [role1|]; cbn [mbind result_bind] in Hparse; [|done].
    case_bool_decide as Hok; cbn [negb] in Hparse; [|done].
    case_bool_decide as Hdom; cbn [negb] in Hparse; [|done].
    injection Hparse as <-. apply elem_of_dom. rewrite <- Hdom.
    unfold v06.mandatory_roles. set_solver. }
  rewrite v06_keys_spec. eexists _, _. split; [done|].
  by rewrite lookup_fmap, Hd.
Qed.

Lemma v1_RootRole_Err j e :
  v1_RootRole' j = Err e →
  e = json_exception ∨ e = role_metadata_error ∨ e = runtime_error ∨ e = threshold_error.
Proof.
  unfold v1_RootRole.
  destruct (v1.from_json j v1.RootRole_new) as [role|e'] eqn:Hparse; cbn [mbind result_bind].
  2:{ intros [= <-]. apply v1_from_json_Err in Hparse. tauto. }
  destruct (check_role_signatures' (V1 role) j (V1 role)) as [[]|e'] eqn:Hcheck;
    cbn [mbind result_bind]; [done|].
  intros [= ->]. unfold check_role_signatures in Hcheck.
  destruct (Json.at_ j "signed") as [j_signed|e0] eqn:Hat; cbn [mbind result_bind] in Hcheck.
  2:{ injection Hcheck as <-. left. by apply at_json_only in Hat. }
  cbn [signatures keys] in Hcheck.
  destruct (v1.signatures j) as [sigs|e0] eqn:Hsigs; cbn [mbind result_bind] in Hcheck.
  2:{ injection Hcheck as <-. left. by apply v1_signatures_Err in Hsigs. }
  destruct (v1_keys_parsed _ _ _ Hparse) as (k & fk & Hk & Hfk).
  rewrite Hk in Hcheck. cbn [mbind result_bind] in Hcheck.
  unfold v06.map_at in Hcheck. rewrite Hfk in Hcheck. cbn [mbind result_bind] in Hcheck.
  apply check_signatures_Err in Hcheck. tauto.
Qed.

Lemma v06_RootRole_Err j e :
  v06_RootRole' j = Err e →
  e = json_exception ∨ e = role_metadata_error ∨ e = out_of_range
  ∨ e = runtime_error ∨ e = threshold_error.
Proof.
  unfold v06_RootRole.
  destruct (v06.from_json j v06.RootRole_new) as [role|e'] eqn:Hparse;
    cbn [mbind result_bind].
  2:{ intros [= <-]. apply v06_from_json_Err in Hparse. tauto. }
  destruct (check_role_signatures' (V06 role) j (V06 role)) as [[]|e'] eqn:Hcheck;
    cbn [mbind result_bind]; [done|].
  intros [= <-]. apply check_role_signatures_Err in Hcheck. tauto.
Qed.

Lemma create_update_Err this j e :
  create_update' this j = Err e →
  e = json_exception ∨ e = role_metadata_error ∨ e = out_of_range
  ∨ e = runtime_error ∨ e = threshold_error ∨ e = spec_version_error.
Proof.
  assert (v1_RootRole' j = Err e → e = json_exception ∨ e = role_metadata_error
            ∨ e = out_of_range ∨ e = runtime_error ∨ e = threshold_error
            ∨ e = spec_version_error) as H1
    by (intros H1; apply v1_RootRole_Err in H1; tauto).
  assert (v06_RootRole' j = Err e → e = json_exception ∨ e = role_metadata_error
            ∨ e = out_of_range ∨ e = runtime_error ∨ e = threshold_error
            ∨ e = spec_version_error) as H0
    by (intros H0; apply v06_RootRole_Err in H0; tauto).
  unfold create_update. destruct this as [c|c].
  - destruct (v1.is_spec_version_compatible j); [|intros [= <-]; tauto].
    destruct (v1_RootRole' j) as [r1|e1] eqn:Hr1; [done|]. intros [= <-]. by apply H1.
  - destruct (v06.is_spec_version_compatible j).
    + destruct (v06_RootRole' j) as [r0|e0] eqn:Hr0; [done|]. intros [= <-]. by apply H0.
    + destruct (v1.is_spec_version_compatible j); [|intros [= <-]; tauto].
      destruct (v1_RootRole' j) as [r1|e1] eqn:Hr1; [done|]. intros [= <-]. by apply H1.
Qed.

(** X17. A root that [update] returns has passed two signature checks
    on the same document, against its own root keys and against the
    root keys of the current root, and its version is the current one
    plus 1 in [size_t]; it is a root of type ["root"], and a v1 root when
    the current root is one. The version is compared last: an exception
    of the construction of the candidate or of a signature check is the
    one [update] throws, and [rollback_error] is thrown only for a
    candidate that has passed both checks and has a lower version. *)
Theorem update_checks_both_keyrings (this : RootRole) (j : json) :
  (∀ r, update' this j = Ok r →
     create_update' this j = Ok r ∧
     check_role_signatures' r j r = Ok tt ∧
     check_role_signatures' this j r = Ok tt ∧
     version r = size_t_wrap (version this + 1) ∧
     type r = "root"%string ∧
     (∀ c, this = V1 c → ∃ r1, r = V1 r1)) ∧
  (∀ e, create_update' this j = Err e → update' this j = Err e) ∧
  (∀ c e, create_update' this j = Ok c → check_role_signatures' this j c = Err e →
          update' this j = Err e) ∧
  (update' this j = Err rollback_error →
     ∃ c, create_update' this j = Ok c ∧
          check_role_signatures' c j c = Ok tt ∧
          check_role_signatures' this j c = Ok tt ∧
          version c < size_t_wrap (version this + 1)).
Proof.
  split; [|split; [|split]].
  - intros r Hup. apply update_Ok_inv in Hup as (Hc & Hs & Hv).
    destruct (create_update_inv _ _ _ Hc) as (Hown & Hty & _ & Hv1). done.
  - intros e Hc. unfold update. by rewrite Hc.
  - intros c e Hc Hs. unfold update. rewrite Hc. cbn [mbind result_bind]. by rewrite Hs.
  - intros Hup. unfold update in Hup.
    destruct (create_update' this j) as [c|e] eqn:Hc; cbn [mbind result_bind] in Hup.
    2:{ exfalso. injection Hup as ->. apply create_update_Err in Hc.
        destruct Hc as [?|[?|[?|[?|[?|?]]]]]; done. }
    destruct (check_role_signatures' this j c) as [[]|e] eqn:Hs;
      cbn [mbind result_bind] in Hup.
    2:{ exfalso. injection Hup as ->. apply check_role_signatures_Err in Hs.
        destruct Hs as [?|[?|[?|?]]]; done. }
    exists c. split; [done|].
    destruct (create_update_inv _ _ _ Hc) as (Hown & _). split; [done|]. split; [done|].
    destruct (Z.eqb_spec (version c) (size_t_wrap (version this + 1))); cbn [negb] in Hup;
      [done|].
    destruct (Z.ltb_spec (size_t_wrap (version this + 1)) (version c)); [done|]. lia.
Qed.

(** X25. [update] returns a candidate only when at least [threshold]
    of its signatures, read in the dialect of the candidate, are accepted
    by the library under keys of the ["root"] keyring of the current
    root, no two under the same key id, each over the serialisation of
    ["signed"]: also when the candidate is a v1 root that replaces a
    v0.6 root. *)
Theorem update_requires_current_root_signatures (this r : RootRole) (j : json) :
  (64 ≤ length bin_signature)%nat → (32 ≤ length bin_pk)%nat →
  (∀ k fk, keys this = Ok k → k !! "root" = Some fk →
           RoleFullKeys.threshold fk ≤ SIZE_MAX) →
  update' this j = Ok r →
  ∃ j_signed sigs k fk accepted,
    Json.at_ j "signed" = Ok j_signed ∧
    signatures r j = Ok sigs ∧
    keys this = Ok k ∧ k !! "root" = Some fk ∧
    RoleFullKeys.threshold fk ≤ Z.of_nat (length accepted) ∧
    NoDup (RoleSignature.keyid <$> accepted) ∧
    Forall (λ s, s ∈ sigs ∧ accepted_by fk (dump j_signed) s = true) accepted.
Proof.
  intros Hbs Hbp Hmax Hup.
  destruct (update_Ok_inv _ _ _ _ _ _ Hup) as (Hc & Hcheck & _).
  apply check_role_signatures_inv in Hcheck
    as (j_signed & sigs & k & fk & Hsigned & Hsigs & Hkeys & Hfk & Hcheck).
  pose proof (check_signatures_Ok_count bin_signature bin_pk (dump j_signed) fk sigs
                (Hmax _ _ Hkeys Hfk) Hcheck) as Hcount.
  assert (StronglySorted RoleSignature.lt sigs) as Hsorted.
  { destruct r; cbn [signatures] in Hsigs.
    - apply v1_signatures_inv in Hsigs as (l & v & _ & _ & ->).
      apply sigset_of_vector_sorted.
    - by apply v06_signatures_inv in Hsigs as (m & _ & ? & _). }
  exists j_signed, sigs, k, fk,
    (List.filter (is_valid bin_signature bin_pk (dump j_signed) fk) sigs).
  split; [done|]. split; [done|]. split; [done|]. split; [done|].
  split; [unfold valid_count in Hcount; lia|].
  split; [by apply NoDup_fmap_filter, sigset_sorted_NoDup|].
  apply Forall_forall. intros s Hs.
  apply list_elem_of_In, List.filter_In in Hs as [Hs Hvalid].
  split; [by apply list_elem_of_In|].
  by rewrite <- (is_valid_accepted bin_signature bin_pk).
Qed.

(** X18. The exceptions that leave the constructors: [v1::RootRole(json)]
    throws an exception of the JSON library, [role_metadata_error],
    [threshold_error] or the [std::runtime_error] of [verify], and never
    [std::out_of_range], as the keys of an accepted root are all there;
    [v06::RootRole(json)] can throw [std::out_of_range] as well, for an
    entry of ["signatures"] without ["signature"]. [update] adds
    [spec_version_error] and [rollback_error], and never throws
    [role_file_error]. *)
Theorem constructor_exceptions (this : RootRole) (j : json) (e : exn) :
  (v1_RootRole' j = Err e →
     e = json_exception ∨ e = role_metadata_error ∨ e = runtime_error
     ∨ e = threshold_error) ∧
  (v06_RootRole' j = Err e →
     e = json_exception ∨ e = role_metadata_error ∨ e = out_of_range
     ∨ e = runtime_error ∨ e = threshold_error) ∧
  (update' this j = Err e → e ≠ role_file_error).
Proof.
  split; [apply v1_RootRole_Err|]. split; [apply v06_RootRole_Err|].
  intros Hup ->. unfold update in Hup.
  destruct (create_update' this j) as [c|e] eqn:Hc; cbn [mbind result_bind] in Hup.
  2:{ injection Hup as ->. apply create_update_Err in Hc.
      destruct Hc as [?|[?|[?|[?|[?|?]]]]]; done. }
  destruct (check_role_signatures' this j c) as [[]|e] eqn:Hs;
    cbn [mbind result_bind] in Hup.
  2:{ injection Hup as ->. apply check_role_signatures_Err in Hs.
      destruct Hs as [?|[?|[?|?]]]; done. }
  destruct (negb _); [|done]. destruct (_ <? _); done.
Qed.

(** ** Root files *)

Lemma read_file_inv this p u j :
  read_file' this p u = Ok j →
  fs_exists p = true ∧ fs_read p = Ok j ∧
  ∃ v label,
    filename p = join_char "." [v; label; type this; file_ext this] ∧
    is_version_number v = true ∧ is_word label = true ∧
    (u = true → stoul v = Some (size_t_wrap (version this + 1))).
Proof.
  unfold read_file. destruct (fs_exists p); cbn [negb]; [|done].
  destruct (match_name (filename p)) as [[[v ty] ext]|] eqn:Hname; [|done].
  apply match_name_inv in Hname as (label & Hname & Hv & Hlabel & Hty & Hext).
  destruct (String.eqb_spec ext (file_ext this)) as [->|]; cbn [negb]; [|done].
  destruct (String.eqb_spec ty (type this)) as [->|]; cbn [negb]; [|done].
  destruct u.
  - destruct (stoul v) as [n|] eqn:Hn; [|done].
    destruct (Z.eqb_spec n (size_t_wrap (version this + 1))) as [->|]; cbn [negb]; [|done].
    intros Hread. split; [done|]. split; [done|]. exists v, label. done.
  - intros Hread. split; [done|]. split; [done|]. exists v, label. done.
Qed.

(** X19. [read_file] reads the file only when it exists and its name is
    [N.label.type.ext] with [N] a number without leading zero, [label] a
    word, and the type and extension of the role; for an update [N] must
    be the current version plus 1 (in [size_t]), otherwise any [N] will
    do. In every other case it throws [role_file_error] without reading
    the file; what it returns or throws otherwise is what reading the
    file gives. The constructors from a path consequently read any file
    named [N.label.root.json], whatever [N] is. *)
Theorem read_file_outcome (this : RootRole) (p : string) (u : bool) :
  let name_ok :=
    ∃ v label,
      filename p = join_char "." [v; label; type this; file_ext this] ∧
      is_version_number v = true ∧ is_word label = true ∧
      is_word (type this) = true ∧ is_word (file_ext this) = true ∧
      (u = true → stoul v = Some (size_t_wrap (version this + 1))) in
  (fs_exists p = true ∧ name_ok → read_file' this p u = fs_read p) ∧
  (¬ (fs_exists p = true ∧ name_ok) → read_file' this p u = Err role_file_error) ∧
  (∀ v label,
     fs_exists p = true →
     filename p = join_char "." [v; label; "root"; "json"]%string →
     is_version_number v = true → is_word label = true →
     v1_RootRole_path dump bin_signature bin_pk fs_exists fs_read p
       = (fs_read p ≫= v1_RootRole') ∧
     v06_RootRole_path dump bin_signature bin_pk fs_exists fs_read p
       = (fs_read p ≫= v06_RootRole')).
Proof.
  cbv zeta.
  assert (∀ this u,
            (∃ v label,
               filename p = join_char "." [v; label; type this; file_ext this] ∧
               is_version_number v = true ∧ is_word label = true ∧
               is_word (type this) = true ∧ is_word (file_ext this) = true ∧
               (u = true → stoul v = Some (size_t_wrap (version this + 1)))) →
            fs_exists p = true → read_file' this p u = fs_read p) as Hread.
  { clear this u. intros this u (v & label & Hname & Hv & Hlabel & Hty & Hext & Hn) Hex.
    unfold read_file. rewrite Hex, Hname, match_name_join by done. cbn [negb].
    rewrite !String.eqb_refl. cbn [negb].
    destruct u; [|done]. rewrite (Hn eq_refl), Z.eqb_refl. done. }
  split; [|split].
  - intros [Hex Hok]. by apply Hread.
  - intros Hnot. unfold read_file.
    destruct (fs_exists p) eqn:Hex; cbn [negb]; [|done].
    destruct (match_name (filename p)) as [[[v ty] ext]|] eqn:Hname; [|done].
    apply match_name_inv in Hname as (label & Hname & Hv & Hlabel & Hty & Hext).
    destruct (String.eqb_spec ext (file_ext this)) as [->|]; cbn [negb]; [|done].
    destruct (String.eqb_spec ty (type this)) as [->|]; cbn [negb]; [|done].
    destruct u.
    + destruct (stoul v) as [n|] eqn:Hn; [|done].
      destruct (Z.eqb_spec n (size_t_wrap (version this + 1))) as [->|]; cbn [negb]; [|done].
      exfalso. apply Hnot. split; [done|]. exists v, label. done.
    + exfalso. apply Hnot. split; [done|]. exists v, label. done.
  - intros v label Hex Hname Hv Hlabel.
    unfold v1_RootRole_path, v06_RootRole_path.
    rewrite (Hread (V1 v1.RootRole_new) false), (Hread (V06 v06.RootRole_new) false);
      first [done | by exists v, label].
Qed.

(** X20. [update(path)] returns a root only when the number in front of
    the file name is the version written in the file, both being the
    current version plus 1. As this number is at least 1, an update from
    a file never takes the version from [SIZE_MAX] back to 0. *)
Theorem update_path_file_version (this r : RootRole) (p : string) :
  update_path' this p = Ok r →
  fs_exists p = true ∧
  ∃ v label j,
    filename p = join_char "." [v; label; type this; file_ext this] ∧
    is_version_number v = true ∧ is_word label = true ∧
    fs_read p = Ok j ∧ update' this j = Ok r ∧
    stoul v = Some (version r) ∧
    version r = size_t_wrap (version this + 1) ∧
    1 ≤ version r ∧ version this ≠ SIZE_MAX.
Proof.
  unfold update_path.
  destruct (read_file' this p true) as [j|] eqn:Hread; cbn [mbind result_bind]; [|done].
  intros Hup.
  apply read_file_inv in Hread as (Hex & Hj & v & label & Hname & Hv & Hlabel & Hn).
  specialize (Hn eq_refl).
  destruct (update_Ok_inv _ _ _ _ _ _ Hup) as (_ & _ & Hver).
  pose proof (stoul_version_number v _ Hv Hn) as Hge.
  split; [done|]. exists v, label, j. rewrite Hver.
  repeat split; try done.
  intros Hmax. rewrite Hmax in Hge. vm_compute in Hge. by apply Hge.
Qed.

End Trust.

Lemma update_requires_current_root_signatures_witness :
  ∃ fk accepted,
    RoleFullKeys.threshold fk = 1 ∧ 1 ≤ Z.of_nat (length accepted) ∧
    Forall (λ s, @accepted_by sample_lib fk "" s = true) accepted.
Proof.
  assert (∀ k fk, keys (V1 (sample_v1_role 2)) = Ok k → k !! "root" = Some fk →
                  RoleFullKeys.threshold fk = 1) as Hone.
  { intros k fk Hk Hfk. cbn [keys] in Hk.
    destruct (v1_keys_lookup _ _ _ _ Hk Hfk) as (rk & Hrk & -> & _).
    vm_compute in Hrk. by injection Hrk as <-. }
  destruct (@update_requires_current_root_signatures sample_lib sample_dump
              (repeat x00 64) (repeat x00 32)
              (V1 (sample_v1_role 2)) (V1 (sample_v1_role 3)) (sample_v1_json 3))
    as (j_signed & sigs & k & fk & accepted & _ & _ & Hk & Hfk & Hth & _ & Hall);
    [simpl; lia | simpl; lia | | vm_compute; reflexivity |].
  - intros k fk Hk Hfk. rewrite (Hone k fk Hk Hfk). vm_compute. congruence.
  - exists fk, accepted. rewrite (Hone k fk Hk Hfk) in *.
    split; [reflexivity|]. split; [exact Hth|].
    eapply Forall_impl; [exact Hall|]. intros s [_ Hs]. exact Hs.
Defined.

Lemma update_path_file_version_witness :
  ∃ v label,
    filename "/repo/3.sv1.root.json" = join_char "." [v; label; "root"; "json"]%string ∧
    stoul v = Some 3.
Proof.
  destruct (@update_path_file_version sample_lib sample_dump (repeat x00 64) (repeat x00 32)
              (λ _, true) (λ _, Ok (sample_v1_json 3))
              (V1 (sample_v1_role 2)) (V1 (sample_v1_role 3)) "/repo/3.sv1.root.json")
    as (_ & v & label & j & Hname & _ & _ & _ & _ & Hv & _);
    [vm_compute; reflexivity|].
  exists v, label. split; [exact Hname | exact Hv].
Defined.

Lemma v06_RootRole_requires_signatures_witness :
  ∃ d accepted,
    v06.m_delegations (sample_v06_role 1) !! "root" = Some d ∧
    1 ≤ RolePubKeys.threshold d ≤ Z.of_nat (length accepted) ∧
    NoDup (RoleSignature.keyid <$> accepted).
Proof.
  destruct (@v06_RootRole_requires_signatures sample_lib sample_dump
              (repeat x00 64) (repeat x00 32) (sample_v06_json 1) (sample_v06_role 1))
    as (_ & _ & _ & d & accepted & _ & _ & Hd & Hth & Hnd & _);
    [simpl; lia | simpl; lia | vm_compute; reflexivity |].
  exists d, accepted. done.
Defined.

Lemma v1_RootRole_requires_signatures_witness :
  ∃ rk accepted,
    v1.m_roles (sample_v1_role 1) !! "root" = Some rk ∧
    1 ≤ RoleKeys.threshold rk ≤ Z.of_nat (length accepted) ∧
    NoDup (RoleSignature.keyid <$> accepted).
Proof.
  destruct (@v1_RootRole_requires_signatures sample_lib sample_dump
              (repeat x00 64) (repeat x00 32) (sample_v1_json 1) (sample_v1_role 1))
    as (_ & _ & _ & _ & rk & accepted & _ & _ & _ & Hrk & Hth & Hnd & _);
    [simpl; lia | simpl; lia | vm_compute; reflexivity |].
  exists rk, accepted. done.
Defined.

(** ** The v1 equivalent of a v0.6 root *)

Lemma v1_from_json_try_roles j j_signed role0 role :
  v1.from_json_try j j_signed role0 = Ok role →
  (Json.at_ j_signed "roles" ≫= Json.get_map RoleKeys.from_json) = Ok (v1.m_roles role).
Proof.
  unfold v1.from_json_try.
  destruct (RoleBase_from_json j_signed (v1.base role0)); cbn [mbind result_bind]; [|done].
  destruct (Json.at_ j_signed "_type" ≫= Json.get_string); cbn [mbind result_bind]; [|done].
  destruct (negb _); [done|].
  destruct (Json.at_ j_signed "spec_version" ≫= Json.get_string);
    cbn [mbind result_bind]; [|done].
  destruct (negb _); [done|].
  destruct (Json.at_ j_signed "keys" ≫= _); cbn [mbind result_bind]; [|done].
  destruct (Json.at_ j_signed "roles" ≫= _); cbn [mbind result_bind]; [|done].
  by intros [= <-].
Qed.

(** X21. [upgraded_signable] throws [std::out_of_range] exactly when the
    delegation ["root"] or ["key_mgr"] is missing, hence never on a root
    that [v06::from_json] has accepted. The document it builds gives the
    roles ["snapshot"] and ["timestamp"] no key id: placed under
    ["signed"], it is rejected by [v1::from_json] with
    [role_metadata_error], whatever the rest of the document. *)
Theorem upgraded_signable_not_a_v1_root (r : v06.RootRole) :
  (is_Ok (v06.upgraded_signable r) = true ↔
     is_Some (v06.m_delegations r !! "root") ∧
     is_Some (v06.m_delegations r !! "key_mgr")) ∧
  (∀ e, v06.upgraded_signable r = Err e → e = out_of_range) ∧
  (∀ j role0, v06.from_json j role0 = Ok r → is_Ok (v06.upgraded_signable r) = true) ∧
  (∀ js j role0,
     v06.upgraded_signable r = Ok js → Json.at_ j "signed" = Ok js →
     v1.from_json j role0 = Err role_metadata_error).
Proof.
  assert (∀ j role0, v06.from_json j role0 = Ok r →
            dom (v06.m_delegations r) = v06.mandatory_roles) as Hdom.
  { intros j role0 Hparse. unfold v06.from_json in Hparse.
    destruct (Json.at_ j "signed"); cbn [mbind result_bind] in Hparse; [|done].
    destruct (Json.catch_json _) as [role1|]; cbn [mbind result_bind] in Hparse; [|done].
    case_bool_decide as Hok; cbn [negb] in Hparse; [|done].
    case_bool_decide as Hd; cbn [negb] in Hparse; [|done].
    by injection Hparse as <-. }
  unfold v06.upgraded_signable, v06.map_at. rewrite v06_keys_spec.
  cbn [mbind result_bind]. rewrite !lookup_fmap.
  destruct (v06.m_delegations r !! "root") as [d_root|] eqn:Hroot; cbn [mbind result_bind].
  2:{ split; [split; [done|intros [[? ?] _]; done]|]. split; [by intros e [= <-]|].
      split; [|done]. intros j role0 Hparse. exfalso.
      apply Hdom in Hparse. apply not_elem_of_dom in Hroot. apply Hroot. rewrite Hparse.
      unfold v06.mandatory_roles. set_solver. }
  destruct (v06.m_delegations r !! "key_mgr") as [d_key_mgr|] eqn:Hmgr;
    cbn [mbind result_bind fmap option_fmap option_map].
  2:{ split; [split; [done|intros [_ [? ?]]; done]|]. split; [by intros e [= <-]|].
      split; [|done]. intros j role0 Hparse. exfalso.
      apply Hdom in Hparse. apply not_elem_of_dom in Hmgr. apply Hmgr. rewrite Hparse.
      unfold v06.mandatory_roles. set_solver. }
  split; [split; [eauto|done]|]. split; [done|]. split; [done|].
  intros js j role0 [= <-] Hsigned.
  unfold v1.from_json. rewrite Hsigned. cbn [mbind result_bind].
  match goal with |- context [v1.from_json_try j ?js role0] => set (signed := js) end.
  destruct (v1.from_json_try j signed role0) as [role1|e] eqn:Htry.
  2:{ apply v1_from_json_try_json_or_metadata in Htry as [-> | ->]; done. }
  cbn [Json.catch_json mbind result_bind].
  case_bool_decide as Hnames; cbn [negb]; [|done].
  case_bool_decide as Hmand; cbn [negb]; [|done].
  case_bool_decide as Hroles; cbn [negb]; [|done].
  exfalso. apply v1_from_json_try_roles in Htry.
  set (roles_map :=
    <["root"%string := RolePubKeys.to_role_keys d_root]>
    (<["targets"%string := RolePubKeys.to_role_keys d_key_mgr]>
    (<["snapshot"%string := RoleKeys.mk [] 1]>
    (<["timestamp"%string := RoleKeys.mk [] 1]> (∅ : gmap string RoleKeys.t))))).
  change (Json.at_ signed "roles") with (Ok (Json.of_map RoleKeys.to_json roles_map)) in Htry.
  cbn [mbind result_bind] in Htry.
  rewrite (map_json_round_trip RoleKeys.from_json RoleKeys.to_json
             (λ rk, RoleKeys.mk (RoleKeys.keyids rk) (size_t_wrap (RoleKeys.threshold rk))))
    in Htry by apply RoleKeys_json_round_trip.
  injection Htry as Hm.
  specialize (Hroles "snapshot"%string (RoleKeys.mk [] (size_t_wrap 1))).
  rewrite <- Hm in Hroles. specialize (Hroles eq_refl).
  cbn in Hroles. done.
Qed.

(** ** Documents written and read back *)

(** X22. The structures written by [to_json] are read back by
    [from_json]: keys and signatures unchanged; the threshold of a role
    and the version of a root through the conversion to [size_t]. A root
    role is written as its version alone, so that the result cannot be
    read back as a root: [from_json] throws the exception of the JSON
    library for the missing ["signed"]. The signatures written as an
    array are read back as the set of the vector. *)
Theorem json_round_trips :
  (∀ k, Key.from_json (Key.to_json k) = Ok k) ∧
  (∀ s, RoleSignature.from_json (RoleSignature.to_json s) = Ok s) ∧
  (∀ rk, RoleKeys.from_json (RoleKeys.to_json rk) =
         Ok (RoleKeys.mk (RoleKeys.keyids rk) (size_t_wrap (RoleKeys.threshold rk)))) ∧
  (∀ d, RolePubKeys.from_json (RolePubKeys.to_json d) =
        Ok (RolePubKeys.mk (RolePubKeys.pubkeys d) (size_t_wrap (RolePubKeys.threshold d)))) ∧
  (∀ b b0, RoleBase_from_json (RoleBase_to_json b) b0 =
           Ok (set_version (size_t_wrap (m_version b)) b0)) ∧
  (∀ r role0, v1.from_json (v1_to_json r) role0 = Err json_exception) ∧
  (∀ r role0, v06.from_json (v06_to_json r) role0 = Err json_exception) ∧
  (∀ sigs, v1.signatures
             (JObj (<["signatures" := JArr (RoleSignature.to_json <$> sigs)]> ∅)) =
           Ok (SigSet.of_vector sigs)).
Proof.
  split; [apply Key_json_round_trip|].
  split; [by intros []|].
  split; [apply RoleKeys_json_round_trip|].
  split.
  { intros [pks th]. unfold RolePubKeys.from_json, RolePubKeys.to_json.
    change (Json.at_ (JObj _) "pubkeys") with (Ok (Json.of_strings pks)).
    change (Json.at_ (JObj _) "threshold") with (Ok (JNum th)).
    cbn [mbind result_bind]. rewrite strings_json_round_trip. done. }
  split; [done|]. split; [done|]. split; [done|].
  intros sigs. unfold v1.signatures.
  change (Json.at_ (JObj _) "signatures")
    with (Ok (JArr (RoleSignature.to_json <$> sigs))).
  cbn [mbind result_bind Json.get_vector].
  assert (mapM RoleSignature.from_json (RoleSignature.to_json <$> sigs) = Ok sigs) as ->.
  { induction sigs as [|[k g] sigs IH]; [done|].
    cbn [fmap list_fmap mapM]. fold (RoleSignature.to_json <$> sigs). rewrite IH. done. }
  done.
Qed.

End TrustMore.
(** * The major spec version of a root *)

Module SpecVersionMore.
Import SchemaFacts TrustMore.

Lemma prefix_inv pre s :
  String.prefix pre s = true → ∃ rest, s = pre +:+ rest.
Proof.
  revert s. induction pre as [|a pre IH]; intros s Hp.
  - by exists s.
  - destruct s as [|b s]; [done|]. cbn [String.prefix] in Hp.
    destruct (ascii_dec a b) as [->|]; [|done].
    destruct (IH s Hp) as [rest ->]. by exists rest.
Qed.

Lemma leading_component_one rest : leading_component ("1." +:+ rest) = "1"%string.
Proof.
  unfold leading_component.
  change ("1." +:+ rest) with ("1" +:+ String "." rest).
  by rewrite split_char_app.
Qed.

Lemma leading_component_zero rest : leading_component ("0.6." +:+ rest) = "0"%string.
Proof.
  unfold leading_component.
  change ("0.6." +:+ rest) with ("0" +:+ String "." ("6." +:+ rest)).
  by rewrite split_char_app.
Qed.

Lemma v1_from_json_spec_version j role0 role :
  v1.from_json j role0 = Ok role →
  String.prefix "1." (m_spec_version (v1.base role)) = true.
Proof.
  unfold v1.from_json.
  destruct (Json.at_ j "signed") as [j_signed|] eqn:Hsigned; cbn [mbind result_bind]; [|done].
  destruct (v1.from_json_try j j_signed role0) as [role1|e] eqn:Htry;
    [|destruct e; done].
  cbn [Json.catch_json mbind result_bind].
  repeat (case_bool_decide; cbn [negb]; [|done]). intros [= <-].
  unfold v1.from_json_try in Htry.
  destruct (RoleBase_from_json j_signed (v1.base role0)); cbn [mbind result_bind] in Htry;
    [|done].
  destruct (Json.at_ j_signed "_type" ≫= Json.get_string); cbn [mbind result_bind] in Htry;
    [|done].
  destruct (negb _); [done|].
  destruct (Json.at_ j_signed "spec_version" ≫= Json.get_string) as [sv|] eqn:Hsv;
    cbn [mbind result_bind] in Htry; [|done].
  destruct (v1.is_spec_version_compatible j) eqn:Hcompat; cbn [negb] in Htry; [|done].
  destruct (Json.at_ j_signed "keys" ≫= _); cbn [mbind result_bind] in Htry; [|done].
  destruct (Json.at_ j_signed "roles" ≫= _); cbn [mbind result_bind] in Htry; [|done].
  injection Htry as <-. cbn.
  unfold v1.is_spec_version_compatible in Hcompat. rewrite Hsigned in Hcompat.
  cbn [mbind result_bind] in Hcompat. rewrite Hsv in Hcompat. exact Hcompat.
Qed.

Lemma v06_from_json_spec_version j role0 role :
  v06.from_json j role0 = Ok role →
  String.prefix "0.6." (m_spec_version (v06.base role)) = true.
Proof.
  unfold v06.from_json.
  destruct (Json.at_ j "signed") as [j_signed|] eqn:Hsigned; cbn [mbind result_bind]; [|done].
  destruct (v06.from_json_try j j_signed role0) as [role1|e] eqn:Htry;
    [|destruct e; done].
  cbn [Json.catch_json mbind result_bind].
  repeat (case_bool_decide; cbn [negb]; [|done]). intros [= <-].
  unfold v06.from_json_try in Htry.
  destruct (RoleBase_from_json j_signed (v06.base role0)); cbn [mbind result_bind] in Htry;
    [|done].
  destruct (Json.at_ j_signed "type" ≫= Json.get_string); cbn [mbind result_bind] in Htry;
    [|done].
  destruct (negb _); [done|].
  destruct (Json.at_ j_signed "metadata_spec_version" ≫= Json.get_string) as [sv|] eqn:Hsv;
    cbn [mbind result_bind] in Htry; [|done].
  destruct (v06.is_spec_version_compatible j) eqn:Hcompat; cbn [negb] in Htry; [|done].
  destruct (Json.at_ j_signed "delegations" ≫= _); cbn [mbind result_bind] in Htry; [|done].
  injection Htry as <-. cbn.
  unfold v06.is_spec_version_compatible in Hcompat. rewrite Hsigned in Hcompat.
  cbn [mbind result_bind] in Hcompat. rewrite Hsv in Hcompat. exact Hcompat.
Qed.

(** X24. On a root that [from_json] has accepted, [major_spec_version]
    throws nothing and names the dialect of the reader: [kV1] for a v1
    root, [kV06] for a v0.6 root; [is_spec_version_compatible] of a v1
    root on the spec version of a v0.6 root is false, and true on that of
    another v1 root. *)
Theorem major_spec_version_of_parsed_root
    (j1 j1' j06 : json) (r1 r1' start1 start1' : v1.RootRole) (r06 start06 : v06.RootRole) :
  v1.from_json j1 start1 = Ok r1 →
  v1.from_json j1' start1' = Ok r1' →
  v06.from_json j06 start06 = Ok r06 →
  major_spec_version (v1.base r1) = inr (Ok kV1) ∧
  major_spec_version (v06.base r06) = inr (Ok kV06) ∧
  RoleBase_is_spec_version_compatible (v1.base r1) (m_spec_version (v06.base r06))
    = inr false ∧
  RoleBase_is_spec_version_compatible (v1.base r1) (m_spec_version (v1.base r1'))
    = inr true.
Proof.
  intros H1 H1' H06.
  apply v1_from_json_spec_version, prefix_inv in H1 as [rest1 E1].
  apply v1_from_json_spec_version, prefix_inv in H1' as [rest1' E1'].
  apply v06_from_json_spec_version, prefix_inv in H06 as [rest06 E06].
  unfold major_spec_version, RoleBase_is_spec_version_compatible.
  rewrite E1, E1', E06, !leading_component_one, leading_component_zero.
  repeat split; reflexivity.
Qed.

Lemma major_spec_version_of_parsed_root_witness :
  major_spec_version (v1.base (sample_v1_role 1)) = inr (Ok kV1) ∧
  major_spec_version (v06.base (sample_v06_role 1)) = inr (Ok kV06).
Proof.
  destruct (major_spec_version_of_parsed_root (sample_v1_json 1) (sample_v1_json 1)
              (sample_v06_json 1) (sample_v1_role 1) (sample_v1_role 1)
              v1.RootRole_new v1.RootRole_new (sample_v06_role 1) v06.RootRole_new)
    as (H1 & H06 & _); [vm_compute; reflexivity..|].
  split; [exact H1 | exact H06].
Defined.

End SpecVersionMore.
